(** * pdf-signer: the signing pipeline and the signature detector

    A shallow embedding of the JavaScript sources of the PDF signer
    (backend/server.js and its variants, tsa-helper.js, ltv-helper.js and the
    Netlify functions), followed by the properties established about them.

    Buffers are read by the sources with [toString('binary')], one character
    per byte, so a buffer and its text are both a list of characters with
    codes 0..255. *)

From Stdlib Require Import Ascii String DecimalString DecimalN.
From Stdlib Require Import ZArith NArith Lia Bool Arith List.
Import ListNotations.

Set Implicit Arguments.
Set Warnings "-register-all".

(* ================================================================== *)
(** * Part I: definitions *)
(* ================================================================== *)

(** ** JavaScript strings, numbers and regular expressions *)

Module JS.

Definition str := list ascii.

Definition lit (s : string) : str := list_ascii_of_string s.
Arguments lit s%_string.

Definition code (c : ascii) : N := N_of_ascii c.

Definition chr (n : N) : ascii := ascii_of_N n.

Definition str_eqb (a b : str) : bool :=
  if list_eq_dec ascii_dec a b then true else false.

(** [\d] *)
Definition isDigit (c : ascii) : bool :=
  ((48 <=? code c) && (code c <=? 57))%N.

(** [\s] restricted to the codes a binary string can hold: TAB, LF, VT, FF,
    CR, SPACE and NBSP. *)
Definition isSpace (c : ascii) : bool :=
  (((9 <=? code c) && (code c <=? 13)) || (code c =? 32) || (code c =? 160))%N.

(** Canonicalize of the [i] flag (no [u] flag): the upper-case mapping.  On
    the ASCII letters it is the usual one; a character above 127 never
    canonicalizes to an ASCII one, and no pattern of the sources holds a
    literal above 127, so the other characters are left alone. *)
Definition canonicalize (c : ascii) : ascii :=
  if ((97 <=? code c) && (code c <=? 122))%N then chr (code c - 32) else c.

Definition char_eq (ci : bool) (pat x : ascii) : bool :=
  if ci then (code (canonicalize pat) =? code (canonicalize x))%N
  else (code pat =? code x)%N.

(** *** Regular expressions

    The constructs the patterns of the sources use.  Quantifiers only ever
    apply to a character class ([\s*], [\d+], [[^>]*], [[\s\S]*?],
    [[0-7]{2}]), which [Rep] repeats, or are the greedy star of a group
    ([(?:...)*]), which is [Many]. *)
Inductive regex : Type :=
| Eps
| Chr (c : ascii)
| Cls (p : ascii -> bool)
| Rep (greedy : bool) (lo : nat) (hi : option nat) (p : ascii -> bool)
| Cat (r1 r2 : regex)
| Alt (r1 r2 : regex)
| Many (r : regex)
| Cap (r : regex).

Fixpoint word_of (s : str) : regex :=
  match s with
  | [] => Eps
  | c :: t => Cat (Chr c) (word_of t)
  end.

(** A run of literal characters. *)
Definition word (s : string) : regex := word_of (lit s).
Arguments word s%_string.

Definition star (p : ascii -> bool) : regex := Rep true 0 None p.
Definition plus (p : ascii -> bool) : regex := Rep true 1 None p.
Definition lazy_star (p : ascii -> bool) : regex := Rep false 0 None p.
Definition times (n : nat) (p : ascii -> bool) : regex := Rep true n (Some n) p.

Fixpoint cat (rs : list regex) : regex :=
  match rs with
  | [] => Eps
  | [r] => r
  | r :: t => Cat r (cat t)
  end.

(** The suffixes left after consuming 0, 1, 2, ... leading characters of the
    class, fewest first. *)
Fixpoint takes (p : ascii -> bool) (s : str) : list str :=
  s :: match s with
       | c :: t => if p c then takes p t else []
       | [] => []
       end.

Definition window {A : Type} (lo : nat) (hi : option nat) (l : list A) : list A :=
  match hi with
  | None => skipn lo l
  | Some h => firstn (S h - lo) (skipn lo l)
  end.

(** The rounds of a greedy star: one more round first, then none; a round
    that consumes nothing is given up.  A round consumes a character, so
    there are no more rounds than characters. *)
Fixpoint many_loop (round : list str -> str -> list (list str * str))
    (fuel : nat) (caps : list str) (s : str) : list (list str * str) :=
  match fuel with
  | O => [(caps, s)]
  | S n =>
      flat_map (fun cs => if length (snd cs) <? length s
                          then many_loop round n (fst cs) (snd cs) else [])
               (round caps s)
      ++ [(caps, s)]
  end.

(** The backtracking matcher, as the list of its successes in the order in
    which it tries them: each success is the captures so far and the text
    left.  What the engine answers is the first one.  Groups of the patterns
    used here are neither nested nor under an alternative, so the i-th group
    closed is group i. *)
Fixpoint run (ci : bool) (r : regex) (caps : list str) (s : str)
  : list (list str * str) :=
  match r with
  | Eps => [(caps, s)]
  | Chr c =>
      match s with
      | x :: t => if char_eq ci c x then [(caps, t)] else []
      | [] => []
      end
  | Cls p =>
      match s with
      | x :: t => if p x then [(caps, t)] else []
      | [] => []
      end
  | Rep greedy lo hi p =>
      let w := window lo hi (takes p s) in
      map (fun s' => (caps, s')) (if greedy then rev w else w)
  | Cat r1 r2 =>
      flat_map (fun cs => run ci r2 (fst cs) (snd cs)) (run ci r1 caps s)
  | Alt r1 r2 => run ci r1 caps s ++ run ci r2 caps s
  | Many r1 => many_loop (run ci r1) (length s) caps s
  | Cap r1 =>
      map (fun cs => (fst cs ++ [firstn (length s - length (snd cs)) s], snd cs))
          (run ci r1 caps s)
  end.

Record found : Type := Found {
  skipped : str;        (* the text before the match *)
  matched : str;        (* match[0] *)
  groups : list str;    (* match[1], match[2], ... *)
  rest : str            (* the text after the match *)
}.

Definition exec_here (ci : bool) (r : regex) (s : str) : option (list str * str) :=
  hd_error (run ci r [] s).

(** The first position, from the left, at which the pattern matches.  No
    pattern of the sources looks behind ([^], [\b], lookbehind), so matching at
    a position only depends on the text from there on. *)
Fixpoint search (ci : bool) (r : regex) (s : str) : option found :=
  match exec_here ci r s with
  | Some (caps, s') =>
      Some (Found [] (firstn (length s - length s') s) caps s')
  | None =>
      match s with
      | [] => None
      | c :: t =>
          match search ci r t with
          | Some f => Some (Found (c :: skipped f) (matched f) (groups f) (rest f))
          | None => None
          end
      end
  end.

(** [RegExp.prototype.test] *)
Definition test (ci : bool) (r : regex) (s : str) : bool :=
  match search ci r s with Some _ => true | None => false end.

(** Successive matches of a [g] pattern: the search resumes where the last
    match ended, one character further after an empty match. *)
Fixpoint matches_from (fuel : nat) (ci : bool) (r : regex) (s : str) : list found :=
  match fuel with
  | O => []
  | S n =>
      match search ci r s with
      | None => []
      | Some f =>
          f :: match matched f with
               | [] => match rest f with
                       | [] => []
                       | _ :: t => matches_from n ci r t
                       end
               | _ :: _ => matches_from n ci r (rest f)
               end
      end
  end.

Definition matchAll (ci : bool) (r : regex) (s : str) : list found :=
  matches_from (S (length s)) ci r s.

(** [String.prototype.match] with a [g] pattern: the matched substrings, or
    [null] when there is none. *)
Definition match_g (ci : bool) (r : regex) (s : str) : option (list str) :=
  match matchAll ci r s with
  | [] => None
  | l => Some (map matched l)
  end.

(** [String.prototype.replace] with a pattern without the [g] flag: the first
    match is replaced.  The replacement texts of the sources hold no [$]. *)
Definition replace_first (ci : bool) (r : regex) (by_ : str) (s : str) : str :=
  match search ci r s with
  | None => s
  | Some f => skipped f ++ by_ ++ rest f
  end.

(** [String.prototype.replace] with a [g] pattern and a replacer function. *)
Fixpoint replace_from (fuel : nat) (ci : bool) (r : regex)
    (f : str -> list str -> str) (s : str) : str :=
  match fuel with
  | O => s
  | S n =>
      match search ci r s with
      | None => s
      | Some m =>
          skipped m ++ f (matched m) (groups m) ++
          match matched m with
          | [] => match rest m with
                  | [] => []
                  | c :: t => c :: replace_from n ci r f t
                  end
          | _ :: _ => replace_from n ci r f (rest m)
          end
      end
  end.

Definition replace_g (ci : bool) (r : regex) (f : str -> list str -> str) (s : str) : str :=
  replace_from (S (length s)) ci r f s.

(** *** Strings *)

Fixpoint prefixb (p s : str) : bool :=
  match p, s with
  | [], _ => true
  | a :: p', b :: s' => (code a =? code b)%N && prefixb p' s'
  | _ :: _, [] => false
  end.

(** [String.prototype.indexOf]: the text before and after the first
    occurrence. *)
Fixpoint split_first (pat s : str) : option (str * str) :=
  if prefixb pat s then Some ([], skipn (length pat) s)
  else match s with
       | [] => None
       | c :: t =>
           match split_first pat t with
           | Some (a, b) => Some (c :: a, b)
           | None => None
           end
       end.

(** [String.prototype.lastIndexOf]: the index of the last occurrence. *)
Fixpoint lastIndexOf (pat s : str) : option nat :=
  match s with
  | [] => if prefixb pat [] then Some 0 else None
  | c :: t =>
      match lastIndexOf pat t with
      | Some i => Some (S i)
      | None => if prefixb pat s then Some 0 else None
      end
  end.

(** [String.prototype.replace] with a string pattern: the first occurrence is
    replaced. *)
Definition replace_str (pat by_ s : str) : str :=
  match split_first pat s with
  | None => s
  | Some (a, b) => a ++ by_ ++ b
  end.

(** [String.prototype.padEnd] with a one-character filler. *)
Definition padEnd (s : str) (n : nat) (fill : ascii) : str :=
  s ++ repeat fill (n - length s).

Fixpoint join (sep : str) (l : list str) : str :=
  match l with
  | [] => []
  | [x] => x
  | x :: t => x ++ sep ++ join sep t
  end.

(** *** Numbers

    A Number holding an integer is a double: every integer up to 2^53 is
    exact, and above it the result of an operation is rounded to 53
    significant bits, ties to even. *)
Inductive num : Type :=
| NaN
| Num (z : Z).

Definition round53 (n : Z) : Z :=
  let a := Z.abs n in
  if (a <=? 2 ^ 53)%Z then n
  else
    let e := (Z.log2 a - 52)%Z in
    let q := (a / 2 ^ e)%Z in
    let r := (a mod 2 ^ e)%Z in
    let half := (2 ^ (e - 1))%Z in
    let q' := if (r <? half)%Z then q
              else if (half <? r)%Z then (q + 1)%Z
              else if Z.even q then q else (q + 1)%Z in
    (Z.sgn n * (q' * 2 ^ e))%Z.

Definition num_add (a b : num) : num :=
  match a, b with
  | Num x, Num y => Num (round53 (x + y))
  | _, _ => NaN
  end.

(** A number in a condition: [NaN] and 0 are false. *)
Definition truthy (n : num) : bool :=
  match n with
  | NaN => false
  | Num z => negb (z =? 0)%Z
  end.

(** The greatest of the numbers of a non-empty list: what [Math.max]
    answers for these arguments once it has them.  Passing them is a step of
    its own, which can throw: see [maxOfSpread]. *)
Fixpoint num_max (l : list num) : num :=
  match l with
  | [] => NaN
  | [x] => x
  | x :: t =>
      match x, num_max t with
      | Num a, Num b => Num (Z.max a b)
      | _, _ => NaN
      end
  end.

Definition digitVal (c : ascii) : option N :=
  let n := code c in
  if ((48 <=? n) && (n <=? 57))%N then Some (n - 48)%N
  else if ((97 <=? n) && (n <=? 122))%N then Some (n - 87)%N
  else if ((65 <=? n) && (n <=? 90))%N then Some (n - 55)%N
  else None.

Definition isRadixDigit (radix : N) (c : ascii) : bool :=
  match digitVal c with
  | Some d => (d <? radix)%N
  | None => false
  end.

Fixpoint span (p : ascii -> bool) (s : str) : str * str :=
  match s with
  | [] => ([], [])
  | c :: t => if p c then let (a, b) := span p t in (c :: a, b) else ([], s)
  end.

Definition digitsValue (radix : N) (ds : str) : N :=
  fold_left (fun acc c => match digitVal c with
                          | Some d => acc * radix + d
                          | None => acc
                          end)%N ds 0%N.

(** [parseInt(s, radix)], [radix] being [None] when the argument is left out:
    leading white space, a sign, a [0x] prefix when the radix is 16 or left
    out, then the longest run of digits of the radix; [NaN] when that run is
    empty.  The value is rounded to a double; a run of digits that writes a
    number beyond the greatest double, which JavaScript reads as [Infinity],
    is more than 300 digits long and is left out of account. *)
Definition parseInt (s : str) (radix : option N) : num :=
  let s1 := snd (span isSpace s) in
  let (neg, s2) := match s1 with
                   | c :: t => if (code c =? 45)%N then (true, t)
                               else if (code c =? 43)%N then (false, t)
                               else (false, s1)
                   | [] => (false, s1)
                   end in
  let r0 := match radix with Some r => r | None => 10%N end in
  let hexPrefix := match s2 with
                   | a :: b :: _ => (code a =? 48)%N && ((code b =? 120) || (code b =? 88))%N
                   | _ => false
                   end in
  let strip := hexPrefix && match radix with Some r => (r =? 16)%N | None => true end in
  let r1 := if strip then 16%N else r0 in
  let s3 := if strip then skipn 2 s2 else s2 in
  let ds := fst (span (isRadixDigit r1) s3) in
  match ds with
  | [] => NaN
  | _ => let v := Z.of_N (digitsValue r1 ds) in
         Num (round53 (if neg then - v else v))
  end.

Definition decimal (n : N) : str :=
  list_ascii_of_string (NilEmpty.string_of_uint (N.to_uint n)).

(** Number to string, as a template literal does it.  The digits of an
    integer are printed exactly; this is what JavaScript prints for every
    integer up to 2^53.  Above it JavaScript prints the shortest digits that
    read back as the same double, and an exponent from 10^21 on, so the
    digits given here are not the ones of JavaScript there: what is proved
    of printed numbers is proved of integers up to 2^53. *)
Definition numToString (n : num) : str :=
  match n with
  | NaN => lit "NaN"
  | Num z => if (z <? 0)%Z then lit "-" ++ decimal (Z.to_N (- z)) else decimal (Z.to_N z)
  end.

(** [String.fromCharCode] for a code below 256. *)
Definition fromCharCode (n : num) : str :=
  match n with
  | Num z => [chr (Z.to_N z)]
  | NaN => [chr 0]
  end.

(** *** Buffers: hex and base64 *)

Definition hexDigit (n : N) : ascii :=
  if (n <? 10)%N then chr (48 + n) else chr (87 + n).

(** [buf.toString('hex')] *)
Fixpoint toHex (b : str) : str :=
  match b with
  | [] => []
  | c :: t => hexDigit (code c / 16) :: hexDigit (code c mod 16) :: toHex t
  end.

(** [Buffer.from(s, 'hex')]: pairs of hex digits, up to the first pair that is
    not one. *)
Fixpoint fromHex (s : str) : str :=
  match s with
  | a :: b :: t =>
      match (if isRadixDigit 16 a then digitVal a else None),
            (if isRadixDigit 16 b then digitVal b else None) with
      | Some x, Some y => chr (x * 16 + y) :: fromHex t
      | _, _ => []
      end
  | _ => []
  end.

Definition b64char (n : N) : ascii :=
  if (n <? 26)%N then chr (65 + n)
  else if (n <? 52)%N then chr (71 + n)
  else if (n <? 62)%N then chr (n - 4)
  else if (n =? 62)%N then "+"%char else "/"%char.

(** [buf.toString('base64')] *)
Fixpoint toBase64 (b : str) : str :=
  match b with
  | [] => []
  | [x] =>
      [b64char (code x / 4); b64char ((code x mod 4) * 16); "="%char; "="%char]
  | [x; y] =>
      [b64char (code x / 4); b64char ((code x mod 4) * 16 + code y / 16);
       b64char ((code y mod 16) * 4); "="%char]
  | x :: y :: z :: t =>
      b64char (code x / 4) :: b64char ((code x mod 4) * 16 + code y / 16)
      :: b64char ((code y mod 16) * 4 + code z / 64) :: b64char (code z mod 64)
      :: toBase64 t
  end.

End JS.

Import JS.

(** ** The signature and LTV detector ([checkPdfSignature]) *)

(** [zlib.inflateSync]: the inflated bytes, or nothing when it throws. *)
Class Zlib : Type := { inflateSync : str -> option str }.

Module Detector.

Definition backslash : ascii := chr 92.
Definition newline : ascii := chr 10.

Definition anyChar (c : ascii) : bool := true.
Definition notGt (c : ascii) : bool := negb (code c =? 62)%N.
Definition notRParen (c : ascii) : bool := negb (code c =? 41)%N.
Definition in03 (c : ascii) : bool := ((48 <=? code c) && (code c <=? 51))%N.
Definition in07 (c : ascii) : bool := ((48 <=? code c) && (code c <=? 55))%N.

(** [/\/Type\s*\/Sig|\/FT\s*\/Sig|\/SubFilter\s*\/adbe\.pkcs7/i] *)
Definition sig_re : regex :=
  Alt (cat [word "/Type"; star isSpace; word "/Sig"])
      (Alt (cat [word "/FT"; star isSpace; word "/Sig"])
           (cat [word "/SubFilter"; star isSpace; word "/adbe.pkcs7"])).

(** [/\/DSS\s+\d+\s+0\s+R/i] *)
Definition dss_ref_re : regex :=
  cat [word "/DSS"; plus isSpace; plus isDigit; plus isSpace; word "0";
       plus isSpace; word "R"].

(** [/\/Type\s*\/DSS/i] *)
Definition type_dss_re : regex := cat [word "/Type"; star isSpace; word "/DSS"].

(** [/\/Type\s*\/DSS|\/DSS\s+\d+\s+0\s+R/i] *)
Definition dss_marker_re : regex := Alt type_dss_re dss_ref_re.

(** [/\/Type\s*\/VRI/i] *)
Definition vri_re : regex := cat [word "/Type"; star isSpace; word "/VRI"].

(** [/\/Filter\s*\/FlateDecode/i] *)
Definition flate_re : regex :=
  cat [word "/Filter"; star isSpace; word "/FlateDecode"].

(** [/(\d+\s+0\s+obj\s*<<[^>]*>>)\s*stream\s*\n([\s\S]*?)\s*endstream/g] *)
Definition stream_re : regex :=
  cat [Cap (cat [plus isDigit; plus isSpace; word "0"; plus isSpace; word "obj";
                 star isSpace; word "<<"; star notGt; word ">>"]);
       star isSpace; word "stream"; star isSpace; Chr newline;
       Cap (lazy_star anyChar); star isSpace; word "endstream"].


Definition stream_close : regex := Cat (star isSpace) (word "endstream").



(** [/\\([0-3][0-7]{2})/g] *)
Definition octal_re : regex :=
  Cat (Chr backslash) (Cap (Cat (Cls in03) (times 2 in07))).

(** The pattern [/KEY], white space, an opening parenthesis, group 1, a
    closing parenthesis, for KEY one of Name, T, Reason and Location; group 1
    is a run of characters other than the closing parenthesis followed by
    any number of rounds of: a backslash, a closing parenthesis, such a run. *)
Definition literal_re (key : string) : regex :=
  cat [word_of (lit key); star isSpace; word "(";
       Cap (Cat (star notRParen)
                (Many (cat [Chr backslash; word ")"; star notRParen])));
       word ")"].

(** [/\/M\s*\(D:(\d{14})/] *)
Definition date_re : regex :=
  cat [word "/M"; star isSpace; word "(D:"; Cap (times 14 isDigit)].

Definition const (by_ : string) : str -> list str -> str := fun _ _ => lit by_.
Arguments const by_%_string.

Definition decodePdfString (s : str) : str :=
  match s with
  | [] => []
  | _ =>
      let s1 := replace_g false octal_re
                  (fun _ g => fromCharCode (parseInt (nth 0 g []) (Some 8%N))) s in
      let s2 := replace_g false (Cat (Chr backslash) (word "(")) (const "(") s1 in
      let s3 := replace_g false (Cat (Chr backslash) (word ")")) (const ")") s2 in
      let s4 := replace_g false (Cat (Chr backslash) (Chr backslash))
                  (fun _ _ => [backslash]) s3 in
      let s5 := replace_g false (Cat (Chr backslash) (word "n"))
                  (fun _ _ => [newline]) s4 in
      let s6 := replace_g false (Cat (Chr backslash) (word "r"))
                  (fun _ _ => [chr 13]) s5 in
      replace_g false (Cat (Chr backslash) (word "t")) (fun _ _ => [chr 9]) s6
  end.

(** [pdfText.match(regex)] followed by the decoding of group 1 *)
Definition extract (pdfText : str) (r : regex) : str :=
  match search false r pdfText with
  | Some m => decodePdfString (nth 0 (groups m) [])
  | None => []
  end.

Record descriptor : Type := Descriptor {
  hasLTV : bool;
  signer : str;
  reason : str;
  location : str;
  date : str
}.

(** [{ hasSig: false }], or [{ hasSig: true, hasLTV, signer, ... }] *)
Inductive result : Type :=
| NoSig
| Sig (d : descriptor).

Definition hasSig (r : result) : bool :=
  match r with NoSig => false | Sig _ => true end.

Definition ltv (r : result) : bool :=
  match r with NoSig => false | Sig d => hasLTV d end.

Section WithZlib.
Context {zlib : Zlib}.

(** One stream of the loop of step 3: [Some true] is [hasLTV = true; break],
    [None] goes on with the next stream. *)
Definition scanStream (m : found) : bool :=
  let objHeader := nth 0 (groups m) [] in
  let streamContent := nth 1 (groups m) [] in
  if test true flate_re objHeader then
    match inflateSync streamContent with
    | Some decompressedText => test true dss_marker_re decompressedText
    | None => false
    end
  else test true dss_marker_re streamContent.

(** The loop [while ((match = streamRegex.exec(pdfText)) !== null &&
    streamCount < 50)] over the successive matches. *)
Fixpoint scanStreams (ms : list found) (streamCount : nat) : bool :=
  match ms with
  | [] => false
  | m :: ms' =>
      if streamCount <? 50 then
        if scanStream m then true else scanStreams ms' (S streamCount)
      else false
  end.

Definition detectLTV (pdfText : str) : bool :=
  let hasLTV := false in
  let hasLTV := if test true dss_ref_re pdfText then true else hasLTV in
  let hasLTV :=
    if negb hasLTV && test true type_dss_re pdfText then true else hasLTV in
  let hasLTV :=
    if negb hasLTV then
      if scanStreams (matchAll false stream_re pdfText) 0 then true else hasLTV
    else hasLTV in
  let hasLTV :=
    if negb hasLTV && test true vri_re pdfText then true else hasLTV in
  hasLTV.

Definition isBlank (s : str) : bool := forallb isSpace s.

Definition orElse (a b : str) : str :=
  match a with [] => b | _ => a end.

Definition substring (s : str) (from to : nat) : str :=
  firstn (to - from) (skipn from s).

Definition checkPdfSignature (pdfBuffer : str) : result :=
  let pdfText := pdfBuffer in
  if negb (test true sig_re pdfText) then NoSig
  else
    let hasLTV := detectLTV pdfText in
    let signer := extract pdfText (literal_re "/Name") in
    let signer :=
      if isBlank signer
      then orElse (extract pdfText (literal_re "/T")) (lit "Signature1")
      else signer in
    let rawDate := extract pdfText date_re in
    let formattedDate :=
      if 14 <=? length rawDate then
        substring rawDate 6 8 ++ lit "/" ++ substring rawDate 4 6 ++ lit "/"
        ++ substring rawDate 0 4 ++ lit " " ++ substring rawDate 8 10 ++ lit ":"
        ++ substring rawDate 10 12 ++ lit ":" ++ substring rawDate 12 14
      else [] in
    Sig (Descriptor hasLTV signer
           (extract pdfText (literal_re "/Reason"))
           (extract pdfText (literal_re "/Location"))
           formattedDate).

End WithZlib.

End Detector.

(** ** Exceptions and network calls *)

(** What a block of code ends with: a value, or a thrown error and its
    message. *)
Inductive outcome (A : Type) : Type :=
| Ret (a : A)
| Throw (msg : str).
Arguments Ret {A} a.
Arguments Throw {A} msg.

Definition obind {A B : Type} (m : outcome A) (k : A -> outcome B) : outcome B :=
  match m with
  | Ret a => k a
  | Throw e => Throw e
  end.

(** [try { m } catch (err) { h(err.message) }] *)
Definition ocatch {A : Type} (m : outcome A) (h : str -> A) : A :=
  match m with
  | Ret a => a
  | Throw e => h e
  end.

Fixpoint omap {A B : Type} (f : A -> outcome B) (l : list A) : outcome (list B) :=
  match l with
  | [] => Ret []
  | x :: t => obind (f x) (fun y => obind (omap f t) (fun ys => Ret (y :: ys)))
  end.

(** The engine that runs the sources: the most arguments one call can take.
    A call [f(...array)] puts the elements of the array on the stack as the
    arguments of [f], and throws a RangeError when the stack does not hold
    them; how many it holds depends on the engine and on the stack that is
    left (some 120000 in Node.js with its default stack). *)
Class Engine : Type := { maxArguments : N }.

(** [Math.max(...numbers)] *)
Definition maxOfSpread {engine : Engine} (numbers : list num) : outcome num :=
  if (N.of_nat (length numbers) <=? maxArguments)%N then Ret (num_max numbers)
  else Throw (lit "Maximum call stack size exceeded").

(** One [axios.post]. *)
Record call : Type := Call {
  call_url : str;
  call_body : str;
  call_contentType : str;
  call_timeout : Z
}.

(** What the network does with it: no response at all (the host cannot be
    reached, the timeout expires), or a response. *)
Inductive reply : Type :=
| NoResponse (msg : str)
| Response (status : Z) (data : str).

(** The network, which may answer a call according to the calls made so
    far. *)
Class Network : Type := { answer : list call -> call -> reply }.

(** Code that calls the network: from the calls made so far to its outcome
    and the calls made by the end. *)
Definition io (A : Type) : Type := list call -> outcome A * list call.

Definition io_ret {A : Type} (a : A) : io A := fun log => (Ret a, log).

Definition io_throw {A : Type} (msg : str) : io A := fun log => (Throw msg, log).

Definition io_bind {A B : Type} (m : io A) (k : A -> io B) : io B :=
  fun log =>
    match m log with
    | (Ret a, log') => k a log'
    | (Throw e, log') => (Throw e, log')
    end.

Definition io_catch {A : Type} (m : io A) (h : str -> io A) : io A :=
  fun log =>
    match m log with
    | (Ret a, log') => (Ret a, log')
    | (Throw e, log') => h e log'
    end.

Definition io_lift {A : Type} (m : outcome A) : io A := fun log => (m, log).

Declare Scope io_scope.
Delimit Scope io_scope with io.
Notation "x <- m ;; k" := (io_bind m (fun x => k))
  (at level 61, m at next level, right associativity) : io_scope.
Declare Scope outcome_scope.
Delimit Scope outcome_scope with outcome.
Notation "x <- m ;; k" := (obind m (fun x => k))
  (at level 61, m at next level, right associativity) : outcome_scope.

(** [axios.post(url, body, { headers, timeout })]: it throws when there is no
    response and, with the default [validateStatus], when the status is not
    2xx. *)
Definition axios_post {net : Network} (c : call) : io (Z * str) :=
  fun log =>
    match answer log c with
    | NoResponse msg => (Throw msg, log ++ [c])
    | Response status data =>
        if ((200 <=? status) && (status <? 300))%Z
        then (Ret (status, data), log ++ [c])
        else (Throw (lit "Request failed with status code " ++ numToString (Num status)),
              log ++ [c])
    end.

(** ** node-forge and the other libraries *)

(** An ASN.1 node of forge: primitive with its bytes, or constructed with its
    children. *)
Inductive asn1 : Type :=
| Prim (tagClass type : N) (value : str)
| Constr (tagClass type : N) (value : list asn1).

Module Asn1.
Definition UNIVERSAL : N := 0.
Definition CONTEXT_SPECIFIC : N := 128.
Definition BOOLEAN : N := 1.
Definition INTEGER : N := 2.
Definition OCTETSTRING : N := 4.
Definition OID : N := 6.
Definition SEQUENCE : N := 16.
Definition SET : N := 17.
Definition IA5STRING : N := 22.

Definition tagClassOf (a : asn1) : N :=
  match a with Prim c _ _ => c | Constr c _ _ => c end.
Definition typeOf (a : asn1) : N :=
  match a with Prim _ t _ => t | Constr _ t _ => t end.

(** [node.value[i]] where the code goes on to use it as a node: an error when
    there is no such child. *)
Definition child (a : asn1) (i : nat) : outcome asn1 :=
  match a with
  | Constr _ _ l =>
      match nth_error l i with
      | Some x => Ret x
      | None => Throw (lit "Cannot read properties of undefined")
      end
  | Prim _ _ _ => Throw (lit "Cannot read properties of undefined")
  end.

(** The node with its i-th child changed by [f]; the sources change that
    child in place. *)
Definition updateChild (a : asn1) (i : nat) (f : asn1 -> outcome asn1)
  : outcome asn1 :=
  match a with
  | Constr c t l =>
      match nth_error l i with
      | Some x => obind (f x) (fun y => Ret (Constr c t (firstn i l ++ y :: skipn (S i) l)))
      | None => Throw (lit "Cannot read properties of undefined")
      end
  | Prim _ _ _ => Throw (lit "Cannot read properties of undefined")
  end.

(** [node.value.push(x)] *)
Definition push (a : asn1) (x : asn1) : outcome asn1 :=
  match a with
  | Constr c t l => Ret (Constr c t (l ++ [x]))
  | Prim _ _ _ => Throw (lit "push is not a function")
  end.

Fixpoint findIndex {A : Type} (p : A -> bool) (l : list A) : option nat :=
  match l with
  | [] => None
  | x :: t => if p x then Some 0 else option_map S (findIndex p t)
  end.
End Asn1.

Record attribute : Type := Attribute {
  attr_name : str;
  attr_shortName : str;
  attr_value : str
}.

Record extension : Type := Extension {
  ext_id : str;
  ext_value : str
}.

Record certificate : Type := Certificate {
  subject : list attribute;
  issuer : list attribute;
  extensions : option (list extension);
  serialNumber : str;
  notBefore : Z;
  notAfter : Z
}.

(** A decrypted PKCS#12 container: its certificate bags (or none of that
    type) and the private key of its key bag. *)
Record pkcs12 : Type := Pkcs12 {
  certBags : option (list certificate);
  privateKey : str
}.

Class Forge : Type := {
  fromDer : str -> outcome asn1;
  toDer : asn1 -> str;
  oidToDer : str -> str;
  derToOid : str -> str;
  integerToDer : Z -> str;
  derToInteger : str -> Z;
  hexToBytes : str -> str;
  pkcs12FromAsn1 : asn1 -> str -> outcome pkcs12;
  (* forge.asn1.toDer(forge.pki.certificateToAsn1(cert)).getBytes() *)
  certificateToDer : certificate -> outcome str
}.

(** [forge.asn1.toDer(obj).getBytes()] for an object that is no ASN.1 node,
    as the sources write it for [cert.issuer] (the name of the certificate:
    [attributes], [getField], [hash]) and for [issuerCert.publicKey] (a key).
    [toDer] reads [obj.tagClass], [obj.type], [obj.composed] and [obj.value];
    such an object has none of them, so [toDer] takes it for a primitive node
    and ends in [value.putBytes(undefined)], which throws. *)
Definition toDerOfObject {A : Type} (obj : A) : outcome str :=
  Throw (lit "Cannot read properties of undefined (reading 'length')").

Class Crypto : Type := {
  sha256 : str -> str;
  sha1 : str -> str
}.

(** [subject.getField(sn)?.value]: the value of the first attribute with that
    short name. *)
Definition getField (attrs : list attribute) (sn : string) : option str :=
  match find (fun a => str_eqb (attr_shortName a) (lit sn)) attrs with
  | Some a => Some (attr_value a)
  | None => None
  end.
Arguments getField attrs sn%_string.

Definition opt_str_eqb (a b : option str) : bool :=
  match a, b with
  | Some x, Some y => str_eqb x y
  | None, None => true
  | _, _ => false
  end.

(** ** ltv-helper.js *)

Module LtvHelper.

Definition AIA_OID : str := lit "1.3.6.1.5.5.7.1.1".
Definition OCSP_OID : str := lit "1.3.6.1.5.5.7.48.1".

(** [/(\d+)\s+0\s+obj/g] *)
Definition obj_re : regex :=
  cat [Cap (plus isDigit); plus isSpace; word "0"; plus isSpace; word "obj"].

(** [/\/Type\s*\/Catalog/] *)
Definition catalog_re : regex :=
  cat [word "/Type"; star isSpace; word "/Catalog"].

(** The objects built so far and the number the next one gets. *)
Record builder : Type := Builder {
  objectNumber : num;
  dssObjects : list (num * str)
}.

(** [const objNum = objectNumber++; dssObjects.push(text(objNum))] *)
Definition emit (b : builder) (text : num -> str) : num * builder :=
  let objNum := objectNumber b in
  (objNum, Builder (num_add (objectNumber b) (Num 1))
                   (dssObjects b ++ [(objNum, text objNum)])).

Definition ref (objNum : num) : str := numToString objNum ++ lit " 0 R".

Definition streamObject (length_ : nat) (base64 : str) (objNum : num) : str :=
  numToString objNum ++ lit " 0 obj" ++ [chr 10] ++ lit "<< /Length "
  ++ numToString (Num (Z.of_nat length_)) ++ lit " >>" ++ [chr 10] ++ lit "stream"
  ++ [chr 10] ++ base64 ++ [chr 10] ++ lit "endstream" ++ [chr 10] ++ lit "endobj"
  ++ [chr 10].

Definition arrayObject (refs : list str) (objNum : num) : str :=
  numToString objNum ++ lit " 0 obj" ++ [chr 10] ++ lit "[ " ++ join (lit " ") refs
  ++ lit " ]" ++ [chr 10] ++ lit "endobj" ++ [chr 10].

Definition dictObject (content : str) (objNum : num) : str :=
  numToString objNum ++ lit " 0 obj" ++ [chr 10] ++ lit "<< " ++ content ++ lit " >>"
  ++ [chr 10] ++ lit "endobj" ++ [chr 10].

(** [const matches = pdfText.match(/(\d+)\s+0\s+obj/g); ...
    return Math.max(...numbers) + 1] *)
Definition getNextObjectNumber {engine : Engine} (pdfText : str) : outcome num :=
  match match_g false obj_re pdfText with
  | None => Ret (Num 1)
  | Some matches =>
      obind (omap (fun m => match search false (plus isDigit) m with
                            | Some d => Ret (parseInt (matched d) None)
                            | None => Throw (lit "Cannot read properties of null")
                            end) matches)
            (fun numbers =>
               obind (maxOfSpread numbers) (fun greatest =>
                 Ret (num_add greatest (Num 1))))
  end.

Section WithForge.
Context {engine : Engine} {forge : Forge} {crypto : Crypto} {net : Network}.

Definition extractCertChain (p12 : pkcs12) : list certificate :=
  match certBags p12 with
  | Some certs => certs
  | None => []
  end.

(** The loop of [getOCSPUrl] over the items of the AIA extension.  An item
    that is a primitive node with bytes, or whose first child is a
    constructed node, makes [derToOid] throw. *)
Fixpoint findOCSPUrl (items : list asn1) : outcome (option str) :=
  match items with
  | [] => Ret None
  | Prim _ _ [] :: more => findOCSPUrl more
  | Prim _ _ (_ :: _) :: _ => Throw (lit "Cannot read properties of undefined")
  | Constr _ _ [] :: more => findOCSPUrl more
  | Constr _ _ (Constr _ _ _ :: _) :: _ => Throw (lit "bytes.getByte is not a function")
  | Constr _ _ (Prim _ _ v :: others) :: more =>
      let oid := derToOid v in
      match others with
      | Prim _ _ url :: _ =>
          if str_eqb oid OCSP_OID && prefixb (lit "http") url then Ret (Some url)
          else findOCSPUrl more
      | _ => findOCSPUrl more
      end
  end.

Definition getOCSPUrl (cert : certificate) : option str :=
  ocatch
    (let extensions := match extensions cert with Some l => l | None => [] end in
     match find (fun ext => str_eqb (ext_id ext) AIA_OID) extensions with
     | None => Ret None
     | Some aiaExt =>
         aiaAsn1 <- fromDer (ext_value aiaExt) ;;
         match aiaAsn1 with
         | Constr _ _ items => findOCSPUrl items
         | Prim _ _ _ => Ret None
         end
     end)%outcome
    (fun _ => None).

(** [createOCSPRequest]: the two hashes are taken of [toDer] of the name of
    the issuer and of the key of the issuer's certificate, neither of which
    is an ASN.1 node. *)
Definition createOCSPRequest (cert issuerCert : certificate) : outcome str :=
  (issuerNameDer <- toDerOfObject (issuer cert) ;;
   let issuerNameHash := sha1 issuerNameDer in
   issuerKeyDer <- toDerOfObject issuerCert ;;
   let issuerKeyHash := sha1 issuerKeyDer in
   let ocspReq :=
     Constr Asn1.UNIVERSAL Asn1.SEQUENCE
       [Constr Asn1.UNIVERSAL Asn1.SEQUENCE
          [Constr Asn1.UNIVERSAL Asn1.SEQUENCE
             [Constr Asn1.UNIVERSAL Asn1.SEQUENCE
                [Constr Asn1.UNIVERSAL Asn1.SEQUENCE
                   [Prim Asn1.UNIVERSAL Asn1.OID (oidToDer (lit "1.3.14.3.2.26"))];
                 Prim Asn1.UNIVERSAL Asn1.OCTETSTRING issuerNameHash;
                 Prim Asn1.UNIVERSAL Asn1.OCTETSTRING issuerKeyHash;
                 Prim Asn1.UNIVERSAL Asn1.INTEGER (hexToBytes (serialNumber cert))]]]] in
   Ret (toDer ocspReq))%outcome.

Definition requestOCSP (cert issuerCert : certificate) : io (option str) :=
  io_catch
    (match getOCSPUrl cert with
     | None => io_ret None
     | Some ocspUrl =>
         ocspRequest <- io_lift (createOCSPRequest cert issuerCert) ;;
         resp <- axios_post (Call ocspUrl ocspRequest
                                  (lit "application/ocsp-request") 10000) ;;
         if negb (fst resp =? 200)%Z
         then io_throw (lit "OCSP server error: " ++ numToString (Num (fst resp)))
         else io_ret (Some (snd resp))
     end)%io
    (fun _ => io_ret None).

(** One stream object per element, in order; the references to them. *)
Fixpoint emitStreams (b : builder) (contents : list str) : list str * builder :=
  match contents with
  | [] => ([], b)
  | base64 :: t =>
      let (objNum, b1) := emit b (streamObject (length base64) base64) in
      let (refs, b2) := emitStreams b1 t in
      (ref objNum :: refs, b2)
  end.

(** [certs.map((cert, idx) => { const objNum = objectNumber++; const der = ...;
    dssObjects.push(...); return ... })] *)
Fixpoint emitCerts (b : builder) (certs : list certificate)
  : outcome (list str * builder) :=
  match certs with
  | [] => Ret ([], b)
  | cert :: t =>
      obind (certificateToDer cert) (fun der =>
        let base64 := toBase64 der in
        let (objNum, b1) := emit b (streamObject (length base64) base64) in
        obind (emitCerts b1 t) (fun rb => Ret (ref objNum :: fst rb, snd rb)))
  end.

Fixpoint dropNull {A : Type} (l : list (option A)) : list A :=
  match l with
  | [] => []
  | Some x :: t => x :: dropNull t
  | None :: t => dropNull t
  end.

(** Steps 1 and 2 of [embedDSS]: the objects and the number of the DSS
    dictionary. *)
Definition buildDSS (pdfText : str) (ocspResponses : list (option str))
    (certs : list certificate) : outcome (num * builder) :=
  obind (getNextObjectNumber pdfText) (fun objectNumber =>
    let b := Builder objectNumber [] in
    let '(ocspObjNum, b) :=
      match dropNull ocspResponses with
      | [] => (None, b)
      | resps =>
          let (ocspArray, b1) := emitStreams b (map toBase64 resps) in
          let (n, b2) := emit b1 (arrayObject ocspArray) in
          (Some n, b2)
      end in
    obind (match certs with
           | [] => Ret (None, b)
           | _ =>
               obind (emitCerts b certs) (fun rb =>
                 let (n, b2) := emit (snd rb) (arrayObject (fst rb)) in
                 Ret (Some n, b2))
           end) (fun cb =>
      let '(certObjNum, b) := cb in
      let dssDictContent := lit "/Type /DSS" in
      let dssDictContent :=
        match ocspObjNum with
        | Some n => if truthy n then dssDictContent ++ lit " /OCSPs " ++ ref n
                    else dssDictContent
        | None => dssDictContent
        end in
      let dssDictContent :=
        match certObjNum with
        | Some n => if truthy n then dssDictContent ++ lit " /Certs " ++ ref n
                    else dssDictContent
        | None => dssDictContent
        end in
      let (dssNum, b) := emit b (dictObject dssDictContent) in
      Ret (dssNum, b))).

Definition embedDSS (pdfBuffer : str) (ocspResponses : list (option str))
    (certs : list certificate) : str :=
  ocatch
    (obind (buildDSS pdfBuffer ocspResponses certs) (fun nb =>
       let '(dssNum, b) := nb in
       let pdfText := pdfBuffer in
       let catalogUpdated :=
         replace_first false catalog_re
           (lit "/Type /Catalog /DSS " ++ ref dssNum) pdfText in
       if str_eqb catalogUpdated pdfText then Ret pdfBuffer
       else
         let pdfText := catalogUpdated in
         match lastIndexOf (lit "xref") pdfText with
         | None => Throw (lit "Invalid PDF: xref not found")
         | Some xrefIndex =>
             let beforeXref := firstn xrefIndex pdfText in
             let afterXref := skipn xrefIndex pdfText in
             Ret (beforeXref ++ join [chr 10] (map snd (dssObjects b)) ++ [chr 10]
                  ++ afterXref)
         end))
    (fun _ => pdfBuffer).

(** The numbers given to the objects of one pass over [pdfBuffer], in the
    order in which they are emitted. *)
Definition assignedNumbers (pdfBuffer : str) (ocspResponses : list (option str))
    (certs : list certificate) : outcome (list num) :=
  obind (buildDSS pdfBuffer ocspResponses certs)
        (fun nb => Ret (map fst (dssObjects (snd nb)))).

End WithForge.

End LtvHelper.

(** ** tsa-helper.js *)

Module TsaHelper.

Definition FREETSA : str := lit "http://freetsa.org/tsr".
Definition DIGICERT : str := lit "http://timestamp.digicert.com".

Definition isHex (c : ascii) : bool := isRadixDigit 16 c.

(** [/\/ByteRange\s*\[\s*(\d+)\s+(\d+)\s+(\d+)\s+(\d+)\s*\]/] *)
Definition byteRange_re : regex :=
  cat [word "/ByteRange"; star isSpace; word "["; star isSpace;
       Cap (plus isDigit); plus isSpace; Cap (plus isDigit); plus isSpace;
       Cap (plus isDigit); plus isSpace; Cap (plus isDigit); star isSpace; word "]"].

(** [/\/Contents\s*<([0-9a-fA-F]+)>/] *)
Definition contents_re : regex :=
  cat [word "/Contents"; star isSpace; word "<"; Cap (plus isHex); word ">"].

Record extracted : Type := Extracted {
  signature : str;
  byteRange : list num;
  signatureHex : str
}.

Definition extractSignatureFromPDF (pdfBuffer : str) : option extracted :=
  let pdfText := pdfBuffer in
  match search false byteRange_re pdfText with
  | None => None
  | Some byteRangeMatch =>
      let byteRange := map (fun g => parseInt g None) (groups byteRangeMatch) in
      match search false contents_re pdfText with
      | None => None
      | Some contentsMatch =>
          let signatureHex := nth 0 (groups contentsMatch) [] in
          Some (Extracted (fromHex signatureHex) byteRange signatureHex)
      end
  end.

Definition replaceSignatureInPDF (pdfBuffer oldSignatureHex newSignature : str) : str :=
  let pdfText := pdfBuffer in
  let newSignatureHex := toHex newSignature in
  if length oldSignatureHex <? length newSignatureHex then pdfBuffer
  else
    let paddedHex := padEnd newSignatureHex (length oldSignatureHex) "0"%char in
    replace_str (lit "/Contents <" ++ oldSignatureHex ++ lit ">")
                (lit "/Contents <" ++ paddedHex ++ lit ">") pdfText.

Section WithLibraries.
Context {forge : Forge} {crypto : Crypto} {net : Network}.

Definition timestampReq (hash : str) : asn1 :=
  Constr Asn1.UNIVERSAL Asn1.SEQUENCE
    [Prim Asn1.UNIVERSAL Asn1.INTEGER (integerToDer 1);
     Constr Asn1.UNIVERSAL Asn1.SEQUENCE
       [Constr Asn1.UNIVERSAL Asn1.SEQUENCE
          [Prim Asn1.UNIVERSAL Asn1.OID (oidToDer (lit "2.16.840.1.101.3.4.2.1"))];
        Prim Asn1.UNIVERSAL Asn1.OCTETSTRING hash];
     Prim Asn1.UNIVERSAL Asn1.BOOLEAN [chr 255]].

(** Step 4 of [requestTimestamp], the inner [try]: the token of the
    response; whatever it throws makes the caller keep the raw response.  A
    response that is a primitive node runs into one of the errors of the
    block, as does a status whose first child is not a primitive node. *)
Definition parseResponse (responseBuffer : str) : outcome str :=
  obind (fromDer responseBuffer) (fun responseAsn1 =>
    match responseAsn1 with
    | Prim _ _ _ => Throw (lit "Invalid TSA response structure")
    | Constr _ _ [] => Throw (lit "Invalid TSA response structure")
    | Constr _ _ (status :: more) =>
        obind (match status with
               | Constr _ _ (Prim _ _ v :: _) =>
                   if (derToInteger v =? 0)%Z then Ret tt
                   else Throw (lit "TSA returned error status: "
                               ++ numToString (Num (derToInteger v)))
               | Constr _ _ (Constr _ _ _ :: _) =>
                   Throw (lit "bytes.length is not a function")
               | Constr _ _ [] => Ret tt
               | Prim _ _ [] => Ret tt
               | Prim _ _ (_ :: _) => Throw (lit "Cannot read properties of undefined")
               end) (fun _ =>
          match more with
          | tokenAsn1 :: _ => Ret (toDer tokenAsn1)
          | [] => Throw (lit "No timestamp token in TSA response")
          end)
    end).

(** [requestTimestamp]; it calls itself once more, with the other server, when
    the server was the default one, so two rounds is all it ever takes. *)
Fixpoint requestTimestamp_rounds (rounds : nat) (dataToTimestamp tsaUrl : str)
  : io str :=
  match rounds with
  | O => io_throw (lit "Maximum call stack size exceeded")
  | S n =>
      io_catch
        (let hash := sha256 dataToTimestamp in
         let requestBuffer := toDer (timestampReq hash) in
         resp <- axios_post (Call tsaUrl requestBuffer
                                  (lit "application/timestamp-query") 15000) ;;
         if negb (fst resp =? 200)%Z
         then io_throw (lit "TSA server error: " ++ numToString (Num (fst resp)))
         else
           let responseBuffer := snd resp in
           io_ret (ocatch (parseResponse responseBuffer) (fun _ => responseBuffer)))%io
        (fun error =>
           if str_eqb tsaUrl FREETSA then
             io_catch (requestTimestamp_rounds n dataToTimestamp DIGICERT)
                      (fun _ => io_throw (lit "All TSA servers unavailable: " ++ error))
           else io_throw error)
  end.

Definition requestTimestamp : str -> str -> io str := requestTimestamp_rounds 2.

Definition isUnsignedAttrs (v : asn1) : bool :=
  (Asn1.tagClassOf v =? Asn1.CONTEXT_SPECIFIC)%N && (Asn1.typeOf v =? 1)%N.

Definition timestampAttr (tsAsn1 : asn1) : asn1 :=
  Constr Asn1.UNIVERSAL Asn1.SEQUENCE
    [Prim Asn1.UNIVERSAL Asn1.OID (oidToDer (lit "1.2.840.113549.1.9.16.2.14"));
     Constr Asn1.UNIVERSAL Asn1.SET [tsAsn1]].

(** The SignerInfo with the attribute pushed into its UnsignedAttrs, which
    are created at the end of the SignerInfo when it has none. *)
Definition addUnsignedAttr (isAttrs : asn1 -> bool) (attr : asn1) (signerInfo : asn1)
  : outcome asn1 :=
  match signerInfo with
  | Prim _ _ _ => Throw (lit "find is not a function")
  | Constr c t l =>
      match Asn1.findIndex isAttrs l with
      | Some i => Asn1.updateChild signerInfo i (fun u => Asn1.push u attr)
      | None => Ret (Constr c t (l ++ [Constr Asn1.CONTEXT_SPECIFIC 1 [attr]]))
      end
  end.

(** ContentInfo > SignedData > SignerInfos > [0], that is
    [cmsAsn1.value[1].value[0].value[4].value[0]], changed by [f]. *)
Definition onSignerInfo (cmsAsn1 : asn1) (f : asn1 -> outcome asn1) : outcome asn1 :=
  Asn1.updateChild cmsAsn1 1 (fun contentInfo =>
    Asn1.updateChild contentInfo 0 (fun signedData =>
      Asn1.updateChild signedData 4 (fun signerInfos =>
        Asn1.updateChild signerInfos 0 f))).

Definition embedTimestampInSignature (cmsSignature timestampToken : str) : str :=
  ocatch
    (match timestampToken with
     | [] => Ret cmsSignature
     | _ =>
         cmsAsn1 <- fromDer cmsSignature ;;
         tsAsn1 <- fromDer timestampToken ;;
         cmsAsn1' <- onSignerInfo cmsAsn1
                       (addUnsignedAttr isUnsignedAttrs (timestampAttr tsAsn1)) ;;
         Ret (toDer cmsAsn1')
     end)%outcome
    (fun _ => cmsSignature).

Definition addTimestampToPDF (signedPdf tsaUrl : str) : io str :=
  io_catch
    (match extractSignatureFromPDF signedPdf with
     | None => io_throw (lit "Failed to extract signature from PDF")
     | Some extracted =>
         timestampToken <- requestTimestamp (signature extracted) tsaUrl ;;
         let newSignature :=
           embedTimestampInSignature (signature extracted) timestampToken in
         io_ret (replaceSignatureInPDF signedPdf (signatureHex extracted) newSignature)
     end)%io
    (fun _ => io_ret signedPdf).

End WithLibraries.

End TsaHelper.

(** ** The endpoints *)

(** A value of a JSON response or of the result object of
    [parseP12Certificate]. *)
Inductive value : Type :=
| VBool (b : bool)
| VStr (s : str)
| VDate (t : Z)
| VCert (c : certificate)
| VP12 (p : pkcs12).

(** An object, as its own properties in the order of their creation. *)
Definition object : Type := list (string * value).

Fixpoint prop (key : string) (o : object) : option value :=
  match o with
  | [] => None
  | (k, v) :: t => if String.eqb k key then Some v else prop key t
  end.

(** [const { k1, k2, ...rest } = o]: the properties that [rest] gets. *)
Definition restWithout (ks : list string) (o : object) : object :=
  filter (fun kv => negb (existsb (String.eqb (fst kv)) ks)) o.

Definition keys (o : object) : list string := map fst o.

Definition isTrue (v : option value) : bool :=
  match v with
  | Some (VBool b) => b
  | Some (VStr s) => negb (str_eqb s [])
  | Some _ => true
  | None => false
  end.

(** String concatenation with a property, as [+] does it. *)
Definition toText (v : option value) : str :=
  match v with
  | Some (VStr s) => s
  | Some (VBool true) => lit "true"
  | Some (VBool false) => lit "false"
  | Some _ => lit "[object Object]"
  | None => lit "undefined"
  end.

(** What an endpoint sends: a JSON body with a status, or the signed file. *)
Inductive response : Type :=
| Json (status : nat) (body : object)
| Download (file : str).

(** pdf-lib and node-signpdf. *)
Class PdfLib : Type := {
  (* PDFDocument.load, the visual overlay when there is one, and save *)
  loadAndSave : str -> option str -> outcome str;
  plainAddPlaceholder : str -> str -> str -> Z -> outcome str;
  sign : str -> str -> str -> outcome str
}.

(** *** backend/server.js *)

Module Server.
Section WithLibraries.
Context {forge : Forge} {pdflib : PdfLib}.

(** [p12Buffer.toString('base64')] followed by [forge.util.decode64] gives
    back the bytes of the buffer. *)
Definition parseP12Certificate (p12Buffer password : str) : object :=
  ocatch
    (let p12Der := p12Buffer in
     p12Asn1 <- fromDer p12Der ;;
     p12 <- pkcs12FromAsn1 p12Asn1 password ;;
     match certBags p12 with
     | None | Some [] => Throw (lit "No certificate found in P12 file")
     | Some (cert :: _) =>
         let getField := fun name : string =>
           match getField (subject cert) name with
           | Some v => v
           | None => []
           end in
         Ret [("success", VBool true);
              ("commonName", VStr (Detector.orElse (getField "CN") (lit "Unknown Signer")));
              ("email", VStr (getField "emailAddress"));
              ("organization", VStr (getField "O"));
              ("validFrom", VDate (notBefore cert));
              ("validTo", VDate (notAfter cert));
              ("cert", VCert cert);
              ("p12", VP12 p12)]%string
     end)%outcome
    (fun msg => [("success", VBool false); ("error", VStr msg)]%string).

(** [app.post('/api/parse-certificate')], the uploaded file (when there is
    one) having been read. *)
Definition parseCertificateRoute (file : option str) (password : str) : response :=
  match file with
  | None => Json 400 [("error", VStr (lit "No certificate file uploaded"))]%string
  | Some buf =>
      let result := parseP12Certificate buf password in
      if isTrue (prop "success" result) then
        let safeResult := restWithout ["cert"; "p12"]%string result in
        Json 200 safeResult
      else Json 400 [("error", match prop "error" result with
                               | Some v => v
                               | None => VStr []
                               end)]%string
  end.

(** The [try] block of [app.post('/api/sign-pdf')]. *)
Definition signPdfBody (pdf p12Buffer password reason location : str)
  : outcome str :=
  (let flattenedPdfBuffer := ocatch (obind (loadAndSave pdf None) Ret) (fun _ => pdf) in
   let certInfo := parseP12Certificate p12Buffer password in
   if negb (isTrue (prop "success" certInfo))
   then Throw (lit "Invalid certificate or password: " ++ toText (prop "error" certInfo))
   else
     pdfWithPlaceholder <- plainAddPlaceholder flattenedPdfBuffer reason location 16384 ;;
     signedPdf <- sign pdfWithPlaceholder p12Buffer password ;;
     Ret signedPdf)%outcome.

Definition signPdfRoute (pdfFile p12File : option str)
    (password reason location : str) : response :=
  match pdfFile, p12File with
  | Some pdf, Some p12Buffer =>
      match signPdfBody pdf p12Buffer password
              (Detector.orElse reason (lit "Document approval"))
              (Detector.orElse location (lit "Digital Signature")) with
      | Ret signedPdf => Download signedPdf
      | Throw msg => Json 500 [("error", VStr msg)]%string
      end
  | _, _ => Json 400 [("error", VStr (lit "PDF and certificate files are required"))]%string
  end.

End WithLibraries.
End Server.

(** *** netlify/functions/parse-certificate.js *)

Module NetlifyParse.
Section WithLibraries.
Context {forge : Forge}.

Definition parseP12Certificate (p12Buffer password : str) : object :=
  ocatch
    (let p12Der := p12Buffer in
     p12Asn1 <- fromDer p12Der ;;
     p12 <- pkcs12FromAsn1 p12Asn1 password ;;
     match certBags p12 with
     | None | Some [] => Throw (lit "No certificate found in P12 file")
     | Some (cert :: _) =>
         let getField := fun name : string =>
           match getField (subject cert) name with
           | Some v => v
           | None => []
           end in
         Ret [("success", VBool true);
              ("commonName", VStr (Detector.orElse (getField "CN") (lit "Unknown Signer")));
              ("email", VStr (getField "emailAddress"));
              ("organization", VStr (getField "O"));
              ("validFrom", VDate (notBefore cert));
              ("validTo", VDate (notAfter cert))]%string
     end)%outcome
    (fun msg => [("success", VBool false); ("error", VStr msg)]%string).

(** The handler once the multipart body is parsed: the certificate part,
    when there is one, and the password. *)
Definition handler (certPart : option str) (password : str) : response :=
  match certPart with
  | None => Json 400 [("error", VStr (lit "No certificate file uploaded"))]%string
  | Some data =>
      let result := parseP12Certificate data password in
      if isTrue (prop "success" result) then Json 200 result
      else Json 400 [("error", match prop "error" result with
                               | Some v => v
                               | None => VStr []
                               end)]%string
  end.

End WithLibraries.
End NetlifyParse.

(** *** The server with the automatic timestamp and LTV steps *)

Module ServerLtv.
Section WithLibraries.
Context {engine : Engine} {forge : Forge} {crypto : Crypto} {net : Network}
        {pdflib : PdfLib}.

Definition isSelfSigned (cert : certificate) : bool :=
  opt_str_eqb (getField (subject cert) "CN") (getField (issuer cert) "CN").

(** Step 5, the timestamp. *)
Definition tsaStage (signedPdf : str) : io str :=
  io_catch
    (newSignedPdf <- TsaHelper.addTimestampToPDF signedPdf TsaHelper.FREETSA ;;
     match newSignedPdf with
     | [] => io_ret signedPdf
     | _ => io_ret newSignedPdf
     end)%io
    (fun _ => io_ret signedPdf).

(** Step 6, LTV: the branches on the certificate chain, with the function
    that the route calls for the OCSP response as a parameter. *)
Definition ltvStageWith (requestOCSP : certificate -> certificate -> io (option str))
    (signedPdf : str) (p12 : pkcs12) : io str :=
  io_catch
    (let certChain := LtvHelper.extractCertChain p12 in
     match certChain with
     | cert :: more =>
         if isSelfSigned cert then
           io_ret (LtvHelper.embedDSS signedPdf [] certChain)
         else
           match more with
           | issuerCert :: _ =>
               ocspResponse <- requestOCSP cert issuerCert ;;
               let ocspResponses := match ocspResponse with
                                    | Some r => [Some r]
                                    | None => []
                                    end in
               io_ret (LtvHelper.embedDSS signedPdf ocspResponses certChain)
           | [] => io_ret (LtvHelper.embedDSS signedPdf [] certChain)
           end
     | [] => io_ret signedPdf
     end)%io
    (fun _ => io_ret signedPdf).

(** The route calls [requestOCSP] of ltv-helper.js. *)
Definition ltvStage : str -> pkcs12 -> io str := ltvStageWith LtvHelper.requestOCSP.

(** The [try] block of [app.post('/api/sign-pdf')]. *)
Definition signPdfBody (pdf p12Buffer password reason location : str)
    (signatureOverlay : option str) : io str :=
  (let flattenedPdfBuffer :=
     ocatch (obind (loadAndSave pdf signatureOverlay) Ret) (fun _ => pdf) in
   let certInfo := Server.parseP12Certificate p12Buffer password in
   if negb (isTrue (prop "success" certInfo))
   then io_throw (lit "Invalid certificate or password: "
                  ++ toText (prop "error" certInfo))
   else
     pdfWithPlaceholder <-
       io_lift (plainAddPlaceholder flattenedPdfBuffer reason location 32768) ;;
     signedPdf <- io_lift (sign pdfWithPlaceholder p12Buffer password) ;;
     signedPdf <- tsaStage signedPdf ;;
     match prop "p12" certInfo with
     | Some (VP12 p12) => ltvStage signedPdf p12
     | _ => io_ret signedPdf
     end)%io.

Definition signPdfRoute (pdfFile p12File : option str)
    (password reason location : str) (signatureOverlay : option str)
  : list call -> response * list call :=
  fun log =>
    match pdfFile, p12File with
    | Some pdf, Some p12Buffer =>
        match signPdfBody pdf p12Buffer password
                (Detector.orElse reason (lit "Document approval"))
                (Detector.orElse location (lit "Digital Signature"))
                signatureOverlay log with
        | (Ret signedPdf, log') => (Download signedPdf, log')
        | (Throw msg, log') => (Json 500 [("error", VStr msg)]%string, log')
        end
    | _, _ =>
        (Json 400 [("error", VStr (lit "PDF and certificate files are required"))]%string,
         log)
    end.

End WithLibraries.
End ServerLtv.

(** *** netlify/functions/sign-pdf.js, with its inline helpers *)

Module NetlifySign.
Section WithLibraries.
Context {engine : Engine} {forge : Forge} {crypto : Crypto} {net : Network}
        {pdflib : PdfLib}.

Fixpoint requestTimestamp_rounds (rounds : nat) (dataToTimestamp tsaUrl : str)
  : io str :=
  match rounds with
  | O => io_throw (lit "Maximum call stack size exceeded")
  | S n =>
      io_catch
        (let hash := sha256 dataToTimestamp in
         let requestBuffer := toDer (TsaHelper.timestampReq hash) in
         resp <- axios_post (Call tsaUrl requestBuffer
                                  (lit "application/timestamp-query") 12000) ;;
         if negb (fst resp =? 200)%Z
         then io_throw (lit "TSA error: " ++ numToString (Num (fst resp)))
         else io_ret (snd resp))%io
        (fun error =>
           if str_eqb tsaUrl TsaHelper.FREETSA
           then requestTimestamp_rounds n dataToTimestamp TsaHelper.DIGICERT
           else io_throw error)
  end.

Definition requestTimestamp : str -> str -> io str := requestTimestamp_rounds 2.

Definition extractSignatureFromPDF (pdfBuffer : str) : option (str * str) :=
  let pdfText := pdfBuffer in
  match search false TsaHelper.byteRange_re pdfText,
        search false TsaHelper.contents_re pdfText with
  | Some _, Some contentsMatch =>
      let hex := nth 0 (groups contentsMatch) [] in
      Some (fromHex hex, hex)
  | _, _ => None
  end.

Definition replaceSignatureInPDF (pdfBuffer oldSignatureHex newSignature : str) : str :=
  let pdfText := pdfBuffer in
  let newHex := padEnd (toHex newSignature) (length oldSignatureHex) "0"%char in
  replace_str (lit "/Contents <" ++ oldSignatureHex ++ lit ">")
              (lit "/Contents <" ++ newHex ++ lit ">") pdfText.

(** [v => v.tagClass === 0 && v.type === 1] *)
Definition isUnsignedAttrs (v : asn1) : bool :=
  (Asn1.tagClassOf v =? 0)%N && (Asn1.typeOf v =? 1)%N.

Definition addTimestampToPDF (signedPdf tsaUrl : str) : io str :=
  match extractSignatureFromPDF signedPdf with
  | None => io_throw (lit "No signature found")
  | Some (signature, signatureHex) =>
      (token <- requestTimestamp signature tsaUrl ;;
       io_lift
         (cmsAsn1 <- fromDer signature ;;
          tsAsn1 <- fromDer token ;;
          cmsAsn1' <- TsaHelper.onSignerInfo cmsAsn1
                        (TsaHelper.addUnsignedAttr isUnsignedAttrs
                           (TsaHelper.timestampAttr tsAsn1)) ;;
          let newSignature := toDer cmsAsn1' in
          Ret (replaceSignatureInPDF signedPdf signatureHex newSignature))%outcome)%io
  end.

Definition extractCertChain (p12Buffer password : str) : outcome (list certificate) :=
  (p12Asn1 <- fromDer p12Buffer ;;
   p12 <- pkcs12FromAsn1 p12Asn1 password ;;
   Ret (match certBags p12 with Some certs => certs | None => [] end))%outcome.

(** What [getOCSPUrl] returns when it finds the access method: the [value]
    of the node after the OID, a string for a primitive node and an array
    of nodes for a constructed one. *)
Inductive urlValue : Type :=
| UrlText (s : str)
| UrlNodes (l : list asn1).

Fixpoint findOCSPUrl (items : list asn1) : outcome (option urlValue) :=
  match items with
  | [] => Ret None
  | Constr _ t (first :: others) :: more =>
      if (t =? Asn1.SEQUENCE)%N && (Asn1.typeOf first =? Asn1.OID)%N then
        match first with
        | Constr _ _ _ => Throw (lit "bytes.getByte is not a function")
        | Prim _ _ v =>
            let oid := derToOid v in
            match others with
            | second :: _ =>
                if str_eqb oid LtvHelper.OCSP_OID
                   && (Asn1.typeOf second =? Asn1.IA5STRING)%N
                then Ret (Some (match second with
                                | Prim _ _ s => UrlText s
                                | Constr _ _ l => UrlNodes l
                                end))
                else findOCSPUrl more
            | [] => findOCSPUrl more
            end
        end
      else findOCSPUrl more
  | _ :: more => findOCSPUrl more
  end.

Definition getOCSPUrl (cert : certificate) : option urlValue :=
  match extensions cert with
  | None => None
  | Some exts =>
      match find (fun ext => str_eqb (ext_id ext) LtvHelper.AIA_OID) exts with
      | None => None
      | Some aia =>
          ocatch (aiaAsn1 <- fromDer (ext_value aia) ;;
                  match aiaAsn1 with
                  | Constr _ _ items => findOCSPUrl items
                  | Prim _ _ _ => Ret None
                  end)%outcome
                 (fun _ => None)
      end
  end.

(** [requestOCSP] of the Netlify function.  An empty text is no URL
    ([if (!ocspUrl) return null]); an array is one for that test.  The hashes
    come next, by [toDer] of the name of the issuer and of the key, before
    the request is built and posted; nothing here catches what is thrown. *)
Definition requestOCSP (cert issuerCert : certificate) : io (option str) :=
  match getOCSPUrl cert with
  | None | Some (UrlText []) => io_ret None
  | Some ocspUrl =>
      (issuerNameDer <- io_lift (toDerOfObject (issuer cert)) ;;
       let issuerNameHash := sha1 issuerNameDer in
       issuerKeyDer <- io_lift (toDerOfObject issuerCert) ;;
       let issuerKeyHash := sha1 issuerKeyDer in
       let ocspReq :=
         Constr Asn1.UNIVERSAL Asn1.SEQUENCE
           [Constr Asn1.UNIVERSAL Asn1.SEQUENCE
              [Constr Asn1.UNIVERSAL Asn1.SEQUENCE
                 [Prim Asn1.UNIVERSAL Asn1.OID (oidToDer (lit "1.3.14.3.2.26"));
                  Prim Asn1.UNIVERSAL Asn1.OCTETSTRING issuerNameHash;
                  Prim Asn1.UNIVERSAL Asn1.OCTETSTRING issuerKeyHash;
                  Prim Asn1.UNIVERSAL Asn1.INTEGER (hexToBytes (serialNumber cert))]]] in
       let reqBuffer := toDer ocspReq in
       match ocspUrl with
       | UrlNodes _ => io_throw (lit "Invalid URL")
       | UrlText url =>
           res <- axios_post (Call url reqBuffer
                                   (lit "application/ocsp-request") 10000) ;;
           io_ret (if (fst res =? 200)%Z then Some (snd res) else None)
       end)%io
  end.

(** [matches ? Math.max(...matches.map(m => parseInt(m))) + 1 : 1] *)
Definition nextObj (pdfText : str) : outcome num :=
  match match_g false LtvHelper.obj_re pdfText with
  | Some matches =>
      obind (maxOfSpread (map (fun m => parseInt m None) matches)) (fun greatest =>
        Ret (num_add greatest (Num 1)))
  | None => Ret (Num 1)
  end.

Fixpoint emitResponses (b : LtvHelper.builder) (resps : list str)
  : list str * LtvHelper.builder :=
  match resps with
  | [] => ([], b)
  | resp :: t =>
      let (obj, b1) :=
        LtvHelper.emit b (LtvHelper.streamObject (length resp) (toBase64 resp)) in
      let (refs, b2) := emitResponses b1 t in
      (LtvHelper.ref obj :: refs, b2)
  end.

Fixpoint emitCerts (b : LtvHelper.builder) (certs : list certificate)
  : outcome (list str * LtvHelper.builder) :=
  match certs with
  | [] => Ret ([], b)
  | cert :: t =>
      obind (certificateToDer cert) (fun buf =>
        let (obj, b1) :=
          LtvHelper.emit b (LtvHelper.streamObject (length buf) (toBase64 buf)) in
        obind (emitCerts b1 t) (fun rb => Ret (LtvHelper.ref obj :: fst rb, snd rb)))
  end.

Definition buildDSS (pdfText : str) (ocspResponses : list (option str))
    (certs : list certificate) : outcome LtvHelper.builder :=
  obind (nextObj pdfText) (fun nextObj =>
  let b := LtvHelper.Builder nextObj [] in
  let '(ocspArrayRef, b) :=
    match ocspResponses with
    | [] => ([], b)
    | _ =>
        let (refs, b1) := emitResponses b (LtvHelper.dropNull ocspResponses) in
        match refs with
        | [] => ([], b1)
        | _ =>
            let (arrObj, b2) := LtvHelper.emit b1 (LtvHelper.arrayObject refs) in
            (lit " /OCSPs " ++ LtvHelper.ref arrObj, b2)
        end
    end in
  obind (match certs with
         | [] => Ret ([], b)
         | _ =>
             obind (emitCerts b certs) (fun rb =>
               let (arrObj, b2) := LtvHelper.emit (snd rb) (LtvHelper.arrayObject (fst rb)) in
               Ret (lit " /Certs " ++ LtvHelper.ref arrObj, b2))
         end) (fun cb =>
    let '(certArrayRef, b) := cb in
    let (dssObj, b) :=
      LtvHelper.emit b (LtvHelper.dictObject (lit "/Type /DSS" ++ ocspArrayRef ++ certArrayRef)) in
    Ret b)).

Definition embedDSS (pdfBuffer : str) (ocspResponses : list (option str))
    (certs : list certificate) : outcome str :=
  obind (buildDSS pdfBuffer ocspResponses certs) (fun b =>
    let pdfText := pdfBuffer in
    match lastIndexOf (lit "xref") pdfText with
    | None => Ret pdfBuffer
    | Some xrefIndex =>
        let before := firstn xrefIndex pdfText in
        let after := skipn xrefIndex pdfText in
        Ret (before ++ join [chr 10] (map snd (LtvHelper.dssObjects b)) ++ [chr 10] ++ after)
    end).

Definition assignedNumbers (pdfBuffer : str) (ocspResponses : list (option str))
    (certs : list certificate) : outcome (list num) :=
  obind (buildDSS pdfBuffer ocspResponses certs)
        (fun b => Ret (map fst (LtvHelper.dssObjects b))).

Definition hasCommonName (attrs : list attribute) : bool :=
  existsb (fun a => str_eqb (attr_name a) (lit "commonName")) attrs.

Definition isSelfSigned (cert : certificate) : bool :=
  hasCommonName (subject cert) && hasCommonName (issuer cert)
  && opt_str_eqb (getField (subject cert) "CN") (getField (issuer cert) "CN").

Definition tsaStage (signedPdf : str) : io str :=
  io_catch (addTimestampToPDF signedPdf TsaHelper.FREETSA) (fun _ => io_ret signedPdf).

Definition ltvStageWith (requestOCSP : certificate -> certificate -> io (option str))
    (signedPdf p12Buffer password : str) : io str :=
  io_catch
    (certs <- io_lift (extractCertChain p12Buffer password) ;;
     match certs with
     | cert :: more =>
         if isSelfSigned cert then io_lift (embedDSS signedPdf [] certs)
         else
           match more with
           | issuerCert :: _ =>
               ocspResp <- requestOCSP cert issuerCert ;;
               io_lift (embedDSS signedPdf
                          (match ocspResp with Some r => [Some r] | None => [] end)
                          certs)
           | [] => io_lift (embedDSS signedPdf [] certs)
           end
     | [] => io_ret signedPdf
     end)%io
    (fun _ => io_ret signedPdf).

(** The handler calls the [requestOCSP] of the function itself. *)
Definition ltvStage : str -> str -> str -> io str := ltvStageWith requestOCSP.

End WithLibraries.
End NetlifySign.

(** ** The words of the specification *)

Module Spec.

(** The language of a pattern: the texts it matches as a whole. *)
Inductive Matches (ci : bool) : regex -> str -> Prop :=
| MEps : Matches ci Eps []
| MChr c x : char_eq ci c x = true -> Matches ci (Chr c) [x]
| MCls (p : ascii -> bool) x : p x = true -> Matches ci (Cls p) [x]
| MRep g lo hi (p : ascii -> bool) m :
    forallb p m = true -> lo <= length m ->
    (forall h, hi = Some h -> length m <= h) ->
    Matches ci (Rep g lo hi p) m
| MCat r1 r2 m1 m2 :
    Matches ci r1 m1 -> Matches ci r2 m2 -> Matches ci (Cat r1 r2) (m1 ++ m2)
| MAltL r1 r2 m : Matches ci r1 m -> Matches ci (Alt r1 r2) m
| MAltR r1 r2 m : Matches ci r2 m -> Matches ci (Alt r1 r2) m
| MMany0 r : Matches ci (Many r) []
| MManyS r m1 m2 :
    Matches ci r m1 -> m1 <> [] -> Matches ci (Many r) m2 ->
    Matches ci (Many r) (m1 ++ m2)
| MCap r m : Matches ci r m -> Matches ci (Cap r) m.

(** [s] holds a text of the language somewhere. *)
Definition Occurs (ci : bool) (r : regex) (s : str) : Prop :=
  exists pre m post, s = pre ++ m ++ post /\ Matches ci r m.

(** The groups that a match of the pattern closes, in the order in which it
    closes them: a group is closed after the groups inside it. *)
Inductive Captures (ci : bool) : regex -> str -> list str -> Prop :=
| CEps : Captures ci Eps [] []
| CChr c x : char_eq ci c x = true -> Captures ci (Chr c) [x] []
| CCls (p : ascii -> bool) x : p x = true -> Captures ci (Cls p) [x] []
| CRep g lo hi (p : ascii -> bool) m :
    forallb p m = true -> lo <= length m ->
    (forall h, hi = Some h -> length m <= h) ->
    Captures ci (Rep g lo hi p) m []
| CCat r1 r2 m1 m2 g1 g2 :
    Captures ci r1 m1 g1 -> Captures ci r2 m2 g2 ->
    Captures ci (Cat r1 r2) (m1 ++ m2) (g1 ++ g2)
| CAltL r1 r2 m g : Captures ci r1 m g -> Captures ci (Alt r1 r2) m g
| CAltR r1 r2 m g : Captures ci r2 m g -> Captures ci (Alt r1 r2) m g
| CMany0 r : Captures ci (Many r) [] []
| CManyS r m1 m2 g1 g2 :
    Captures ci r m1 g1 -> m1 <> [] -> Captures ci (Many r) m2 g2 ->
    Captures ci (Many r) (m1 ++ m2) (g1 ++ g2)
| CCap r m g : Captures ci r m g -> Captures ci (Cap r) m (g ++ [m]).

(** The pattern of a string entry after its opening parenthesis: the body of
    the literal, which is the group, and the closing parenthesis. *)
Definition literal_tail : regex :=
  Cat (Cap (Cat (star Detector.notRParen)
                (Many (cat [Chr Detector.backslash; word ")";
                            star Detector.notRParen]))))
      (word ")").

(** The same text up to the case of the ASCII letters. *)
Definition sameLetters (a b : str) : Prop :=
  Forall2 (fun x y => canonicalize x = canonicalize y) a b.

Definition allSpace (w : str) : Prop := Forall (fun c => isSpace c = true) w.
Definition allDigits (w : str) : Prop := Forall (fun c => isDigit c = true) w.

(** The text holds the two names, in any case, with any white space, or
    none, between them. *)
Definition HasEntry (key val : string) (s : str) : Prop :=
  exists pre k w v post,
    s = pre ++ k ++ w ++ v ++ post
    /\ sameLetters (lit key) k /\ allSpace w /\ sameLetters (lit val) v.
Arguments HasEntry (key val)%_string s.

(** The text holds the marker itself, in any case: what the specification
    says of [hasSig]. *)
Fixpoint sameLettersb (a b : str) : bool :=
  match a, b with
  | [], _ => true
  | x :: a', y :: b' => (code (canonicalize x) =? code (canonicalize y))%N
                        && sameLettersb a' b'
  | _ :: _, [] => false
  end.

Fixpoint holds (marker s : str) : bool :=
  sameLettersb marker s
  || match s with
     | [] => false
     | _ :: t => holds marker t
     end.

Definition hasSig_spec (s : str) : bool :=
  holds (lit "/Type /Sig") s || holds (lit "/FT /Sig") s
  || holds (lit "/SubFilter /adbe.pkcs7") s.

(** The text holds a reference [/DSS n 0 R], in any case, with white space
    between its four parts. *)
Definition HasDssRef (s : str) : Prop :=
  exists pre k w1 ds w2 w3 r post,
    s = pre ++ k ++ w1 ++ ds ++ w2 ++ lit "0" ++ w3 ++ r ++ post
    /\ sameLetters (lit "/DSS") k
    /\ (allSpace w1 /\ w1 <> []) /\ (allDigits ds /\ ds <> [])
    /\ (allSpace w2 /\ w2 <> []) /\ (allSpace w3 /\ w3 <> [])
    /\ sameLetters (lit "R") r.


(** [s] holds the text [pat] somewhere. *)
Definition Holds (pat s : str) : Prop := exists a b, s = a ++ pat ++ b.




(** The call that tsa-helper.js makes to a timestamp server for a
    signature. *)
Definition tsaQuery {forge : Forge} {crypto : Crypto} (data url : str) : call :=
  Call url (toDer (TsaHelper.timestampReq (sha256 data)))
       (lit "application/timestamp-query") 15000.

(** The call that the Netlify function makes to a timestamp server. *)
Definition netlifyTsaQuery {forge : Forge} {crypto : Crypto} (data url : str) : call :=
  Call url (toDer (TsaHelper.timestampReq (sha256 data)))
       (lit "application/timestamp-query") 12000.

(** A call to a timestamp server fails: no response, or a status other
    than 200. *)
Definition failed (r : reply) : Prop :=
  match r with
  | NoResponse _ => True
  | Response status _ => status <> 200%Z
  end.

(** The number that a run of decimal digits writes. *)
Definition value10 (ds : str) : Z := Z.of_N (digitsValue 10 ds).

(** The text starts with an object marker [N 0 obj]. *)
Definition MarkerAt (s : str) (N : Z) : Prop :=
  exists ds w1 w2 post,
    s = ds ++ w1 ++ lit "0" ++ w2 ++ lit "obj" ++ post
    /\ (allDigits ds /\ ds <> []) /\ (allSpace w1 /\ w1 <> [])
    /\ (allSpace w2 /\ w2 <> []) /\ N = value10 ds.

(** The text holds an object marker [N 0 obj]. *)
Definition HasMarker (s : str) (N : Z) : Prop :=
  exists pre rest, s = pre ++ rest /\ MarkerAt rest N.

(** The number at the head of a text. *)
Definition headNumber (s : str) : Z := value10 (fst (span isDigit s)).

(** [n] after [k] increments. *)
Definition after (n : num) (k : nat) : num :=
  Nat.iter k (fun x => num_add x (Num 1)) n.

(** The objects built so far have the numbers that successive increments
    give from [n0], and the next one gets the next of them. *)
Definition Numbered (n0 : num) (b : LtvHelper.builder) : Prop :=
  map fst (LtvHelper.dssObjects b)
  = map (after n0) (seq 0 (length (LtvHelper.dssObjects b)))
  /\ LtvHelper.objectNumber b = after n0 (length (LtvHelper.dssObjects b)).

(** The integers that a Number holds exactly go up to 2^53. *)
Definition maxExact : Z := 2 ^ 53.

(** The certificate has an Authority Information Access extension whose
    items hold the OCSP access method with [url]. *)
Definition HasOcspAccess {forge : Forge} (cert : certificate) (url : str) : Prop :=
  exists exts aia c t items c' t' c1 t1 oid c2 t2 others,
    extensions cert = Some exts /\ In aia exts /\ ext_id aia = LtvHelper.AIA_OID
    /\ fromDer (ext_value aia) = Ret (Constr c t items)
    /\ In (Constr c' t' (Prim c1 t1 oid :: Prim c2 t2 url :: others)) items
    /\ derToOid oid = LtvHelper.OCSP_OID.


(** The fields that the credential-inspection endpoint is to send. *)
Definition metadataKeys : list string :=
  ["success"; "commonName"; "email"; "organization"; "validFrom"; "validTo"]%string.

Definition isMetadata (v : value) : Prop :=
  match v with
  | VCert _ | VP12 _ => False
  | _ => True
  end.

End Spec.

(** ** Sample inputs *)

Module Examples.

(** An engine whose calls take up to 120000 arguments. *)
Definition nodeEngine : Engine := {| maxArguments := 120000 |}.

(** A zlib that inflates nothing. *)
Definition noZlib : Zlib := {| inflateSync := fun _ => None |}.


Definition signatureDictionary : str :=
  lit "5 0 obj << /Type /Sig /Filter /Adobe.PPKLite >> endobj".

(** A signed text with a DSS dictionary. *)
Definition dssPdf : str :=
  lit "5 0 obj << /Type /Sig >> endobj 9 0 obj << /Type /DSS >> endobj".









(** A signature dictionary with its entries. *)
Definition describedPdf : str :=
  lit "5 0 obj << /Type /Sig /Name (Budi Santoso) /Reason (Persetujuan dokumen) /Location (Jakarta) /M (D:20250925090927+07'00') >> endobj".

Definition describedPdfResult : Detector.descriptor :=
  Detector.Descriptor false (lit "Budi Santoso") (lit "Persetujuan dokumen")
                      (lit "Jakarta") (lit "25/09/2025 09:09:27").

(** A signed text with a placeholder of four hex digits. *)
Definition signedPdf : str :=
  lit "5 0 obj << /Type /Sig /ByteRange [0 10 20 30] /Contents <3082> >> endobj".

Definition signedPdfSignature : TsaHelper.extracted :=
  TsaHelper.Extracted (fromHex (lit "3082")) [Num 0; Num 10; Num 20; Num 30]
                      (lit "3082").

(** A certificate signed by itself, without extensions. *)
Definition selfSigned : certificate :=
  Certificate [Attribute (lit "commonName") (lit "CN") (lit "Test")]
              [Attribute (lit "commonName") (lit "CN") (lit "Test")]
              None (lit "01") 0 1.

(** A second certificate, issued by another name. *)
Definition issued : certificate :=
  Certificate [Attribute (lit "commonName") (lit "CN") (lit "Root")]
              [Attribute (lit "commonName") (lit "CN") (lit "Root CA")]
              None (lit "02") 0 1.

(** A certificate issued by another name, with an Authority Information
    Access extension. *)
Definition aiaLeaf : certificate :=
  Certificate [Attribute (lit "commonName") (lit "CN") (lit "Leaf")]
              [Attribute (lit "commonName") (lit "CN") (lit "Root CA")]
              (Some [Extension LtvHelper.AIA_OID (lit "http://ocsp.example.test")])
              (lit "03") 0 1.

(** A certificate whose names have no common name. *)
Definition anonymous : certificate :=
  Certificate [Attribute (lit "organizationName") (lit "O") (lit "Acme")]
              [Attribute (lit "organizationName") (lit "O") (lit "Acme CA")]
              (Some [Extension LtvHelper.AIA_OID (lit "http://ocsp.example.test")])
              (lit "04") 0 1.

(** A container with a certificate and the one of its issuer. *)
Definition chainWithOcsp : pkcs12 :=
  Pkcs12 (Some [aiaLeaf; issued]) (lit "key").

Definition anonymousChain : pkcs12 :=
  Pkcs12 (Some [anonymous; issued]) (lit "key").


(** A signed text with a Catalog and an [xref]. *)
Definition catalogPdf : str :=
  lit "1 0 obj << /Type /Catalog >> endobj 5 0 obj << /Type /Sig >> endobj xref".

(** A text whose one object has the number 2^53. *)
Definition bigNumberPdf : str :=
  lit "9007199254740992 0 obj << /Type /Catalog >> endobj xref".

(** A forge that takes any bytes for one primitive node, opens a container
    with the password [secret] only, and encodes a certificate as its serial
    number. *)
Definition toyForge : Forge :=
  {| fromDer := fun b => Ret (Prim 0 4 b);
     toDer := fun a => match a with Prim _ _ v => v | Constr _ _ _ => lit "30" end;
     oidToDer := fun s => s;
     derToOid := fun s => s;
     integerToDer := fun _ => [chr 1];
     derToInteger := fun _ => 0%Z;
     hexToBytes := fun s => s;
     pkcs12FromAsn1 := fun _ password =>
       if str_eqb password (lit "secret")
       then Ret (Pkcs12 (Some [selfSigned]) (lit "key"))
       else Throw (lit "PKCS#12 MAC could not be verified. Invalid password?");
     certificateToDer := fun c => Ret (serialNumber c) |}.

Definition toyCrypto : Crypto :=
  {| sha256 := fun s => s; sha1 := fun s => s |}.

(** Libraries that leave the PDF as it is. *)
Definition toyPdfLib : PdfLib :=
  {| loadAndSave := fun pdf _ => Ret pdf;
     plainAddPlaceholder := fun pdf _ _ _ => Ret pdf;
     sign := fun pdf _ _ => Ret pdf |}.

(** A forge that reads any bytes as a response whose status is 2, a
    rejection. *)
Definition rejectingForge : Forge :=
  {| fromDer := fun b =>
       Ret (Constr 0 16 [Constr 0 16 [Prim 0 2 [chr 2]]]);
     toDer := fun _ => lit "30";
     oidToDer := fun s => s;
     derToOid := fun s => s;
     integerToDer := fun _ => [chr 1];
     derToInteger := fun _ => 2%Z;
     hexToBytes := fun s => s;
     pkcs12FromAsn1 := fun _ _ => Throw (lit "Invalid password?");
     certificateToDer := fun c => Ret (serialNumber c) |}.

(** A forge that reads the bytes of an extension as the URL of the OCSP
    access method, and opens every container as the chain with that
    extension. *)
Definition ocspForge : Forge :=
  {| fromDer := fun b =>
       Ret (Constr 0 16 [Constr 0 16 [Prim 0 6 LtvHelper.OCSP_OID; Prim 0 22 b]]);
     toDer := fun _ => lit "30";
     oidToDer := fun s => s;
     derToOid := fun s => s;
     integerToDer := fun _ => [chr 1];
     derToInteger := fun _ => 0%Z;
     hexToBytes := fun s => s;
     pkcs12FromAsn1 := fun _ _ => Ret chainWithOcsp;
     certificateToDer := fun c => Ret (serialNumber c) |}.

(** A network on which every host answers 200 with the same bytes. *)
Definition okNetwork : Network :=
  {| answer := fun _ _ => Response 200 (lit "reply") |}.

(** What the [embedDSS] of the Netlify function makes of the text with a
    Catalog and the certificate signed by itself. *)
Definition netlifyEmbedded : str :=
  ocatch (@NetlifySign.embedDSS nodeEngine toyForge catalogPdf [] [selfSigned])
         (fun _ => []).

(** A network on which no host can be reached. *)
Definition deadNetwork : Network :=
  {| answer := fun _ _ => NoResponse (lit "connect ECONNREFUSED") |}.

End Examples.

(* ================================================================== *)
(** * Part II: properties *)
(* ================================================================== *)

Import Spec.

(** ** The matcher and the language of a pattern *)

Module RegexFacts.

Lemma takes_nth (p : ascii -> bool) (s : str) (k : nat) (s' : str) :
  nth_error (takes p s) k = Some s' <->
  (k <= length s /\ s' = skipn k s /\ forallb p (firstn k s) = true).
Proof.
  revert k s'; induction s as [|c t IH]; intros k s'.
  - destruct k as [|k]; simpl.
    + split; [intros [= <-]; auto | intros (_ & -> & _); reflexivity].
    + destruct k; simpl; split; try discriminate; intros (H & _); lia.
  - destruct k as [|k]; simpl.
    + split; [intros [= <-]; repeat split; lia | intros (_ & -> & _); reflexivity].
    + destruct (p c) eqn:Hp; simpl.
      * rewrite IH. split; intros (H1 & H2 & H3); repeat split; auto; lia.
      * split; [destruct k; discriminate | intros (_ & _ & H); discriminate].
Qed.

Lemma window_In {A : Type} (lo : nat) (hi : option nat) (l : list A) (x : A) :
  In x (window lo hi l) <->
  exists k, lo <= k /\ (forall h, hi = Some h -> k <= h) /\ nth_error l k = Some x.
Proof.
  unfold window; destruct hi as [h|].
  - rewrite In_iff_nth_error. split.
    + intros [i Hi]. rewrite nth_error_firstn in Hi.
      destruct (i <? S h - lo) eqn:E; [|discriminate].
      apply Nat.ltb_lt in E. rewrite nth_error_skipn in Hi.
      exists (lo + i); repeat split; auto; [lia|]. intros h' [= <-]; lia.
    + intros (k & H1 & H2 & H3). exists (k - lo).
      rewrite nth_error_firstn. specialize (H2 h eq_refl).
      replace (k - lo <? S h - lo) with true by (symmetry; apply Nat.ltb_lt; lia).
      rewrite nth_error_skipn. replace (lo + (k - lo)) with k by lia. exact H3.
  - rewrite In_iff_nth_error. split.
    + intros [i Hi]. rewrite nth_error_skipn in Hi.
      exists (lo + i); repeat split; auto; [lia|discriminate].
    + intros (k & H1 & _ & H3). exists (k - lo).
      rewrite nth_error_skipn. replace (lo + (k - lo)) with k by lia. exact H3.
Qed.

Lemma rep_In (g : bool) (lo : nat) (hi : option nat) (p : ascii -> bool)
    (s s' : str) :
  In s' (if g then rev (window lo hi (takes p s)) else window lo hi (takes p s)) <->
  exists m, s = m ++ s' /\ forallb p m = true /\ lo <= length m
            /\ (forall h, hi = Some h -> length m <= h).
Proof.
  assert (E : In s' (if g then rev (window lo hi (takes p s))
                     else window lo hi (takes p s))
              <-> In s' (window lo hi (takes p s))).
  { destruct g; [symmetry; apply in_rev | reflexivity]. }
  rewrite E, window_In. split.
  - intros (k & H1 & H2 & H3). apply takes_nth in H3 as (Hk & -> & Hp).
    exists (firstn k s). rewrite firstn_skipn, length_firstn.
    repeat split; auto; [lia|]. intros h Hh. specialize (H2 h Hh). lia.
  - intros (m & -> & Hp & Hlo & Hhi). exists (length m). repeat split; auto.
    apply takes_nth. rewrite length_app. split; [lia|].
    rewrite skipn_app, skipn_all, Nat.sub_diag, firstn_app, firstn_all, Nat.sub_diag.
    simpl. rewrite app_nil_r. auto.
Qed.

Lemma many_loop_sound (round : list str -> str -> list (list str * str))
    (P : str -> Prop) :
  (forall c s c' s', In (c', s') (round c s) -> exists m, s = m ++ s' /\ P m) ->
  forall fuel c s c' s',
    In (c', s') (many_loop round fuel c s) ->
    exists ms, s = concat ms ++ s' /\ Forall (fun m => P m /\ m <> []) ms.
Proof.
  intros Hround; induction fuel as [|n IH]; intros c s c' s' Hin; simpl in Hin.
  - destruct Hin as [[= <- <-]|[]]. exists []; simpl; auto.
  - apply in_app_or in Hin as [Hin|[[= <- <-]|[]]].
    + apply in_flat_map in Hin as ([c1 s1] & H1 & H2). simpl in H2.
      destruct (length s1 <? length s) eqn:E; [|destruct H2].
      apply Nat.ltb_lt in E. apply Hround in H1 as (m & -> & Hm).
      apply IH in H2 as (ms & -> & Hms). exists (m :: ms). simpl.
      rewrite app_assoc. split; auto. constructor; auto. split; auto.
      intros ->. simpl in E. lia.
    + exists []; simpl; auto.
Qed.

Lemma Matches_many_concat (ci : bool) (r : regex) (ms : list str) :
  Forall (fun m => Matches ci r m /\ m <> []) ms -> Matches ci (Many r) (concat ms).
Proof.
  induction 1 as [|m ms [Hm Hne] _ IH]; simpl; [constructor|].
  apply MManyS; auto.
Qed.

(** Every success of the matcher consumed a text of the language. *)
Lemma run_sound (ci : bool) (r : regex) :
  forall c s c' s', In (c', s') (run ci r c s) ->
                    exists m, s = m ++ s' /\ Matches ci r m.
Proof.
  induction r as [ |x|p|g lo hi p|r1 IH1 r2 IH2|r1 IH1 r2 IH2|r1 IH1|r1 IH1];
    intros c s c' s' Hin; simpl in Hin.
  - destruct Hin as [[= <- <-]|[]]. exists []; split; [reflexivity|constructor].
  - destruct s as [|y t]; [destruct Hin|].
    destruct (char_eq ci x y) eqn:E; [|destruct Hin].
    destruct Hin as [[= <- <-]|[]]. exists [y]; split; [reflexivity|constructor; auto].
  - destruct s as [|y t]; [destruct Hin|].
    destruct (p y) eqn:E; [|destruct Hin].
    destruct Hin as [[= <- <-]|[]]. exists [y]; split; [reflexivity|constructor; auto].
  - apply in_map_iff in Hin as (s1 & [= <- <-] & Hin).
    apply rep_In in Hin as (m & -> & Hp & Hlo & Hhi).
    exists m; split; [reflexivity|constructor; auto].
  - apply in_flat_map in Hin as ([c1 s1] & H1 & H2). simpl in H2.
    apply IH1 in H1 as (m1 & -> & Hm1). apply IH2 in H2 as (m2 & -> & Hm2).
    exists (m1 ++ m2). rewrite app_assoc. split; [reflexivity|constructor; auto].
  - apply in_app_or in Hin as [Hin|Hin].
    + apply IH1 in Hin as (m & -> & Hm). exists m; split; auto. apply MAltL; auto.
    + apply IH2 in Hin as (m & -> & Hm). exists m; split; auto. apply MAltR; auto.
  - apply (many_loop_sound (run ci r1) (Matches ci r1)) in Hin as (ms & -> & Hms).
    + exists (concat ms); split; auto. apply Matches_many_concat; auto.
    + intros; eapply IH1; eauto.
  - apply in_map_iff in Hin as ([c1 s1] & [= <- <-] & Hin).
    apply IH1 in Hin as (m & -> & Hm). exists m; split; auto. constructor; auto.
Qed.

Lemma many_loop_complete (round : list str -> str -> list (list str * str))
    (P : str -> Prop) :
  (forall m, P m -> forall c s', exists c', In (c', s') (round c (m ++ s'))) ->
  forall ms, Forall (fun m => P m /\ m <> []) ms ->
  forall fuel c s', length (concat ms ++ s') <= fuel ->
    exists c', In (c', s') (many_loop round fuel c (concat ms ++ s')).
Proof.
  intros Hround ms Hms; induction Hms as [|m ms [Hm Hne] _ IH]; intros fuel c s' Hf.
  - simpl. destruct fuel; simpl; [eauto|]. exists c. apply in_or_app; right; left; auto.
  - simpl in *. destruct fuel as [|n].
    + rewrite !length_app in Hf. destruct m; [congruence|simpl in Hf; lia].
    + simpl. destruct (Hround m Hm c (concat ms ++ s')) as [c1 H1].
      rewrite <- app_assoc.
      destruct (IH n c1 s') as [c2 H2].
      { rewrite <- app_assoc, length_app in Hf.
        destruct m; [congruence|simpl in Hf; lia]. }
      exists c2. apply in_or_app; left. apply in_flat_map.
      exists (c1, concat ms ++ s'); split; auto. simpl.
      replace (length (concat ms ++ s') <? length (m ++ concat ms ++ s')) with true; auto.
      symmetry; apply Nat.ltb_lt. rewrite (length_app m).
      destruct m; [congruence|simpl; lia].
Qed.

Lemma Matches_many_inv (ci : bool) (r : regex) (m : str) :
  Matches ci (Many r) m ->
  exists ms, m = concat ms /\ Forall (fun x => Matches ci r x /\ x <> []) ms.
Proof.
  remember (Many r) as r0 eqn:E; intros H; revert r E.
  induction H; intros r0 E; try discriminate; injection E as ->.
  - exists []; auto.
  - destruct (IHMatches2 r0 eq_refl) as (ms & -> & Hms).
    exists (m1 :: ms); split; auto.
Qed.

(** Every text of the language is consumed by some success of the matcher. *)
Lemma run_complete (ci : bool) (r : regex) :
  forall m, Matches ci r m ->
  forall c s', exists c', In (c', s') (run ci r c (m ++ s')).
Proof.
  induction r as [ |x|p|g lo hi p|r1 IH1 r2 IH2|r1 IH1 r2 IH2|r1 IH1|r1 IH1];
    intros m Hm c s'; inversion Hm; subst; simpl.
  - eauto.
  - rewrite H0. eauto using in_eq.
  - rewrite H0. eauto using in_eq.
  - exists c. apply in_map_iff. exists s'; split; auto.
    apply rep_In. exists m; auto.
  - destruct (IH1 _ H1 c (m2 ++ s')) as [c1 Hc1].
    destruct (IH2 _ H3 c1 s') as [c2 Hc2].
    exists c2. apply in_flat_map. exists (c1, m2 ++ s'). rewrite <- app_assoc. auto.
  - destruct (IH1 _ H2 c s') as [c1 Hc1]. exists c1. apply in_or_app; auto.
  - destruct (IH2 _ H2 c s') as [c1 Hc1]. exists c1. apply in_or_app; auto.
  - exists c. destruct (length s'); simpl; auto. apply in_or_app; right; left; auto.
  - apply Matches_many_inv in Hm as (ms & E & Hms). rewrite E.
    apply (many_loop_complete (run ci r1) (Matches ci r1)); auto.
  - destruct (IH1 _ H0 c s') as [c1 Hc1].
    eexists. apply in_map_iff. exists (c1, s'); split; [reflexivity|auto].
Qed.

End RegexFacts.

Module SearchFacts.
Import RegexFacts.

Lemma firstn_length_diff (m s' : str) :
  firstn (length (m ++ s') - length s') (m ++ s') = m.
Proof.
  rewrite length_app, Nat.add_sub, firstn_app, firstn_all, Nat.sub_diag.
  simpl; apply app_nil_r.
Qed.

Lemma exec_here_Some (ci : bool) (r : regex) (s : str) c s' :
  exec_here ci r s = Some (c, s') -> exists m, s = m ++ s' /\ Matches ci r m.
Proof.
  unfold exec_here; intros H. apply run_sound with (c := []) (c' := c).
  destruct (run ci r [] s); [discriminate|]. injection H as ->. left; auto.
Qed.

Lemma exec_here_None (ci : bool) (r : regex) (m s' : str) :
  exec_here ci r (m ++ s') = None -> ~ Matches ci r m.
Proof.
  unfold exec_here; intros H Hm.
  destruct (run_complete Hm [] s') as [c' Hin].
  destruct (run ci r [] (m ++ s')); [destruct Hin|discriminate].
Qed.

Lemma exec_here_complete (ci : bool) (r : regex) (m s' : str) :
  Matches ci r m -> exists c m' s'', exec_here ci r (m ++ s') = Some (c, s'')
                                     /\ m ++ s' = m' ++ s'' /\ Matches ci r m'.
Proof.
  intros Hm. destruct (exec_here ci r (m ++ s')) as [[c s'']|] eqn:E.
  - destruct (exec_here_Some _ _ _ E) as (m' & E' & Hm'). eauto 6.
  - exfalso; eapply exec_here_None; eauto.
Qed.

Lemma search_eq (ci : bool) (r : regex) (s : str) :
  search ci r s =
  match exec_here ci r s with
  | Some (caps, s') => Some (Found [] (firstn (length s - length s') s) caps s')
  | None =>
      match s with
      | [] => None
      | c :: t =>
          match search ci r t with
          | Some f => Some (Found (c :: skipped f) (matched f) (groups f) (rest f))
          | None => None
          end
      end
  end.
Proof. destruct s; reflexivity. Qed.

Lemma search_here (ci : bool) (r : regex) (s : str) c s' (f : found) :
  exec_here ci r s = Some (c, s') -> search ci r s = Some f ->
  exists m, s = m ++ s' /\ Matches ci r m /\ f = Found [] m c s'.
Proof.
  intros E. destruct (exec_here_Some _ _ _ E) as (m & -> & Hm).
  rewrite search_eq, E, firstn_length_diff. intros [= <-]. eauto.
Qed.

(** What [search] finds is the leftmost match. *)
Lemma search_Some (ci : bool) (r : regex) (s : str) (f : found) :
  search ci r s = Some f ->
  s = skipped f ++ matched f ++ rest f
  /\ Matches ci r (matched f)
  /\ exec_here ci r (matched f ++ rest f) = Some (groups f, rest f)
  /\ (forall a b, skipped f = a ++ b -> b <> [] ->
                  exec_here ci r (b ++ matched f ++ rest f) = None).
Proof.
  revert f; induction s as [|x t IH]; intros f Hf.
  - destruct (exec_here ci r []) as [[c s']|] eqn:E.
    + destruct (search_here _ _ _ E Hf) as (m & Em & Hm & ->). simpl.
      rewrite <- Em. repeat split; auto.
      intros a b Hab Hb. destruct a; destruct b; try discriminate. congruence.
    + rewrite search_eq, E in Hf. discriminate.
  - destruct (exec_here ci r (x :: t)) as [[c s']|] eqn:E.
    + destruct (search_here _ _ _ E Hf) as (m & Em & Hm & ->). simpl.
      rewrite <- Em. repeat split; auto.
      intros a b Hab Hb. destruct a; destruct b; try discriminate. congruence.
    + rewrite search_eq, E in Hf.
      destruct (search ci r t) as [g|] eqn:Es; [|discriminate].
      injection Hf as <-. simpl. destruct (IH g eq_refl) as (E1 & E2 & E3 & E4).
      repeat split; auto; [congruence|].
      intros a b Hab Hb. destruct a as [|y a]; simpl in Hab.
      * subst b. simpl. rewrite <- E1. exact E.
      * injection Hab as -> Hab. eauto.
Qed.

Lemma search_None (ci : bool) (r : regex) (s : str) :
  search ci r s = None -> forall pre m post, s = pre ++ m ++ post -> ~ Matches ci r m.
Proof.
  induction s as [|x t IH]; simpl.
  - destruct (exec_here ci r []) as [[c s']|] eqn:E; [discriminate|].
    intros _ pre m post Es Hm.
    destruct pre; [|discriminate]. destruct m; [|discriminate].
    destruct post; [|discriminate]. apply (@exec_here_None ci r [] [] E Hm).
  - destruct (exec_here ci r (x :: t)) as [[c s']|] eqn:E; [discriminate|].
    destruct (search ci r t) eqn:Es; [discriminate|].
    intros _ pre m post E' Hm. destruct pre as [|y pre]; simpl in E'.
    + rewrite E' in E. apply (@exec_here_None ci r m post E Hm).
    + injection E' as -> E'. eapply IH; eauto.
Qed.

Lemma search_finds (ci : bool) (r : regex) (pre m post : str) :
  Matches ci r m -> exists f, search ci r (pre ++ m ++ post) = Some f.
Proof.
  intros Hm. destruct (search ci r (pre ++ m ++ post)) eqn:E; eauto.
  exfalso; eapply search_None; eauto.
Qed.

(** [test] says whether the text holds a match. *)
Lemma test_Occurs (ci : bool) (r : regex) (s : str) :
  test ci r s = true <-> Occurs ci r s.
Proof.
  unfold test, Occurs. split.
  - destruct (search ci r s) as [f|] eqn:E; [|discriminate]. intros _.
    apply search_Some in E as (E1 & E2 & _). eauto.
  - intros (pre & m & post & -> & Hm).
    destruct (@search_finds ci r pre m post Hm) as [f ->]. reflexivity.
Qed.

End SearchFacts.

Module LangFacts.
Import RegexFacts SearchFacts.

Lemma code_inj (a b : ascii) : code a = code b -> a = b.
Proof.
  unfold code; intros H. rewrite <- (ascii_N_embedding a), <- (ascii_N_embedding b).
  congruence.
Qed.

Lemma char_eq_ci (c x : ascii) :
  char_eq true c x = true <-> canonicalize c = canonicalize x.
Proof.
  unfold char_eq. rewrite N.eqb_eq. split; [apply code_inj | congruence].
Qed.

Lemma char_eq_cs (c x : ascii) : char_eq false c x = true <-> c = x.
Proof.
  unfold char_eq. rewrite N.eqb_eq. split; [apply code_inj | congruence].
Qed.

Lemma Matches_Cat (ci : bool) (r1 r2 : regex) (m : str) :
  Matches ci (Cat r1 r2) m <->
  exists m1 m2, m = m1 ++ m2 /\ Matches ci r1 m1 /\ Matches ci r2 m2.
Proof.
  split.
  - intros H; inversion H; subst; eauto.
  - intros (m1 & m2 & -> & H1 & H2); constructor; auto.
Qed.

Lemma Matches_Alt (ci : bool) (r1 r2 : regex) (m : str) :
  Matches ci (Alt r1 r2) m <-> Matches ci r1 m \/ Matches ci r2 m.
Proof.
  split.
  - intros H; inversion H; subst; auto.
  - intros [H|H]; [apply MAltL | apply MAltR]; auto.
Qed.

Lemma Matches_Cap (ci : bool) (r : regex) (m : str) :
  Matches ci (Cap r) m <-> Matches ci r m.
Proof.
  split; [intros H; inversion H; subst; auto | intros; constructor; auto].
Qed.

Lemma Matches_Eps (ci : bool) (m : str) : Matches ci Eps m <-> m = [].
Proof.
  split; [intros H; inversion H; auto | intros ->; constructor].
Qed.

Lemma Matches_Chr (ci : bool) (c : ascii) (m : str) :
  Matches ci (Chr c) m <-> exists x, m = [x] /\ char_eq ci c x = true.
Proof.
  split; [intros H; inversion H; subst; eauto | intros (x & -> & H); constructor; auto].
Qed.

Lemma Matches_Rep (ci g : bool) (lo : nat) (hi : option nat) (p : ascii -> bool)
    (m : str) :
  Matches ci (Rep g lo hi p) m <->
  Forall (fun c => p c = true) m /\ lo <= length m
  /\ (forall h, hi = Some h -> length m <= h).
Proof.
  rewrite Forall_forall, <- forallb_forall. split.
  - intros H; inversion H; subst; auto.
  - intros (H1 & H2 & H3); constructor; auto.
Qed.

Lemma Matches_star (ci : bool) (p : ascii -> bool) (m : str) :
  Matches ci (star p) m <-> Forall (fun c => p c = true) m.
Proof.
  unfold star; rewrite Matches_Rep. split; [tauto|].
  intros H; repeat split; auto; [lia|discriminate].
Qed.

Lemma Matches_plus (ci : bool) (p : ascii -> bool) (m : str) :
  Matches ci (plus p) m <-> Forall (fun c => p c = true) m /\ m <> [].
Proof.
  unfold plus; rewrite Matches_Rep. split.
  - intros (H1 & H2 & _); split; auto. intros ->; simpl in H2; lia.
  - intros (H1 & H2); repeat split; auto; [|discriminate].
    destruct m; [congruence|simpl; lia].
Qed.

Lemma Matches_word_ci (w m : str) :
  Matches true (word_of w) m <-> sameLetters w m.
Proof.
  revert m; induction w as [|c w IH]; intros m; simpl.
  - rewrite Matches_Eps. split; [intros ->; constructor | intros H; inversion H; auto].
  - rewrite Matches_Cat. split.
    + intros (m1 & m2 & -> & H1 & H2). apply Matches_Chr in H1 as (x & -> & Hx).
      constructor; [apply char_eq_ci; auto | apply IH; auto].
    + intros H; inversion H; subst. exists [y], l'. repeat split.
      * apply Matches_Chr. exists y; split; auto. apply char_eq_ci; auto.
      * apply IH; auto.
Qed.

Lemma Matches_word_cs (w m : str) : Matches false (word_of w) m <-> m = w.
Proof.
  revert m; induction w as [|c w IH]; intros m; simpl.
  - apply Matches_Eps.
  - rewrite Matches_Cat. split.
    + intros (m1 & m2 & -> & H1 & H2). apply Matches_Chr in H1 as (x & -> & Hx).
      apply char_eq_cs in Hx as ->. apply IH in H2 as ->. reflexivity.
    + intros ->. exists [c], w. repeat split.
      * apply Matches_Chr. exists c; split; auto. apply char_eq_cs; auto.
      * apply IH; auto.
Qed.

(** The pattern of an entry: the two names and white space, or none, between
    them. *)
Lemma Matches_entry (k v m : str) :
  Matches true (cat [word_of k; star isSpace; word_of v]) m <->
  exists k' w v', m = k' ++ w ++ v'
                  /\ sameLetters k k' /\ allSpace w /\ sameLetters v v'.
Proof.
  simpl. rewrite Matches_Cat. split.
  - intros (k' & m2 & -> & Hk & H2). apply Matches_Cat in H2 as (w & v' & -> & Hw & Hv).
    exists k', w, v'. repeat split; auto.
    + apply Matches_word_ci; auto.
    + apply (Matches_star true); auto.
    + apply Matches_word_ci; auto.
  - intros (k' & w & v' & -> & Hk & Hw & Hv). exists k', (w ++ v'). repeat split.
    + apply Matches_word_ci; auto.
    + apply Matches_Cat. exists w, v'. repeat split.
      * apply Matches_star; auto.
      * apply Matches_word_ci; auto.
Qed.

Lemma Occurs_entry (k v : string) (s : str) :
  Occurs true (cat [word_of (lit k); star isSpace; word_of (lit v)]) s
  <-> HasEntry k v s.
Proof.
  unfold Occurs, HasEntry. split.
  - intros (pre & m & post & -> & Hm).
    apply Matches_entry in Hm as (k' & w & v' & -> & Hk & Hw & Hv).
    exists pre, k', w, v', post. rewrite <- !app_assoc. auto.
  - intros (pre & k' & w & v' & post & -> & Hk & Hw & Hv).
    exists pre, (k' ++ w ++ v'), post. rewrite <- !app_assoc. split; auto.
    apply Matches_entry. eauto 8.
Qed.

Lemma Occurs_Alt (ci : bool) (r1 r2 : regex) (s : str) :
  Occurs ci (Alt r1 r2) s <-> Occurs ci r1 s \/ Occurs ci r2 s.
Proof.
  unfold Occurs. split.
  - intros (pre & m & post & -> & Hm). apply Matches_Alt in Hm as [Hm|Hm]; eauto 8.
  - intros [(pre & m & post & -> & Hm)|(pre & m & post & -> & Hm)];
      exists pre, m, post; rewrite Matches_Alt; auto.
Qed.

Lemma cat_cons (r r' : regex) (t : list regex) :
  cat (r :: r' :: t) = Cat r (cat (r' :: t)).
Proof. reflexivity. Qed.

Lemma cat_one (r : regex) : cat [r] = r.
Proof. reflexivity. Qed.

Lemma sameLetters_zero (m : str) : sameLetters (lit "0") m -> m = lit "0".
Proof.
  intros H; inversion H as [|x y l l' Hxy Hl]; subst. inversion Hl; subst.
  change (lit "0") with ["0"%char].
  f_equal. apply code_inj. unfold canonicalize in Hxy. simpl in Hxy.
  destruct ((97 <=? code y) && (code y <=? 122))%N eqn:E.
  - apply andb_prop in E as [E1 E2]. apply N.leb_le in E1, E2.
    apply (f_equal code) in Hxy. unfold chr, code in Hxy.
    rewrite N_ascii_embedding in Hxy by (unfold code in *; lia).
    unfold code in *. simpl in Hxy. lia.
  - subst y; reflexivity.
Qed.

Lemma Occurs_dss_ref (s : str) : Occurs true Detector.dss_ref_re s <-> HasDssRef s.
Proof.
  unfold Occurs, HasDssRef, Detector.dss_ref_re, word.
  rewrite !cat_cons, cat_one. split.
  - intros (pre & m & post & -> & Hm).
    apply Matches_Cat in Hm as (k & m1 & -> & Hk & Hm).
    apply Matches_Cat in Hm as (w1 & m2 & -> & H1 & Hm).
    apply Matches_Cat in Hm as (ds & m3 & -> & Hd & Hm).
    apply Matches_Cat in Hm as (w2 & m4 & -> & H2 & Hm).
    apply Matches_Cat in Hm as (z & m5 & -> & Hz & Hm).
    apply Matches_Cat in Hm as (w3 & r & -> & H3 & Hr).
    apply Matches_word_ci in Hk, Hz, Hr. apply sameLetters_zero in Hz as ->.
    apply Matches_plus in H1, Hd, H2, H3.
    exists pre, k, w1, ds, w2, w3, r, post. rewrite <- !app_assoc. repeat split; tauto.
  - intros (pre & k & w1 & ds & w2 & w3 & r & post & -> & Hk & H1 & Hd & H2 & H3 & Hr).
    exists pre, (k ++ w1 ++ ds ++ w2 ++ lit "0" ++ w3 ++ r), post.
    rewrite <- !app_assoc. split; [reflexivity|].
    apply Matches_Cat; exists k, (w1 ++ ds ++ w2 ++ lit "0" ++ w3 ++ r); repeat split.
    { apply Matches_word_ci; auto. }
    apply Matches_Cat; exists w1, (ds ++ w2 ++ lit "0" ++ w3 ++ r); repeat split.
    { apply Matches_plus; auto. }
    apply Matches_Cat; exists ds, (w2 ++ lit "0" ++ w3 ++ r); repeat split.
    { apply Matches_plus; auto. }
    apply Matches_Cat; exists w2, (lit "0" ++ w3 ++ r); repeat split.
    { apply Matches_plus; auto. }
    apply Matches_Cat; exists (lit "0"), (w3 ++ r); repeat split.
    { apply Matches_word_ci. repeat constructor. }
    apply Matches_Cat; exists w3, r; repeat split.
    { apply Matches_plus; auto. }
    apply Matches_word_ci; auto.
Qed.

End LangFacts.

(** ** The detector *)

Module DetectorFacts.
Import RegexFacts SearchFacts LangFacts Detector.

Lemma hasSig_test {zlib : Zlib} (s : str) :
  hasSig (checkPdfSignature s) = test true sig_re s.
Proof.
  unfold checkPdfSignature. destruct (test true sig_re s); reflexivity.
Qed.

Lemma ltv_detect {zlib : Zlib} (s : str) :
  test true sig_re s = true -> ltv (checkPdfSignature s) = detectLTV s.
Proof.
  unfold checkPdfSignature. intros ->. reflexivity.
Qed.

Lemma Occurs_sig (s : str) :
  Occurs true sig_re s <->
  HasEntry "/Type" "/Sig" s \/ HasEntry "/FT" "/Sig" s
  \/ HasEntry "/SubFilter" "/adbe.pkcs7" s.
Proof.
  unfold sig_re. rewrite !Occurs_Alt. unfold word.
  rewrite !Occurs_entry. reflexivity.
Qed.

(** A character that is no letter is only the same letter as itself. *)
Lemma canonicalize_not_letter (c y : ascii) :
  (code c < 65)%N -> canonicalize c = canonicalize y -> y = c.
Proof.
  intros Hc H. unfold canonicalize in H.
  replace ((97 <=? code c) && (code c <=? 122))%N with false in H
    by (symmetry; apply andb_false_iff; left; apply N.leb_gt; lia).
  destruct ((97 <=? code y) && (code y <=? 122))%N eqn:E; [|auto].
  apply andb_prop in E as [E1 E2]. apply N.leb_le in E1, E2.
  apply (f_equal code) in H. unfold chr, code in H.
  rewrite N_ascii_embedding in H by (unfold code in *; lia).
  unfold code in *. lia.
Qed.

Lemma sameLettersb_prefix (a s : str) :
  sameLettersb a s = true -> exists m post, s = m ++ post /\ sameLetters a m.
Proof.
  revert s; induction a as [|x a IH]; intros s; simpl.
  - intros _. exists [], s. split; [reflexivity|constructor].
  - destruct s as [|y s]; [discriminate|]. intros H.
    apply andb_prop in H as [H1 H2]. apply N.eqb_eq, code_inj in H1.
    destruct (IH _ H2) as (m & post & -> & Hm).
    exists (y :: m), post. split; [reflexivity|constructor; auto].
Qed.

Lemma holds_occurs (a s : str) :
  holds a s = true -> exists pre m post, s = pre ++ m ++ post /\ sameLetters a m.
Proof.
  induction s as [|y s IH]; simpl; intros H; apply orb_prop in H as [H|H].
  - apply sameLettersb_prefix in H as (m & post & E & Hm). exists [], m, post; auto.
  - discriminate.
  - apply sameLettersb_prefix in H as (m & post & E & Hm). exists [], m, post; auto.
  - destruct (IH H) as (pre & m & post & -> & Hm). exists (y :: pre), m, post; auto.
Qed.

(** A marker written with one space is an entry. *)
Lemma holds_entry (k v : string) (s : str) :
  holds (lit k ++ lit " " ++ lit v) s = true -> HasEntry k v s.
Proof.
  intros H. apply holds_occurs in H as (pre & m & post & -> & Hm).
  unfold sameLetters in Hm.
  apply Forall2_app_inv_l in Hm as (k' & m2 & Hk & H2 & ->).
  apply Forall2_app_inv_l in H2 as (w & v' & Hw & Hv & ->).
  exists pre, k', w, v', post. rewrite <- !app_assoc. repeat split; auto.
  inversion Hw as [|x y l l' Hxy Hl]; subst. inversion Hl; subst.
  apply canonicalize_not_letter in Hxy; [|vm_compute; reflexivity]. subst y.
  repeat constructor.
Qed.

Lemma hasSig_spec_entry (s : str) :
  hasSig_spec s = true ->
  HasEntry "/Type" "/Sig" s \/ HasEntry "/FT" "/Sig" s
  \/ HasEntry "/SubFilter" "/adbe.pkcs7" s.
Proof.
  unfold hasSig_spec. intros H.
  apply orb_prop in H as [H|H]; [apply orb_prop in H as [H|H]|].
  - left. apply (holds_entry "/Type" "/Sig"); exact H.
  - right; left. apply (holds_entry "/FT" "/Sig"); exact H.
  - right; right. apply (holds_entry "/SubFilter" "/adbe.pkcs7"); exact H.
Qed.



Lemma detectLTV_iff {zlib : Zlib} (s : str) :
  detectLTV s = true <->
  HasDssRef s \/ HasEntry "/Type" "/DSS" s
  \/ scanStreams (matchAll false stream_re s) 0 = true
  \/ HasEntry "/Type" "/VRI" s.
Proof.
  assert (H1 : test true dss_ref_re s = true <-> HasDssRef s).
  { rewrite test_Occurs. apply Occurs_dss_ref. }
  assert (H2 : test true type_dss_re s = true <-> HasEntry "/Type" "/DSS" s).
  { rewrite test_Occurs. unfold type_dss_re, word. apply Occurs_entry. }
  assert (H4 : test true vri_re s = true <-> HasEntry "/Type" "/VRI" s).
  { rewrite test_Occurs. unfold vri_re, word. apply Occurs_entry. }
  unfold detectLTV.
  destruct (test true dss_ref_re s); [tauto|].
  destruct (test true type_dss_re s); simpl; [tauto|].
  destruct (scanStreams (matchAll false stream_re s) 0); simpl; [tauto|].
  destruct (test true vri_re s); simpl; [tauto|].
  split; [discriminate|].
  intros [H|[H|[H|H]]]; [apply H1 in H|apply H2 in H| |apply H4 in H];
    discriminate.
Qed.

End DetectorFacts.

(** ** The detector: what is established of [hasSig], [hasLTV] and the
    unescaping *)

Module DetectorClaims.
Import RegexFacts SearchFacts LangFacts DetectorFacts Detector.

(** C7, as the specification words it, does not hold: [hasSig] is also true
    of a text that holds none of the three markers as they are written,
    because the pattern lets the white space between the two names be
    absent (or longer, or of another kind).  [/Type/Sig] is such a text. *)
Lemma hasSig_not_iff_spec_markers :
  ~ (forall (zlib : Zlib) (s : str),
        hasSig (checkPdfSignature s) = true <-> hasSig_spec s = true).
Proof.
  intros H.
  destruct (H Examples.noZlib (lit "/Type/Sig")) as [H1 _].
  discriminate (H1 eq_refl).
Qed.

(** C7 (amended): for every buffer, whatever zlib does, [hasSig] is true if
    and only if the text holds, in any case, [/Type] and [/Sig], or [/FT] and
    [/Sig], or [/SubFilter] and [/adbe.pkcs7], with any run of white space,
    or none, between the two names; in particular it is true of every buffer
    that holds one of the markers written with one space, as a signature
    dictionary does. *)
Theorem hasSig_iff_entry (zlib : Zlib) (s : str) :
  (hasSig (checkPdfSignature s) = true <->
   HasEntry "/Type" "/Sig" s \/ HasEntry "/FT" "/Sig" s
   \/ HasEntry "/SubFilter" "/adbe.pkcs7" s)
  /\ (hasSig_spec s = true -> hasSig (checkPdfSignature s) = true).
Proof.
  assert (E : hasSig (checkPdfSignature s) = true <->
              HasEntry "/Type" "/Sig" s \/ HasEntry "/FT" "/Sig" s
              \/ HasEntry "/SubFilter" "/adbe.pkcs7" s).
  { rewrite hasSig_test, test_Occurs. apply Occurs_sig. }
  split; [exact E|]. intros H. apply E. apply hasSig_spec_entry; exact H.
Qed.

Lemma hasSig_iff_entry_witness :
  hasSig (@checkPdfSignature Examples.noZlib Examples.signatureDictionary) = true.
Proof.
  apply (proj2 (hasSig_iff_entry Examples.noZlib _)).
  reflexivity.
Defined.

(** C9 fails on the code: the replacements are chained, each over the whole
    result of the one before, so the backslash that the replacement of two
    backslashes leaves is read again, with the [n] after it, as the escape
    of a newline. *)
Theorem decodePdfString_backslash_backslash_n :
  decodePdfString (lit "\\n") = [newline]
  /\ decodePdfString (lit "\\n") <> [backslash; "n"%char].
Proof. split; [reflexivity | discriminate]. Qed.

(** Each escape on its own is decoded as the specification says. *)
Lemma decodePdfString_single_escapes :
  decodePdfString (lit "\101") = lit "A"
  /\ decodePdfString (lit "\(") = lit "("
  /\ decodePdfString (lit "\)") = lit ")"
  /\ decodePdfString (lit "\\") = [backslash]
  /\ decodePdfString (lit "\n") = [newline]
  /\ decodePdfString (lit "\r") = [chr 13]
  /\ decodePdfString (lit "\t") = [chr 9].
Proof. repeat split. Qed.

(** An octal escape after an escaped backslash is read as an escape too. *)
Lemma decodePdfString_backslash_backslash_octal :
  decodePdfString (lit "\\050") = lit "(".
Proof. reflexivity. Qed.

End DetectorClaims.

(** ** The credentials: [parseP12Certificate] and the endpoints that use it *)

Module CredentialClaims.

(** [parseP12Certificate] always returns one of its two objects: whatever the
    library throws is caught. *)
Lemma parseP12Certificate_structured {forge : Forge} (p12Buffer password : str) :
  let r := Server.parseP12Certificate p12Buffer password in
  (prop "success" r = Some (VBool true) /\ keys r = metadataKeys ++ ["cert"; "p12"]%string)
  \/ (exists msg, r = [("success", VBool false); ("error", VStr msg)]%string).
Proof.
  unfold Server.parseP12Certificate.
  destruct (fromDer p12Buffer) as [a|e]; simpl; [|eauto].
  destruct (pkcs12FromAsn1 a password) as [p|e]; simpl; [|eauto].
  destruct (certBags p) as [[|c l]|]; simpl; eauto.
Qed.

(** The object that [parseP12Certificate] of server.js returns on success
    does hold the certificate and the container. *)
Lemma parseP12Certificate_holds_secrets {forge : Forge} (p12Buffer password : str) :
  prop "success" (Server.parseP12Certificate p12Buffer password) = Some (VBool true) ->
  (exists c, prop "cert" (Server.parseP12Certificate p12Buffer password) = Some (VCert c))
  /\ (exists p, prop "p12" (Server.parseP12Certificate p12Buffer password) = Some (VP12 p)).
Proof.
  unfold Server.parseP12Certificate.
  destruct (fromDer p12Buffer) as [a|e]; simpl; [|discriminate].
  destruct (pkcs12FromAsn1 a password) as [p|e]; simpl; [|discriminate].
  destruct (certBags p) as [[|c l]|]; simpl; try discriminate; eauto.
Qed.

(** C10: for every successful call of the credential-inspection endpoint, of
    the server or of the Netlify function, the JSON body has the keys
    [success], [commonName], [email], [organization], [validFrom] and [validTo]
    and no other: it has no [cert] and no [p12], and none of its values is
    the certificate or the container. *)
Theorem parse_certificate_sends_metadata_only (forge : Forge)
    (file password : str) (body : object) :
  Server.parseCertificateRoute (Some file) password = Json 200 body
  \/ NetlifyParse.handler (Some file) password = Json 200 body ->
  keys body = metadataKeys
  /\ prop "cert" body = None /\ prop "p12" body = None
  /\ Forall (fun kv => isMetadata (snd kv)) body.
Proof.
  unfold Server.parseCertificateRoute, Server.parseP12Certificate,
    NetlifyParse.handler, NetlifyParse.parseP12Certificate.
  destruct (fromDer file) as [a|e]; simpl;
    [|intros [H|H]; discriminate].
  destruct (pkcs12FromAsn1 a password) as [p|e]; simpl;
    [|intros [H|H]; discriminate].
  destruct (certBags p) as [[|c l]|]; simpl; try (intros [H|H]; discriminate).
  intros [H|H]; injection H as <-; simpl; repeat split; repeat constructor.
Qed.

Lemma parse_certificate_sends_metadata_only_witness :
  exists body,
    @Server.parseCertificateRoute Examples.toyForge (Some (lit "p12")) (lit "secret")
    = Json 200 body
    /\ keys body = metadataKeys
    /\ prop "cert" body = None /\ prop "p12" body = None
    /\ Forall (fun kv => isMetadata (snd kv)) body.
Proof.
  eexists. split; [reflexivity|].
  apply (@parse_certificate_sends_metadata_only Examples.toyForge
           (lit "p12") (lit "secret")).
  left; reflexivity.
Defined.

(** C6: for every buffer that forge parses as a container and every password
    with which forge fails to open it, [parseP12Certificate] returns the
    object [{ success: false, error }] with the message of forge; being a
    value, it is not an exception.  The signing endpoints then answer with
    status 500 and [{ error }], send no PDF, and (for the server with the
    timestamp and LTV steps) call no network service. *)
Theorem wrong_password_is_structured_failure (engine : Engine)
    (forge : Forge) (crypto : Crypto)
    (net : Network) (pdflib : PdfLib)
    (pdf p12Buffer password reason location : str) (overlay : option str)
    (container : asn1) (msg : str) (log : list call) :
  fromDer p12Buffer = Ret container ->
  pkcs12FromAsn1 container password = Throw msg ->
  Server.parseP12Certificate p12Buffer password
  = [("success", VBool false); ("error", VStr msg)]%string
  /\ Server.signPdfRoute (Some pdf) (Some p12Buffer) password reason location
     = Json 500 [("error"%string, VStr (lit "Invalid certificate or password: " ++ msg))]
  /\ ServerLtv.signPdfRoute (Some pdf) (Some p12Buffer) password reason location
       overlay log
     = (Json 500 [("error"%string, VStr (lit "Invalid certificate or password: " ++ msg))],
        log).
Proof.
  intros Hder Hpw.
  assert (E : Server.parseP12Certificate p12Buffer password
              = [("success", VBool false); ("error", VStr msg)]%string).
  { unfold Server.parseP12Certificate. rewrite Hder; simpl. rewrite Hpw; reflexivity. }
  split; [exact E|]. split.
  - unfold Server.signPdfRoute, Server.signPdfBody. rewrite E. reflexivity.
  - unfold ServerLtv.signPdfRoute, ServerLtv.signPdfBody. rewrite E. reflexivity.
Qed.

Lemma wrong_password_is_structured_failure_witness :
  @Server.parseP12Certificate Examples.toyForge (lit "p12") (lit "guess")
  = [("success", VBool false);
     ("error", VStr (lit "PKCS#12 MAC could not be verified. Invalid password?"))]%string
  /\ @Server.signPdfRoute Examples.toyForge Examples.toyPdfLib
       (Some (lit "%PDF")) (Some (lit "p12")) (lit "guess") [] []
     = Json 500 [("error"%string, VStr (lit "Invalid certificate or password: "
                   ++ lit "PKCS#12 MAC could not be verified. Invalid password?"))]
  /\ @ServerLtv.signPdfRoute Examples.nodeEngine
      Examples.toyForge Examples.toyCrypto Examples.deadNetwork
       Examples.toyPdfLib (Some (lit "%PDF")) (Some (lit "p12")) (lit "guess") [] []
       None []
     = (Json 500 [("error"%string, VStr (lit "Invalid certificate or password: "
                    ++ lit "PKCS#12 MAC could not be verified. Invalid password?"))],
        []).
Proof.
  apply (@wrong_password_is_structured_failure Examples.nodeEngine
      Examples.toyForge Examples.toyCrypto
           Examples.deadNetwork Examples.toyPdfLib (lit "%PDF") (lit "p12")
           (lit "guess") [] [] None (Prim 0 4 (lit "p12"))
           (lit "PKCS#12 MAC could not be verified. Invalid password?") []);
    reflexivity.
Defined.

End CredentialClaims.

(** ** The timestamp step *)

Module StringFacts.
Import LangFacts.

Lemma prefixb_app (p s : str) : prefixb p s = true -> s = p ++ skipn (length p) s.
Proof.
  revert s; induction p as [|a p IH]; intros s; simpl; [reflexivity|].
  destruct s as [|b s]; [discriminate|]. intros H.
  apply andb_prop in H as [H1 H2]. apply N.eqb_eq, code_inj in H1. subst b.
  f_equal. apply IH; exact H2.
Qed.

Lemma prefixb_refl_app (p s : str) : prefixb p (p ++ s) = true.
Proof.
  induction p as [|a p IH]; simpl; [reflexivity|].
  rewrite N.eqb_refl. exact IH.
Qed.

Lemma split_first_spec (pat s a b : str) :
  split_first pat s = Some (a, b) -> s = a ++ pat ++ b.
Proof.
  revert a b; induction s as [|c t IH]; intros a b; simpl.
  - destruct (prefixb pat []) eqn:E; [|discriminate].
    intros [= <- <-]. apply prefixb_app in E. exact E.
  - destruct (prefixb pat (c :: t)) eqn:E.
    + intros [= <- <-]. apply prefixb_app in E. exact E.
    + destruct (split_first pat t) as [[a' b']|]; [|discriminate].
      intros [= <- <-]. simpl. f_equal. apply IH; reflexivity.
Qed.

(** Replacing a text by one of the same length keeps the length. *)
Lemma replace_str_length (pat by_ s : str) :
  length by_ = length pat -> length (replace_str pat by_ s) = length s.
Proof.
  intros H. unfold replace_str.
  destruct (split_first pat s) as [[a b]|] eqn:E; [|reflexivity].
  apply split_first_spec in E. subst s. rewrite !length_app. lia.
Qed.

Lemma toHex_length (b : str) : length (toHex b) = 2 * length b.
Proof. induction b as [|c t IH]; simpl; lia. Qed.

Lemma padEnd_length (s : str) (n : nat) (fill : ascii) :
  length s <= n -> length (padEnd s n fill) = n.
Proof. intros H. unfold padEnd. rewrite length_app, repeat_length. lia. Qed.

End StringFacts.

Module TsaClaims.
Import StringFacts TsaHelper.

(** What replaces the placeholder is the hex of the new signature with zeros
    after it, as wide as the placeholder. *)
Lemma tsa_helper_pads_to_width (pdfBuffer oldSignatureHex newSignature : str) :
  length (toHex newSignature) <= length oldSignatureHex ->
  exists zeros,
    replaceSignatureInPDF pdfBuffer oldSignatureHex newSignature
    = replace_str (lit "/Contents <" ++ oldSignatureHex ++ lit ">")
                  (lit "/Contents <" ++ (toHex newSignature ++ repeat "0"%char zeros)
                   ++ lit ">") pdfBuffer
    /\ length (toHex newSignature ++ repeat "0"%char zeros) = length oldSignatureHex.
Proof.
  intros H. exists (length oldSignatureHex - length (toHex newSignature)).
  unfold replaceSignatureInPDF.
  replace (length oldSignatureHex <? length (toHex newSignature)) with false
    by (symmetry; apply Nat.ltb_ge; exact H).
  split; [reflexivity|]. apply (padEnd_length _ "0"%char H).
Qed.

(** tsa-helper.js: [replaceSignatureInPDF] keeps the length of the PDF, and
    gives the PDF back when the new signature does not fit. *)
Lemma tsa_helper_replace_keeps_length (pdfBuffer oldSignatureHex newSignature : str) :
  length (replaceSignatureInPDF pdfBuffer oldSignatureHex newSignature)
  = length pdfBuffer
  /\ (length oldSignatureHex < length (toHex newSignature) ->
      replaceSignatureInPDF pdfBuffer oldSignatureHex newSignature = pdfBuffer).
Proof.
  unfold replaceSignatureInPDF.
  destruct (length oldSignatureHex <? length (toHex newSignature)) eqn:E.
  - split; reflexivity.
  - apply Nat.ltb_ge in E. split; [|lia].
    apply replace_str_length. rewrite !length_app.
    rewrite (padEnd_length _ "0"%char E). reflexivity.
Qed.

(** tsa-helper.js: whatever the network and forge do, [addTimestampToPDF]
    returns a buffer as long as the signed one. *)
Lemma tsa_helper_embedding_keeps_length {forge : Forge} {crypto : Crypto}
    {net : Network} (signedPdf tsaUrl : str) (log : list call) :
  exists newPdf log',
    addTimestampToPDF signedPdf tsaUrl log = (Ret newPdf, log')
    /\ length newPdf = length signedPdf.
Proof.
  unfold addTimestampToPDF, io_catch, io_bind, io_throw, io_ret.
  destruct (extractSignatureFromPDF signedPdf) as [e|]; [|eauto].
  destruct (requestTimestamp (signature e) tsaUrl log) as [[t|err] log'].
  - do 2 eexists; split; [reflexivity|].
    apply tsa_helper_replace_keeps_length.
  - eauto.
Qed.

(** C1 fails on the Netlify function: its [replaceSignatureInPDF] has no check
    of the width, and [padEnd] does not shorten, so a signature whose hex is
    longer than the placeholder makes the PDF longer: here 16 bytes come out
    of 14. *)
Theorem netlify_replace_outgrows_placeholder :
  NetlifySign.replaceSignatureInPDF (lit "/Contents <00>") (lit "00") (lit "AB")
  = lit "/Contents <4142>"
  /\ length (NetlifySign.replaceSignatureInPDF (lit "/Contents <00>") (lit "00") (lit "AB"))
     <> length (lit "/Contents <00>")
  /\ TsaHelper.replaceSignatureInPDF (lit "/Contents <00>") (lit "00") (lit "AB")
     = lit "/Contents <00>".
Proof. split; [reflexivity|]. split; [discriminate | reflexivity]. Qed.

(** One round with a server that fails throws, having made its one call. *)
Lemma round_fails {forge : Forge} {crypto : Crypto} {net : Network}
    (n : nat) (data url : str) (log : list call) :
  failed (answer log (tsaQuery data url)) ->
  exists e,
    requestTimestamp_rounds (S n) data url log
    = (if str_eqb url FREETSA
       then io_catch (requestTimestamp_rounds n data DIGICERT)
              (fun _ => io_throw (lit "All TSA servers unavailable: " ++ e))
       else io_throw e) (log ++ [tsaQuery data url]).
Proof.
  intros H. cbn [requestTimestamp_rounds].
  unfold io_catch at 1. unfold io_bind, axios_post. fold (tsaQuery data url).
  destruct (answer log (tsaQuery data url)) as [msg|status d]; simpl in H.
  - exists msg; reflexivity.
  - destruct ((200 <=? status) && (status <? 300))%Z;
      [|eexists; reflexivity].
    cbn [fst snd]. destruct (status =? 200)%Z eqn:E.
    + apply Z.eqb_eq in E. contradiction.
    + cbn [negb]. unfold io_throw at 1. eexists; reflexivity.
Qed.

(** One round with a server that answers 200 returns, having made its one
    call. *)
Lemma round_succeeds {forge : Forge} {crypto : Crypto} {net : Network}
    (n : nat) (data url : str) (log : list call) :
  ~ failed (answer log (tsaQuery data url)) ->
  exists token,
    requestTimestamp_rounds (S n) data url log = (Ret token, log ++ [tsaQuery data url]).
Proof.
  intros H. cbn [requestTimestamp_rounds].
  unfold io_catch at 1. unfold io_bind, axios_post. fold (tsaQuery data url).
  destruct (answer log (tsaQuery data url)) as [msg|status d]; simpl in H.
  - tauto.
  - destruct (Z.eq_dec status 200) as [->|Hne]; [|tauto].
    cbn. unfold io_ret. eexists; reflexivity.
Qed.

Lemma FREETSA_not_DIGICERT : str_eqb DIGICERT FREETSA = false.
Proof. reflexivity. Qed.

(** The alternate server is asked once, whatever it answers. *)
Lemma alternate_round {forge : Forge} {crypto : Crypto} {net : Network}
    (n : nat) (data : str) (log : list call) :
  (failed (answer log (tsaQuery data DIGICERT)) /\
   exists e, requestTimestamp_rounds (S n) data DIGICERT log
             = (Throw e, log ++ [tsaQuery data DIGICERT]))
  \/ (~ failed (answer log (tsaQuery data DIGICERT)) /\
      exists token, requestTimestamp_rounds (S n) data DIGICERT log
                    = (Ret token, log ++ [tsaQuery data DIGICERT])).
Proof.
  assert (D : failed (answer log (tsaQuery data DIGICERT))
              \/ ~ failed (answer log (tsaQuery data DIGICERT))).
  { destruct (answer log (tsaQuery data DIGICERT)) as [msg|status d]; simpl; auto.
    destruct (Z.eq_dec status 200); auto. }
  destruct D as [H|H].
  - left. split; auto. destruct (round_fails n data DIGICERT log H) as [e He].
    rewrite FREETSA_not_DIGICERT in He. eauto.
  - right. split; auto. apply round_succeeds; auto.
Qed.

Lemma rounds_congr {forge : Forge} {crypto : Crypto} {net : Network}
    (m m' : nat) (data url : str) (log : list call) :
  (forall l, requestTimestamp_rounds m data DIGICERT l
             = requestTimestamp_rounds m' data DIGICERT l) ->
  requestTimestamp_rounds (S m) data url log
  = requestTimestamp_rounds (S m') data url log.
Proof.
  intros H. cbn [requestTimestamp_rounds]. unfold io_catch at 1 3.
  match goal with
  | |- context [io_bind ?a ?k log] => destruct (io_bind a k log) as [[t|e] l]
  end; [reflexivity|].
  destruct (str_eqb url FREETSA); [|reflexivity].
  unfold io_catch. rewrite H. reflexivity.
Qed.

(** Two rounds are all that [requestTimestamp] ever takes: more of them
    change nothing. *)
Lemma requestTimestamp_rounds_enough {forge : Forge} {crypto : Crypto}
    {net : Network} (n : nat) (data url : str) (log : list call) :
  requestTimestamp_rounds (S (S n)) data url log = requestTimestamp data url log.
Proof.
  unfold requestTimestamp. apply rounds_congr. intros l.
  cbn [requestTimestamp_rounds].
  change (str_eqb DIGICERT FREETSA) with false. reflexivity.
Qed.

(** With the default server as the primary one: when the call to it fails
    (no response, a timeout, a status other than 200), tsa-helper.js calls the
    alternate server, once, and nothing else; when that call fails too,
    [addTimestampToPDF] and the timestamp step of the server return the
    signed buffer as it was. *)
Lemma default_tsa_retries_once_then_skips {forge : Forge} {crypto : Crypto}
    {net : Network} (signedPdf : str) (e : extracted) (log : list call) :
  extractSignatureFromPDF signedPdf = Some e ->
  failed (answer log (tsaQuery (signature e) FREETSA)) ->
  snd (addTimestampToPDF signedPdf FREETSA log)
  = log ++ [tsaQuery (signature e) FREETSA; tsaQuery (signature e) DIGICERT]
  /\ (failed (answer (log ++ [tsaQuery (signature e) FREETSA])
                     (tsaQuery (signature e) DIGICERT)) ->
      addTimestampToPDF signedPdf FREETSA log
      = (Ret signedPdf,
         log ++ [tsaQuery (signature e) FREETSA; tsaQuery (signature e) DIGICERT])
      /\ ServerLtv.tsaStage signedPdf log
         = (Ret signedPdf,
            log ++ [tsaQuery (signature e) FREETSA; tsaQuery (signature e) DIGICERT])).
Proof.
  intros He H1.
  assert (L : forall l : list call, (l ++ [tsaQuery (signature e) FREETSA])
                ++ [tsaQuery (signature e) DIGICERT]
              = l ++ [tsaQuery (signature e) FREETSA; tsaQuery (signature e) DIGICERT]).
  { intros l. rewrite <- app_assoc. reflexivity. }
  destruct (round_fails 1 (signature e) FREETSA log H1) as [e1 E1].
  change (requestTimestamp_rounds 2) with requestTimestamp in E1.
  change (str_eqb FREETSA FREETSA) with true in E1. cbv iota in E1.
  unfold io_catch in E1.
  destruct (alternate_round 0 (signature e) (log ++ [tsaQuery (signature e) FREETSA]))
    as [(F2 & e2 & E2)|(F2 & t & E2)]; rewrite E2, L in E1.
  - assert (A : addTimestampToPDF signedPdf FREETSA log
                = (Ret signedPdf,
                   log ++ [tsaQuery (signature e) FREETSA;
                           tsaQuery (signature e) DIGICERT])).
    { unfold addTimestampToPDF, io_catch, io_bind. rewrite He, E1. reflexivity. }
    split; [rewrite A; reflexivity|]. intros _. split; [exact A|].
    unfold ServerLtv.tsaStage, io_catch, io_bind. rewrite A.
    destruct signedPdf; reflexivity.
  - split; [|intros F; contradiction].
    unfold addTimestampToPDF, io_catch, io_bind. rewrite He, E1. reflexivity.
Qed.

Lemma signedPdf_extracted :
  extractSignatureFromPDF Examples.signedPdf = Some Examples.signedPdfSignature.
Proof. vm_compute. reflexivity. Qed.

End TsaClaims.

(** ** Texts held by a text *)

Module HoldsFacts.
Import LangFacts StringFacts.

Lemma lastIndexOf_Some (pat s : str) (i : nat) :
  lastIndexOf pat s = Some i ->
  i <= length s /\ prefixb pat (skipn i s) = true.
Proof.
  revert i; induction s as [|c t IH]; intros i; simpl.
  - destruct (prefixb pat []) eqn:E; [|discriminate]. intros [= <-]. auto.
  - destruct (lastIndexOf pat t) as [j|].
    + intros [= <-]. destruct (IH j eq_refl). split; [lia|auto].
    + destruct (prefixb pat (c :: t)) eqn:E; [|discriminate].
      intros [= <-]. split; [lia|auto].
Qed.

Lemma lastIndexOf_None (pat s : str) :
  lastIndexOf pat s = None -> ~ Holds pat s.
Proof.
  induction s as [|c t IH]; simpl.
  - destruct (prefixb pat []) eqn:E; [discriminate|]. intros _ (a & b & H).
    destruct a; [|discriminate]. simpl in H. rewrite H, prefixb_refl_app in E.
    discriminate.
  - destruct (lastIndexOf pat t); [discriminate|].
    destruct (prefixb pat (c :: t)) eqn:E; [discriminate|].
    intros _ (a & b & H). destruct a as [|x a]; simpl in H.
    + rewrite H, prefixb_refl_app in E. discriminate.
    + injection H as -> H. apply IH; [reflexivity|]. exists a, b; exact H.
Qed.

Lemma not_Holds_lastIndexOf (pat s : str) :
  ~ Holds pat s -> lastIndexOf pat s = None.
Proof.
  intros H. destruct (lastIndexOf pat s) as [i|] eqn:E; [|reflexivity].
  exfalso; apply H. apply lastIndexOf_Some in E as [_ E].
  apply prefixb_app in E. exists (firstn i s), (skipn (length pat) (skipn i s)).
  rewrite <- E. symmetry; apply firstn_skipn.
Qed.

(** A text spliced in, which does not hold the first character of [pat] and
    does not start with a character of [pat], brings no new [pat]. *)
Lemma Holds_splice (x : ascii) (pat A B C : str) (z : ascii) (B' : str) :
  B = z :: B' -> ~ In z (x :: pat) -> ~ In x B ->
  Holds (x :: pat) (A ++ B ++ C) -> Holds (x :: pat) A \/ Holds (x :: pat) C.
Proof.
  intros EB Hz Hx (a & b & E).
  apply app_eq_app in E as [l [[E1 E2]|[E1 E2]]].
  - (* the occurrence starts in A ++ ... : A = a ++ l *)
    destruct l as [|y l].
    + rewrite app_nil_r in E1. subst a. simpl in E2.
      (* the occurrence starts where B starts *)
      rewrite EB in E2. simpl in E2. injection E2 as E2 _.
      exfalso; apply Hx. rewrite EB, E2. left; reflexivity.
    + (* (x :: pat) ++ b = (y :: l) ++ B ++ C *)
      simpl in E2. injection E2 as <- E2.
      apply app_eq_app in E2 as [l2 [[E3 E4]|[E3 E4]]].
      * (* pat = l ++ l2, b continues: l2 ++ b = B ++ C *)
        destruct l2 as [|y2 l2].
        -- rewrite app_nil_r in E3. subst l. left. exists a, []. rewrite app_nil_r.
           exact E1.
        -- rewrite EB in E4. simpl in E4. injection E4 as E4 _.
           exfalso; apply Hz. right. rewrite E3. apply in_or_app; right.
           left; symmetry; exact E4.
      * (* l = pat ++ l2 *)
        left. exists a, l2. rewrite E1, E3. reflexivity.
  - (* a = A ++ l, B ++ C = l ++ x :: pat ++ b *)
    apply app_eq_app in E2 as [l2 [[E3 E4]|[E3 E4]]].
    + (* B = l ++ l2, (x :: pat) ++ b = l2 ++ C *)
      destruct l2 as [|y2 l2].
      * simpl in E4. right. exists [], b. simpl. symmetry; exact E4.
      * simpl in E4. injection E4 as E4 _.
        exfalso; apply Hx. rewrite E3. apply in_or_app; right. left.
        symmetry; exact E4.
    + (* l = B ++ l2, C = l2 ++ x :: pat ++ b *)
      right. exists l2, b. exact E4.
Qed.

Lemma string_of_uint_digits (d : Decimal.uint) :
  Forall (fun c => isDigit c = true)
         (list_ascii_of_string (NilEmpty.string_of_uint d)).
Proof. induction d; simpl; constructor; auto. Qed.

Lemma decimal_digits (n : N) : Forall (fun c => isDigit c = true) (decimal n).
Proof. apply string_of_uint_digits. Qed.

End HoldsFacts.

(** ** The DSS step: failures *)

Module DssFailureClaims.
Import SearchFacts LangFacts StringFacts HoldsFacts LtvHelper.

Lemma str_eqb_refl (s : str) : str_eqb s s = true.
Proof. unfold str_eqb. destruct (list_eq_dec ascii_dec s s); congruence. Qed.

Lemma str_eqb_eq (a b : str) : str_eqb a b = true -> a = b.
Proof. unfold str_eqb. destruct (list_eq_dec ascii_dec a b); [auto|discriminate]. Qed.

Lemma numToString_no_x (n : num) : ~ In "x"%char (numToString n).
Proof.
  assert (D : forall k, ~ In "x"%char (decimal k)).
  { intros k H. pose proof (decimal_digits k) as F. rewrite Forall_forall in F.
    apply F in H. discriminate. }
  destruct n as [|z]; simpl.
  - intros [H|[H|[H|[]]]]; discriminate.
  - destruct (z <? 0)%Z; [|apply D].
    intros [H|H]; [discriminate|]. apply (D _ H).
Qed.

(** The patch of the Catalog brings no [xref]. *)
Lemma catalog_patch_no_xref (pdfText : str) (dssNum : num) :
  ~ Holds (lit "xref") pdfText ->
  ~ Holds (lit "xref")
      (replace_first false catalog_re (lit "/Type /Catalog /DSS " ++ ref dssNum) pdfText).
Proof.
  intros H. unfold replace_first.
  destruct (search false catalog_re pdfText) as [m|] eqn:E; [|exact H].
  apply search_Some in E as (E & _). intros Hx.
  apply (@Holds_splice "x"%char (lit "ref") (skipped m)
           (lit "/Type /Catalog /DSS " ++ ref dssNum) (rest m) "/"%char
           (lit "Type /Catalog /DSS " ++ ref dssNum)) in Hx.
  - apply H. rewrite E. destruct Hx as [(a & b & Hs)|(a & b & Hr)].
    + exists a, (b ++ matched m ++ rest m). rewrite Hs, <- !app_assoc. reflexivity.
    + exists (skipped m ++ matched m ++ a), b. rewrite Hr, <- !app_assoc. reflexivity.
  - reflexivity.
  - intros [F|[F|[F|[F|[]]]]]; discriminate.
  - unfold ref. intros F. simpl in F.
    repeat (destruct F as [F|F]; [discriminate|]).
    apply in_app_or in F as [F|F]; [exact (numToString_no_x _ F)|].
    repeat (destruct F as [F|F]; [discriminate|]). exact F.
Qed.

(** C3, ltv-helper.js: for every buffer, every list of OCSP responses and
    every list of certificates, when the Catalog cannot be patched (the text
    holds no [/Type /Catalog]), or the text holds no [xref], or anything
    throws while the objects are built, [embedDSS] returns the buffer it was
    given, byte for byte. *)
Theorem embedDSS_failure_returns_input (engine : Engine) (forge : Forge) (pdfBuffer : str)
    (ocspResponses : list (option str)) (certs : list certificate) :
  search false catalog_re pdfBuffer = None
  \/ ~ Holds (lit "xref") pdfBuffer
  \/ (exists e, buildDSS pdfBuffer ocspResponses certs = Throw e) ->
  embedDSS pdfBuffer ocspResponses certs = pdfBuffer.
Proof.
  intros H. unfold embedDSS.
  destruct (buildDSS pdfBuffer ocspResponses certs) as [[dssNum b]|e]; [|reflexivity].
  cbn [obind ocatch].
  destruct (str_eqb _ pdfBuffer) eqn:Eq; [reflexivity|].
  destruct H as [H|[H|[e H]]]; [| |discriminate].
  - unfold replace_first in Eq. rewrite H, str_eqb_refl in Eq. discriminate.
  - rewrite (not_Holds_lastIndexOf (catalog_patch_no_xref dssNum H)). reflexivity.
Qed.

Lemma embedDSS_failure_returns_input_witness :
  @embedDSS Examples.nodeEngine
      Examples.toyForge Examples.signedPdf [] [Examples.selfSigned]
  = Examples.signedPdf.
Proof.
  apply (@embedDSS_failure_returns_input Examples.nodeEngine
      Examples.toyForge Examples.signedPdf
           [] [Examples.selfSigned]).
  left; reflexivity.
Defined.

(** ltv-helper.js: [embedDSS] returns either the buffer it was given or the
    whole result: the text with its Catalog patched and all the objects
    before the last [xref]. *)
Lemma embedDSS_all_or_nothing {engine : Engine} {forge : Forge} (pdfBuffer : str)
    (ocspResponses : list (option str)) (certs : list certificate) :
  embedDSS pdfBuffer ocspResponses certs = pdfBuffer
  \/ exists dssNum b patched xrefIndex,
       buildDSS pdfBuffer ocspResponses certs = Ret (dssNum, b)
       /\ patched = replace_first false catalog_re
                      (lit "/Type /Catalog /DSS " ++ ref dssNum) pdfBuffer
       /\ lastIndexOf (lit "xref") patched = Some xrefIndex
       /\ embedDSS pdfBuffer ocspResponses certs
          = firstn xrefIndex patched ++ join [chr 10] (map snd (dssObjects b))
            ++ [chr 10] ++ skipn xrefIndex patched.
Proof.
  unfold embedDSS.
  destruct (buildDSS pdfBuffer ocspResponses certs) as [[dssNum b]|e]; [|left; reflexivity].
  cbn [obind ocatch].
  destruct (str_eqb _ pdfBuffer) eqn:Eq; [left; reflexivity|].
  destruct (lastIndexOf (lit "xref") _) as [i|] eqn:Ei; [|left; reflexivity].
  right. exists dssNum, b. eexists. exists i. repeat split; eauto.
Qed.

(** The LTV step of the server never throws, and returns the signed buffer
    or what [embedDSS] made of it. *)
Lemma ltvStage_returns_signed_or_embedded {engine : Engine}
    {forge : Forge} {crypto : Crypto}
    {net : Network} (signedPdf : str) (p12 : pkcs12) (log : list call) :
  exists out log',
    ServerLtv.ltvStage signedPdf p12 log = (Ret out, log')
    /\ (out = signedPdf
        \/ exists ocspResponses,
             out = embedDSS signedPdf ocspResponses (extractCertChain p12)).
Proof.
  unfold ServerLtv.ltvStage, ServerLtv.ltvStageWith, io_catch, io_bind, io_ret.
  destruct (extractCertChain p12) as [|cert more]; [eauto|].
  destruct (ServerLtv.isSelfSigned cert); [eauto 6|].
  destruct more as [|issuerCert more]; [eauto 6|].
  destruct (requestOCSP cert issuerCert log) as [[r|e] log']; eauto 6.
Qed.

(** netlify/functions/sign-pdf.js: without [xref], its [embedDSS] returns the
    buffer it was given, unless it throws. *)
Lemma netlify_embedDSS_without_xref {engine : Engine} {forge : Forge} (pdfBuffer : str)
    (ocspResponses : list (option str)) (certs : list certificate) (out : str) :
  ~ Holds (lit "xref") pdfBuffer ->
  NetlifySign.embedDSS pdfBuffer ocspResponses certs = Ret out -> out = pdfBuffer.
Proof.
  intros H. unfold NetlifySign.embedDSS.
  destruct (NetlifySign.buildDSS pdfBuffer ocspResponses certs) as [b|e];
    [|discriminate].
  cbn [obind]. rewrite (not_Holds_lastIndexOf H). intros [= <-]. reflexivity.
Qed.

(** netlify/functions/sign-pdf.js: the LTV step never throws, and returns the
    signed buffer or what [embedDSS] made of it. *)
Lemma netlify_ltvStage_returns_signed_or_embedded {engine : Engine}
    {forge : Forge} {crypto : Crypto}
    {net : Network} (signedPdf p12Buffer password : str) (log : list call) :
  exists out log',
    NetlifySign.ltvStage signedPdf p12Buffer password log = (Ret out, log')
    /\ (out = signedPdf
        \/ exists ocspResponses certs,
             NetlifySign.embedDSS signedPdf ocspResponses certs = Ret out).
Proof.
  unfold NetlifySign.ltvStage, NetlifySign.ltvStageWith, io_catch, io_bind, io_ret, io_lift.
  destruct (NetlifySign.extractCertChain p12Buffer password) as [[|cert more]|e];
    [eauto|..|eauto].
  destruct (NetlifySign.isSelfSigned cert).
  { destruct (NetlifySign.embedDSS signedPdf [] (cert :: more)) eqn:E; eauto 8. }
  destruct more as [|issuerCert more].
  { destruct (NetlifySign.embedDSS signedPdf [] [cert]) eqn:E; eauto 8. }
  destruct (NetlifySign.requestOCSP cert issuerCert log) as [[r|e] log']; [|eauto].
  destruct (NetlifySign.embedDSS signedPdf _ (cert :: issuerCert :: more)) eqn:E;
    eauto 8.
Qed.

End DssFailureClaims.

(** ** The DSS step: the branches on the certificate chain *)

Module LtvBranchClaims.
Import DssFailureClaims LtvHelper.

Lemma findOCSPUrl_Some {forge : Forge} (items : list asn1) (url : str) :
  findOCSPUrl items = Ret (Some url) ->
  exists c' t' c1 t1 oid c2 t2 others,
    In (Constr c' t' (Prim c1 t1 oid :: Prim c2 t2 url :: others)) items
    /\ derToOid oid = OCSP_OID.
Proof.
  induction items as [|item more IH]; cbn [findOCSPUrl]; [discriminate|].
  assert (R : findOCSPUrl more = Ret (Some url) ->
              exists c' t' c1 t1 oid c2 t2 others,
                In (Constr c' t' (Prim c1 t1 oid :: Prim c2 t2 url :: others))
                   (item :: more)
                /\ derToOid oid = OCSP_OID).
  { intros H. destruct (IH H) as (c' & t' & c1 & t1 & oid & c2 & t2 & others & Hin & Ho).
    exists c', t', c1, t1, oid, c2, t2, others. split; [right; exact Hin | exact Ho]. }
  destruct item as [c t [|x v]|c t [|[c1 t1 oid|c1 t1 l] others]]; auto; try discriminate.
  destruct others as [|[c2 t2 u|c2 t2 l] others]; auto.
  destruct (str_eqb (derToOid oid) OCSP_OID) eqn:Eo; cbn [andb]; auto.
  destruct (prefixb (lit "http") u); auto.
  intros [= ->]. apply str_eqb_eq in Eo.
  exists c, t, c1, t1, oid, c2, t2, others. split; [left; reflexivity | exact Eo].
Qed.

(** [getOCSPUrl] only finds a URL in a certificate that has the AIA
    extension with the OCSP access method. *)
Lemma getOCSPUrl_Some {forge : Forge} (cert : certificate) (url : str) :
  getOCSPUrl cert = Some url -> HasOcspAccess cert url.
Proof.
  unfold getOCSPUrl, HasOcspAccess.
  destruct (extensions cert) as [exts|] eqn:Ee; simpl; [|discriminate].
  destruct (find (fun ext => str_eqb (ext_id ext) AIA_OID) exts) as [aia|] eqn:Ef;
    simpl; [|discriminate].
  apply find_some in Ef as [Hin Hid]. apply str_eqb_eq in Hid.
  destruct (fromDer (ext_value aia)) as [[c t v|c t items]|e] eqn:Ed; simpl;
    try discriminate.
  destruct (findOCSPUrl items) as [[u|]|e] eqn:Eu; simpl; try discriminate.
  intros [= ->]. apply findOCSPUrl_Some in Eu
    as (c' & t' & c1 & t1 & oid & c2 & t2 & others & Hitem & Ho).
  exists exts, aia, c, t, items, c', t', c1, t1, oid, c2, t2, others. auto 8.
Qed.


(** Building the request throws: [toDer] is given the name of the issuer,
    which is no ASN.1 node. *)
Lemma createOCSPRequest_throws {forge : Forge} {crypto : Crypto}
    (cert issuerCert : certificate) :
  exists e, createOCSPRequest cert issuerCert = Throw e.
Proof. eexists. reflexivity. Qed.

(** So [requestOCSP] of ltv-helper.js returns [null] and posts nothing. *)
Lemma requestOCSP_null {forge : Forge} {crypto : Crypto} {net : Network}
    (cert issuerCert : certificate) (log : list call) :
  requestOCSP cert issuerCert log = (Ret None, log).
Proof.
  unfold requestOCSP, io_catch, io_bind, io_lift, io_ret.
  destruct (getOCSPUrl cert); reflexivity.
Qed.

(** [requestOCSP] of the Netlify function returns [null] without a URL, and
    with one throws what building the request throws; it posts nothing. *)
Lemma netlify_requestOCSP_outcome {forge : Forge} {crypto : Crypto} {net : Network}
    (cert issuerCert : certificate) (log : list call) :
  NetlifySign.requestOCSP cert issuerCert log
  = (match NetlifySign.getOCSPUrl cert with
     | None | Some (NetlifySign.UrlText []) => Ret None
     | Some _ => Throw (lit "Cannot read properties of undefined (reading 'length')")
     end, log).
Proof.
  unfold NetlifySign.requestOCSP.
  destruct (NetlifySign.getOCSPUrl cert) as [[[|c url]|l]|]; reflexivity.
Qed.






End LtvBranchClaims.

(** ** Numbers *)

Module NumberFacts.
Import LangFacts.

Lemma round53_exact (n : Z) : (Z.abs n <= maxExact)%Z -> round53 n = n.
Proof.
  unfold round53, maxExact. intros H.
  replace (Z.abs n <=? 2 ^ 53)%Z with true by (symmetry; apply Z.leb_le; exact H).
  reflexivity.
Qed.

Lemma digit_step_mono (ds : str) (a b : N) :
  (a <= b)%N ->
  (fold_left (fun acc c => match digitVal c with
                           | Some d => acc * 10 + d
                           | None => acc
                           end) ds a
   <= fold_left (fun acc c => match digitVal c with
                              | Some d => acc * 10 + d
                              | None => acc
                              end) ds b)%N.
Proof.
  revert a b; induction ds as [|c t IH]; intros a b H; simpl; [exact H|].
  apply IH. destruct (digitVal c); lia.
Qed.

(** The digits at the end of a run write a number that is no more than the
    whole run does. *)
Lemma value10_suffix (a b : str) : (value10 b <= value10 (a ++ b))%Z.
Proof.
  unfold value10, digitsValue. rewrite fold_left_app.
  apply N2Z.inj_le. apply digit_step_mono. lia.
Qed.

Lemma value10_nonneg (ds : str) : (0 <= value10 ds)%Z.
Proof. unfold value10. lia. Qed.

Lemma span_app (p : ascii -> bool) (l r : str) :
  Forall (fun c => p c = true) l ->
  (forall c t, r = c :: t -> p c = false) ->
  span p (l ++ r) = (l, r).
Proof.
  intros Hl Hr. induction Hl as [|c l Hc _ IH]; simpl.
  - destruct r as [|c t]; [reflexivity|]. simpl. rewrite (Hr c t eq_refl). reflexivity.
  - rewrite Hc, IH. reflexivity.
Qed.

Lemma space_not_digit (c : ascii) : isSpace c = true -> isDigit c = false.
Proof.
  unfold isSpace, isDigit. intros H.
  apply andb_false_iff.
  destruct (48 <=? code c)%N eqn:E1; [right|left; reflexivity].
  apply N.leb_le in E1. apply N.leb_gt.
  apply orb_prop in H as [H|H]; [apply orb_prop in H as [H|H]|].
  - apply andb_prop in H as [_ H]. apply N.leb_le in H. lia.
  - apply N.eqb_eq in H. lia.
  - apply N.eqb_eq in H. lia.
Qed.

Lemma digit_is_radix10 (c : ascii) : isDigit c = true -> isRadixDigit 10 c = true.
Proof.
  unfold isDigit, isRadixDigit, digitVal. intros H. rewrite H.
  apply andb_prop in H as [H1 H2]. apply N.leb_le in H1, H2.
  apply N.ltb_lt. lia.
Qed.

Lemma not_digit_not_radix10 (c : ascii) : isDigit c = false -> isRadixDigit 10 c = false.
Proof.
  unfold isDigit, isRadixDigit, digitVal. intros H. rewrite H.
  destruct ((97 <=? code c) && (code c <=? 122))%N eqn:E1.
  - apply andb_prop in E1 as [E1 _]. apply N.leb_le in E1. apply N.ltb_ge. lia.
  - destruct ((65 <=? code c) && (code c <=? 90))%N eqn:E2; [|reflexivity].
    apply andb_prop in E2 as [E2 _]. apply N.leb_le in E2. apply N.ltb_ge. lia.
Qed.

(** [parseInt] of a text that starts with digits and goes on with white
    space, or ends there: the number of these digits, as a double. *)
Lemma parseInt_digits (ds r : str) :
  Forall (fun c => isDigit c = true) ds -> ds <> [] ->
  (forall c t, r = c :: t -> isSpace c = true) ->
  parseInt (ds ++ r) None = Num (round53 (value10 ds)).
Proof.
  intros Hd Hne Hs.
  assert (Hr : forall c t, r = c :: t -> isDigit c = false).
  { intros c t E. apply space_not_digit. eauto. }
  destruct ds as [|d ds]; [congruence|].
  inversion Hd as [|? ? Hd0 Hds]; subst.
  assert (Hd1 : isSpace d = false).
  { destruct (isSpace d) eqn:E; [|reflexivity].
    apply space_not_digit in E. congruence. }
  assert (R : span (isRadixDigit 10) ((d :: ds) ++ r) = (d :: ds, r)).
  { apply span_app.
    - rewrite Forall_forall in *. intros c Hc. apply digit_is_radix10. auto.
    - intros c t E. apply not_digit_not_radix10. eauto. }
  unfold parseInt. simpl app. cbn [span]. rewrite Hd1. cbn [snd].
  assert (C45 : (code d =? 45)%N = false).
  { unfold isDigit in Hd0. apply andb_prop in Hd0 as [H1 _]. apply N.leb_le in H1.
    apply N.eqb_neq. lia. }
  assert (C43 : (code d =? 43)%N = false).
  { unfold isDigit in Hd0. apply andb_prop in Hd0 as [H1 _]. apply N.leb_le in H1.
    apply N.eqb_neq. lia. }
  rewrite C45, C43.
  assert (Hx : match ds ++ r with
               | b :: _ => ((code d =? 48) && ((code b =? 120) || (code b =? 88)))%N
               | [] => false
               end = false).
  { destruct ds as [|b ds]; simpl.
    - destruct r as [|b r]; [reflexivity|]. specialize (Hs b r eq_refl).
      apply andb_false_iff; right. apply orb_false_iff.
      unfold isSpace in Hs. split; apply N.eqb_neq; intros E; rewrite E in Hs;
        discriminate.
    - inversion Hds; subst. apply andb_false_iff; right. apply orb_false_iff.
      split; apply N.eqb_neq; intros E;
        match goal with H : isDigit b = true |- _ => unfold isDigit in H; rewrite E in H end;
        discriminate. }
  rewrite Hx. cbn [andb]. change ((d :: ds) ++ r) with (d :: ds ++ r) in R.
  rewrite R. reflexivity.
Qed.

End NumberFacts.

(** ** Object markers *)

Module MarkerFacts.
Import RegexFacts SearchFacts LangFacts NumberFacts LtvHelper.

Lemma Matches_obj (m : str) :
  Matches false obj_re m <->
  exists ds w1 w2,
    m = ds ++ w1 ++ lit "0" ++ w2 ++ lit "obj"
    /\ (allDigits ds /\ ds <> []) /\ (allSpace w1 /\ w1 <> [])
    /\ (allSpace w2 /\ w2 <> []).
Proof.
  unfold obj_re, word. rewrite !cat_cons, cat_one. split.
  - intros Hm.
    apply Matches_Cat in Hm as (ds & m1 & -> & Hd & Hm).
    apply Matches_Cat in Hm as (w1 & m2 & -> & H1 & Hm).
    apply Matches_Cat in Hm as (z & m3 & -> & Hz & Hm).
    apply Matches_Cat in Hm as (w2 & o & -> & H2 & Ho).
    apply Matches_Cap, Matches_plus in Hd. apply Matches_plus in H1, H2.
    apply Matches_word_cs in Hz, Ho. subst z o.
    exists ds, w1, w2. auto.
  - intros (ds & w1 & w2 & -> & Hd & H1 & H2).
    apply Matches_Cat; exists ds, (w1 ++ lit "0" ++ w2 ++ lit "obj"); repeat split.
    { apply Matches_Cap, Matches_plus; auto. }
    apply Matches_Cat; exists w1, (lit "0" ++ w2 ++ lit "obj"); repeat split.
    { apply Matches_plus; auto. }
    apply Matches_Cat; exists (lit "0"), (w2 ++ lit "obj"); repeat split.
    { apply Matches_word_cs; reflexivity. }
    apply Matches_Cat; exists w2, (lit "obj"); repeat split.
    { apply Matches_plus; auto. }
    apply Matches_word_cs; reflexivity.
Qed.

Lemma head_space_not_digit (w r : str) :
  allSpace w -> w <> [] -> forall c t, w ++ r = c :: t -> isDigit c = false.
Proof.
  intros Hw Hne c t E. destruct w as [|x w]; [congruence|].
  injection E as -> _. inversion Hw; subst. apply space_not_digit; auto.
Qed.

Lemma head_space (w r : str) :
  allSpace w -> w <> [] -> forall c t, w ++ r = c :: t -> isSpace c = true.
Proof.
  intros Hw Hne c t E. destruct w as [|x w]; [congruence|].
  injection E as -> _. inversion Hw; subst. auto.
Qed.

(** A text that starts with a marker: the number at its head is the number
    of the marker. *)
Lemma MarkerAt_headNumber (s : str) (N : Z) : MarkerAt s N -> N = headNumber s.
Proof.
  intros (ds & w1 & w2 & post & -> & [Hd Hne] & [H1 Hn1] & _ & ->).
  unfold headNumber. rewrite span_app; auto.
  apply head_space_not_digit; auto.
Qed.

Lemma Matches_obj_MarkerAt (m post : str) :
  Matches false obj_re m -> MarkerAt (m ++ post) (headNumber m).
Proof.
  intros Hm. apply Matches_obj in Hm as (ds & w1 & w2 & -> & Hd & H1 & H2).
  exists ds, w1, w2, post. rewrite <- !app_assoc. repeat split; try tauto.
  unfold headNumber. rewrite span_app; try tauto.
  apply head_space_not_digit; tauto.
Qed.

Lemma MarkerAt_Matches (s : str) (N : Z) :
  MarkerAt s N -> exists m post, s = m ++ post /\ Matches false obj_re m.
Proof.
  intros (ds & w1 & w2 & post & -> & Hd & H1 & H2 & _).
  exists (ds ++ w1 ++ lit "0" ++ w2 ++ lit "obj"), post.
  rewrite <- !app_assoc. split; [reflexivity|].
  apply Matches_obj. exists ds, w1, w2. auto.
Qed.

(** The longest run is the first that a greedy repetition tries. *)
Lemma takes_last (p : ascii -> bool) (s : str) :
  exists l, takes p s = l ++ [snd (span p s)]
            /\ length l = length (fst (span p s)).
Proof.
  induction s as [|c t IH]; simpl.
  - exists []; auto.
  - destruct (p c) eqn:E.
    + destruct IH as (l & El & Hl). destruct (span p t) as [a b]. simpl in *.
      exists ((c :: t) :: l). rewrite El. simpl. auto.
    + exists []; auto.
Qed.

Lemma exec_here_plus (p : ascii -> bool) (s : str) :
  fst (span p s) <> [] ->
  exec_here false (plus p) s = Some ([], snd (span p s)).
Proof.
  intros H. unfold exec_here, plus. cbn [run]. unfold window.
  destruct (takes_last p s) as (l & -> & Hl).
  destruct l as [|x l].
  - destruct (fst (span p s)); [congruence|discriminate].
  - simpl. rewrite rev_app_distr. reflexivity.
Qed.

Lemma span_fst_snd (p : ascii -> bool) (s : str) :
  s = fst (span p s) ++ snd (span p s).
Proof.
  induction s as [|c t IH]; simpl; [reflexivity|].
  destruct (p c); [|reflexivity]. destruct (span p t) as [a b]. simpl in *.
  f_equal. exact IH.
Qed.

(** [m.match(/\d+/)[0]] is the run of digits at the head of [m]. *)
Lemma search_digits (m : str) :
  fst (span isDigit m) <> [] ->
  exists d, search false (plus isDigit) m = Some d
            /\ matched d = fst (span isDigit m).
Proof.
  intros H. pose proof (exec_here_plus isDigit m H) as E.
  destruct (search false (plus isDigit) m) as [d|] eqn:Es.
  - exists d. split; [reflexivity|].
    destruct (search_here _ _ _ E Es) as (m' & Em & _ & ->). simpl.
    pose proof (span_fst_snd isDigit m) as S. rewrite S in Em at 1.
    apply app_inv_tail in Em. auto.
  - rewrite search_eq, E in Es. discriminate.
Qed.

Lemma matches_from_sound (ci : bool) (r : regex) (fuel : nat) (s : str) (f : found) :
  In f (matches_from fuel ci r s) ->
  exists pre post, s = pre ++ matched f ++ post /\ Matches ci r (matched f).
Proof.
  revert s; induction fuel as [|n IH]; intros s; simpl; [intros []|].
  destruct (search ci r s) as [g|] eqn:E; [|intros []].
  apply search_Some in E as (Es & Hm & _). intros [<-|Hin].
  - eauto.
  - destruct (matched g) as [|x mg] eqn:Eg.
    + destruct (rest g) as [|y t] eqn:Er; [destruct Hin|].
      apply IH in Hin as (pre & post & -> & Hf).
      exists (skipped g ++ y :: pre), post. rewrite Es. simpl.
      rewrite <- app_assoc. simpl. split; auto.
    + apply IH in Hin as (pre & post & Ep & Hf).
      exists (skipped g ++ (x :: mg) ++ pre), post. rewrite Es, Ep.
      rewrite <- !app_assoc. split; auto.
Qed.

End MarkerFacts.

Module ScanFacts.
Import RegexFacts SearchFacts LangFacts NumberFacts MarkerFacts LtvHelper.

(** In the tail of a marker, after its number, the only digit is the [0] of
    the generation. *)
Lemma digit_in_marker_tail (w1 w2 k : str) (c : ascii) (t : str) :
  allSpace w1 -> allSpace w2 ->
  w1 ++ lit "0" ++ w2 ++ lit "obj" = k ++ c :: t -> isDigit c = true ->
  c :: t = lit "0" ++ w2 ++ lit "obj".
Proof.
  intros H1 H2 E Hc.
  assert (NS : forall w x y, allSpace w -> w = x ++ c :: y -> False).
  { intros w x y Hw ->. unfold allSpace in Hw. rewrite Forall_forall in Hw.
    assert (Hs : isSpace c = true) by (apply Hw, in_or_app; right; left; reflexivity).
    apply space_not_digit in Hs. congruence. }
  apply app_eq_app in E as [j [[E1 E2]|[E1 E2]]].
  - (* w1 = k ++ j *)
    destruct j as [|y j]; [simpl in E2; exact E2|].
    simpl in E2. injection E2 as <- _. exfalso. apply (NS w1 k j H1). exact E1.
  - (* k = w1 ++ j *)
    destruct j as [|y j]; [simpl in E2; symmetry; exact E2|].
    simpl in E2. injection E2 as <- E2.
    apply app_eq_app in E2 as [i [[E3 E4]|[E3 E4]]].
    + destruct i as [|y i].
      * simpl in E4. injection E4 as -> _. discriminate.
      * simpl in E4. injection E4 as <- _. exfalso. apply (NS w2 j i H2). exact E3.
    + destruct i as [|y1 [|y2 [|y3 i]]]; simpl in E4; injection E4; intros; subst;
        try discriminate.
      destruct i; discriminate.
Qed.

(** A marker that starts inside a match has a number that is no more than
    the number of the match. *)
Lemma marker_inside_match (mg l l2 rg : str) (N : Z) :
  Matches false obj_re mg -> mg = l ++ l2 -> l2 <> [] ->
  MarkerAt (l2 ++ rg) N -> (N <= headNumber mg)%Z.
Proof.
  intros Hm El Hne HN.
  pose proof (MarkerAt_headNumber HN) as ->.
  destruct HN as (ds0 & w10 & w20 & post0 & E0 & [Hd0 Hne0] & _).
  apply Matches_obj in Hm as (ds & w1 & w2 & -> & [Hd Hdne] & [H1 H1ne] & [H2 H2ne]).
  assert (Hmg : headNumber (ds ++ w1 ++ lit "0" ++ w2 ++ lit "obj") = value10 ds).
  { unfold headNumber. rewrite span_app; auto. apply head_space_not_digit; auto. }
  rewrite Hmg.
  symmetry in El. apply app_eq_app in El as [k [[E1 E2]|[E1 E2]]].
  - (* l2 lies in the tail *)
    destruct l2 as [|c t]; [congruence|].
    assert (Hc : isDigit c = true).
    { destruct ds0 as [|d ds0]; [congruence|]. simpl in E0. injection E0 as -> _.
      inversion Hd0; auto. }
    apply (@digit_in_marker_tail w1 w2 k c t H1 H2 E2) in Hc. rewrite Hc.
    unfold headNumber. rewrite <- !app_assoc.
    rewrite (@span_app isDigit (lit "0") (w2 ++ lit "obj" ++ rg)).
    + apply value10_nonneg.
    + repeat constructor.
    + apply head_space_not_digit; auto.
  - (* l2 starts in the number *)
    subst l2 ds. unfold headNumber. rewrite <- !app_assoc.
    rewrite (@span_app isDigit k).
    + apply value10_suffix.
    + unfold allDigits in Hd. apply Forall_app in Hd. tauto.
    + apply head_space_not_digit; auto.
Qed.

(** Every marker of the text has a number that is no more than the number
    of one of the matches that [match] returns. *)
Lemma matches_from_dominates (fuel : nat) :
  forall s, length s < fuel ->
  forall pre txt N, s = pre ++ txt -> MarkerAt txt N ->
  exists f, In f (matches_from fuel false obj_re s)
            /\ (N <= headNumber (matched f))%Z.
Proof.
  induction fuel as [|n IH]; intros s Hlen pre txt N Es HN; [lia|].
  destruct (MarkerAt_Matches HN) as (m & post & Er & Hm).
  destruct (@search_finds false obj_re pre m post Hm) as [g Eg].
  rewrite <- Er, <- Es in Eg. cbn [matches_from]. rewrite Eg.
  apply search_Some in Eg as (Esg & Hmg & _ & Lg).
  destruct (matched g) as [|x mg] eqn:Emg.
  { apply Matches_obj in Hmg as (ds & w1 & w2 & E & [_ Hne] & _).
    destruct ds; [congruence|discriminate]. }
  rewrite <- Emg in *.
  assert (Hrest : length (rest g) < n).
  { rewrite Esg, !length_app, Emg in Hlen. simpl in Hlen. lia. }
  assert (Inside : forall l l2, matched g = l ++ l2 -> l2 <> [] ->
                     txt = l2 ++ rest g ->
                     exists f, In f (g :: matches_from n false obj_re (rest g))
                               /\ (N <= headNumber (matched f))%Z).
  { intros l l2 E Hne ->. exists g. split; [left; reflexivity|].
    eapply marker_inside_match; eauto. }
  assert (After : forall l2, rest g = l2 ++ txt ->
                    exists f, In f (g :: matches_from n false obj_re (rest g))
                              /\ (N <= headNumber (matched f))%Z).
  { intros l2 E. destruct (IH (rest g) Hrest l2 txt N E HN) as (f & Hf & Hle).
    exists f. split; [right; exact Hf | exact Hle]. }
  rewrite Esg in Es. symmetry in Es.
  apply app_eq_app in Es as [l [[E1 E2]|[E1 E2]]].
  - (* the marker starts at or after the start of the match *)
    apply app_eq_app in E2 as [l2 [[E3 E4]|[E3 E4]]].
    + destruct l2 as [|y l2].
      * simpl in E4. apply (After []). simpl. symmetry; exact E4.
      * apply (Inside l (y :: l2)); auto. discriminate.
    + apply (After l2). exact E4.
  - (* the marker starts before the match *)
    destruct l as [|y l].
    + simpl in E2. apply (Inside [] (matched g)); auto.
      rewrite Emg; discriminate.
    + exfalso. assert (Hne : y :: l <> []) by discriminate.
      specialize (Lg pre (y :: l) E1 Hne). rewrite <- E2, Er in Lg.
      apply (@exec_here_None false obj_re m post Lg Hm).
Qed.

End ScanFacts.

(** ** The numbers of the new objects *)

Module NumberingFacts.
Import RegexFacts SearchFacts LangFacts NumberFacts MarkerFacts ScanFacts LtvHelper.

(** The numbers of the matches of the marker pattern. *)
Lemma matchAll_markers (s : str) (f : found) :
  In f (matchAll false obj_re s) ->
  Matches false obj_re (matched f) /\ HasMarker s (headNumber (matched f)).
Proof.
  intros H. apply matches_from_sound in H as (pre & post & -> & Hm).
  split; [exact Hm|]. exists pre, (matched f ++ post). split; [reflexivity|].
  apply Matches_obj_MarkerAt; exact Hm.
Qed.

Lemma matchAll_dominates (s : str) (N : Z) :
  HasMarker s N ->
  exists f, In f (matchAll false obj_re s) /\ (N <= headNumber (matched f))%Z.
Proof.
  intros (pre & txt & E & HN). unfold matchAll.
  apply (@matches_from_dominates (S (length s)) s (Nat.lt_succ_diag_r _) pre txt N E HN).
Qed.

Lemma number_of_match (m : str) :
  Matches false obj_re m ->
  match search false (plus isDigit) m with
  | Some d => Ret (parseInt (matched d) None)
  | None => Throw (lit "Cannot read properties of null")
  end = Ret (Num (round53 (headNumber m)))
  /\ parseInt m None = Num (round53 (headNumber m)).
Proof.
  intros Hm. apply Matches_obj in Hm as (ds & w1 & w2 & -> & [Hd Hne] & [H1 H1ne] & _).
  assert (Sp : span isDigit (ds ++ w1 ++ lit "0" ++ w2 ++ lit "obj")
               = (ds, w1 ++ lit "0" ++ w2 ++ lit "obj")).
  { apply span_app; auto. apply head_space_not_digit; auto. }
  unfold headNumber. rewrite Sp. cbn [fst]. split.
  - destruct (@search_digits (ds ++ w1 ++ lit "0" ++ w2 ++ lit "obj"))
      as (d & -> & Ed).
    { rewrite Sp. exact Hne. }
    rewrite Ed, Sp. cbn [fst]. rewrite <- (app_nil_r ds) at 1.
    rewrite parseInt_digits; auto. intros c t E; discriminate.
  - apply parseInt_digits; auto. apply head_space; auto.
Qed.

Lemma omap_numbers (l : list found) :
  (forall f, In f l -> Matches false obj_re (matched f)) ->
  omap (fun m => match search false (plus isDigit) m with
                 | Some d => Ret (parseInt (matched d) None)
                 | None => Throw (lit "Cannot read properties of null")
                 end) (map matched l)
  = Ret (map (fun f => Num (round53 (headNumber (matched f)))) l).
Proof.
  induction l as [|f l IH]; intros H; [reflexivity|].
  cbn [map omap]. rewrite (proj1 (number_of_match (H f (or_introl eq_refl)))).
  cbn [obind]. rewrite IH; [reflexivity|]. intros g Hg. apply H. right; exact Hg.
Qed.

(** [Math.max] of numbers that are held exactly is their maximum. *)
Lemma num_max_exact (vs : list Z) :
  vs <> [] -> (forall v, In v vs -> (0 <= v <= maxExact)%Z) ->
  exists M, In M vs /\ (forall v, In v vs -> (v <= M)%Z)
            /\ num_max (map (fun v => Num (round53 v)) vs) = Num M.
Proof.
  induction vs as [|x vs IH]; [congruence|]. intros _ H.
  assert (Hx : round53 x = x).
  { apply round53_exact. specialize (H x (or_introl eq_refl)). lia. }
  destruct vs as [|y vs].
  - exists x. simpl. rewrite Hx. repeat split; auto. intros v [<-|[]]; lia.
  - destruct IH as (M & HM & Hmax & E); [discriminate|intros v Hv; apply H; right; exact Hv|].
    change (num_max (map (fun v => Num (round53 v)) (x :: y :: vs)))
      with (match Num (round53 x), num_max (map (fun v => Num (round53 v)) (y :: vs)) with
            | Num a, Num b => Num (Z.max a b)
            | _, _ => NaN
            end).
    rewrite E, Hx. exists (Z.max x M). repeat split.
    + destruct (Z.max_spec x M) as [[_ ->]|[_ ->]]; [right; exact HM | left; reflexivity].
    + intros v [<-|Hv]; [lia|]. specialize (Hmax v Hv). lia.
Qed.

(** [getNextObjectNumber], when the markers leave room for one more number:
    the greatest number of a marker plus one, and 1 when there is no
    marker; and an error when the markers are more than one call takes as
    arguments. *)
Lemma getNextObjectNumber_spec {engine : Engine} (s : str) :
  (forall N, HasMarker s N -> (N + 1 <= maxExact)%Z) ->
  exists M,
    getNextObjectNumber s
    = (if (N.of_nat (length (matchAll false obj_re s)) <=? maxArguments)%N
       then Ret (Num (M + 1))
       else Throw (lit "Maximum call stack size exceeded"))
    /\ (0 <= M)%Z
    /\ (forall N, HasMarker s N -> (N <= M)%Z)
    /\ (HasMarker s M \/ (M = 0%Z /\ forall N, ~ HasMarker s N)).
Proof.
  intros Hb. unfold getNextObjectNumber, match_g.
  destruct (matchAll false obj_re s) as [|f l] eqn:El.
  - exists 0%Z. repeat split; try reflexivity.
    + cbn [length N.of_nat]. destruct maxArguments; reflexivity.
    + intros N HN. apply matchAll_dominates in HN as (g & Hg & _).
      rewrite El in Hg. destruct Hg.
    + right. split; [reflexivity|]. intros N HN.
      apply matchAll_dominates in HN as (g & Hg & _). rewrite El in Hg. destruct Hg.
  - rewrite <- El. rewrite omap_numbers by (intros g Hg; apply (@matchAll_markers s g Hg)).
    cbn [obind]. unfold maxOfSpread. rewrite length_map.
    destruct (@num_max_exact (map (fun g => headNumber (matched g))
                                  (matchAll false obj_re s)))
      as (M & HM & Hmax & E).
    { rewrite El. discriminate. }
    { intros v Hv. apply in_map_iff in Hv as (g & <- & Hg).
      apply matchAll_markers in Hg as [_ Hg]. specialize (Hb _ Hg).
      split; [apply value10_nonneg | lia]. }
    rewrite map_map in E. rewrite E.
    apply in_map_iff in HM as (g & <- & Hg).
    pose proof (proj2 (@matchAll_markers s g Hg)) as HMk.
    exists (headNumber (matched g)). repeat split.
    + destruct (N.of_nat (length (matchAll false obj_re s)) <=? maxArguments)%N;
        [|reflexivity].
      cbn [obind]. unfold num_add. rewrite round53_exact; [reflexivity|].
      specialize (Hb _ HMk). pose proof (value10_nonneg (fst (span isDigit (matched g)))).
      unfold headNumber in *. lia.
    + apply value10_nonneg.
    + intros N HN. apply matchAll_dominates in HN as (h & Hh & Hle).
      specialize (Hmax (headNumber (matched h))
                    (in_map (fun g => headNumber (matched g)) _ _ Hh)). lia.
    + left. exact HMk.
Qed.

(** The markers of a text have numbers within a bound as soon as the
    matches of the marker pattern do, which can be computed. *)
Lemma markers_bounded_by_matches (s : str) (B : Z) :
  forallb (fun f => (headNumber (matched f) <=? B)%Z) (matchAll false obj_re s) = true ->
  forall N, HasMarker s N -> (N <= B)%Z.
Proof.
  intros H N HN. apply matchAll_dominates in HN as (f & Hf & Hle).
  rewrite forallb_forall in H. specialize (H f Hf). apply Z.leb_le in H. lia.
Qed.

End NumberingFacts.

Module NumberingClaims.
Import NumberFacts NumberingFacts LtvHelper.

Lemma Numbered_start (n0 : num) : Numbered n0 (Builder n0 []).
Proof. split; reflexivity. Qed.

Lemma Numbered_emit (n0 : num) (b : builder) (text : num -> str) :
  Numbered n0 b ->
  Numbered n0 (snd (emit b text))
  /\ length (dssObjects (snd (emit b text))) = S (length (dssObjects b)).
Proof.
  intros [H1 H2]. unfold emit, Numbered. cbn [snd dssObjects objectNumber].
  rewrite length_app, Nat.add_1_r. split; [split|reflexivity].
  - rewrite map_app, seq_S, map_app, H1, H2. reflexivity.
  - rewrite H2. reflexivity.
Qed.

Lemma Numbered_emitStreams {forge : Forge} (n0 : num) (contents : list str) :
  forall b, Numbered n0 b -> Numbered n0 (snd (emitStreams b contents)).
Proof.
  induction contents as [|c t IH]; intros b Hb; [exact Hb|].
  cbn [emitStreams].
  pose proof (proj1 (Numbered_emit (streamObject (length c) c) Hb)) as H1.
  destruct (emit b (streamObject (length c) c)) as [n b1]. cbn [snd] in H1.
  specialize (IH b1 H1). destruct (emitStreams b1 t) as [refs b2]. exact IH.
Qed.

Lemma Numbered_emitCerts {forge : Forge} (n0 : num) (certs : list certificate) :
  forall b refs b', Numbered n0 b -> emitCerts b certs = Ret (refs, b') ->
                    Numbered n0 b'.
Proof.
  induction certs as [|c t IH]; intros b refs b' Hb; cbn [emitCerts].
  - intros [= _ <-]. exact Hb.
  - destruct (certificateToDer c) as [der|e]; cbn [obind]; [|discriminate].
    pose proof (proj1 (Numbered_emit
                         (streamObject (length (toBase64 der)) (toBase64 der)) Hb)) as H1.
    destruct (emit b (streamObject (length (toBase64 der)) (toBase64 der))) as [n b1].
    cbn [snd] in H1.
    destruct (emitCerts b1 t) as [[refs1 b2]|e] eqn:E; cbn [obind]; [|discriminate].
    intros [= _ <-]. cbn [snd]. eapply IH; eauto.
Qed.

(** The objects of one pass have the numbers that successive increments give
    from the number of [getNextObjectNumber], and there is at least one. *)
Lemma buildDSS_numbered {engine : Engine} {forge : Forge} (pdfText : str)
    (ocspResponses : list (option str)) (certs : list certificate)
    (dssNum : num) (b : builder) :
  buildDSS pdfText ocspResponses certs = Ret (dssNum, b) ->
  exists n0, getNextObjectNumber pdfText = Ret n0
             /\ Numbered n0 b /\ dssObjects b <> [].
Proof.
  unfold buildDSS.
  destruct (getNextObjectNumber pdfText) as [n0|e]; cbn [obind]; [|discriminate].
  intros H. exists n0. split; [reflexivity|].
  pose proof (Numbered_start n0) as H0.
  assert (H1 : Numbered n0
                 (snd (match dropNull ocspResponses with
                       | [] => (@None num, Builder n0 [])
                       | o :: l =>
                           let (ocspArray, b1) :=
                             emitStreams (Builder n0 []) (map toBase64 (o :: l)) in
                           let (n, b2) := emit b1 (arrayObject ocspArray) in
                           (Some n, b2)
                       end))).
  { destruct (dropNull ocspResponses) as [|o l]; [exact H0|].
    pose proof (Numbered_emitStreams (map toBase64 (o :: l)) H0) as Hs.
    destruct (emitStreams (Builder n0 []) (map toBase64 (o :: l))) as [arr b1].
    cbn [snd] in Hs.
    pose proof (proj1 (Numbered_emit (arrayObject arr) Hs)) as He.
    destruct (emit b1 (arrayObject arr)) as [n b2]. exact He. }
  destruct (match dropNull ocspResponses with
            | [] => (@None num, Builder n0 [])
            | o :: l => _
            end) as [ocspObjNum b1].
  cbn [snd] in H1.
  assert (H2 : forall certObjNum b2,
             match certs with
             | [] => Ret (@None num, b1)
             | _ :: _ =>
                 obind (emitCerts b1 certs)
                   (fun rb => let (n, b2) := emit (snd rb) (arrayObject (fst rb)) in
                              Ret (Some n, b2))
             end = Ret (certObjNum, b2) -> Numbered n0 b2).
  { intros certObjNum b2. destruct certs as [|c l].
    - intros [= _ <-]. exact H1.
    - destruct (emitCerts b1 (c :: l)) as [[refs b3]|e] eqn:E; cbn [obind];
        [|discriminate].
      pose proof (Numbered_emitCerts _ H1 E) as H3. cbn [fst snd].
      pose proof (proj1 (Numbered_emit (arrayObject refs) H3)) as He.
      destruct (emit b3 (arrayObject refs)) as [n b4]. cbn [snd] in He.
      intros [= _ <-]. exact He. }
  destruct (match certs with
            | [] => Ret (@None num, b1)
            | _ :: _ => _
            end) as [[certObjNum b2]|e]; cbn [obind] in H; [|discriminate].
  specialize (H2 certObjNum b2 eq_refl).
  match type of H with
  | (let (_, _) := emit b2 ?text in _) = _ =>
      pose proof (Numbered_emit text H2) as [He Hl];
      destruct (emit b2 text) as [n b3]
  end.
  cbn [snd] in He, Hl. injection H as _ <-. split; [exact He|].
  intros E. rewrite E in Hl. discriminate.
Qed.

Lemma after_exact (z : Z) (k : nat) :
  (0 <= z)%Z -> (z + Z.of_nat k <= maxExact)%Z ->
  after (Num z) k = Num (z + Z.of_nat k).
Proof.
  intros Hz. induction k as [|k IH]; intros Hk.
  - simpl. f_equal. lia.
  - change (after (Num z) (S k)) with (num_add (after (Num z) k) (Num 1)).
    rewrite IH by lia. unfold num_add. rewrite round53_exact by lia. f_equal. lia.
Qed.

Lemma NoDup_consecutive (a : Z) (k : nat) :
  forall s, NoDup (map (fun i => Num (a + Z.of_nat i)) (seq s k)).
Proof.
  induction k as [|k IH]; intros s; simpl; constructor; [|apply IH].
  intros H. apply in_map_iff in H as (i & E & Hi). apply in_seq in Hi.
  injection E as E. lia.
Qed.

(** C4, as the specification words it, does not hold for every buffer: a
    Number holds the integers exactly up to 2^53 only, and 2^53 + 1 is
    2^53 again.  With an object of number 2^53 in the text, the three objects
    of a pass with one certificate all get 2^53, the number of that
    object. *)
Lemma numbers_past_2_53_are_reused :
  HasMarker Examples.bigNumberPdf 9007199254740992
  /\ @assignedNumbers Examples.nodeEngine
      Examples.toyForge Examples.bigNumberPdf [] [Examples.selfSigned]
     = Ret [Num 9007199254740992; Num 9007199254740992; Num 9007199254740992].
Proof.
  split.
  - exists [], Examples.bigNumberPdf. split; [reflexivity|].
    exists (lit "9007199254740992"), (lit " "), (lit " "),
      (lit " << /Type /Catalog >> endobj xref").
    repeat split; try discriminate; repeat constructor.
  - vm_compute. reflexivity.
Qed.

(** C4 (amended), ltv-helper.js: for every buffer in which the number of
    every marker [N 0 obj], plus the number of objects of the pass, stays
    within 2^53 (the integers a Number holds exactly), the objects of the
    pass get the numbers M+1, M+2, ... in the order in which they are
    emitted, M being the greatest number of a marker of the buffer (0
    without marker): they increase by one, none is used twice, and none is
    the number of a marker of the buffer, the markers of DSS objects of an
    earlier pass included. *)
Theorem assigned_numbers_follow_max (engine : Engine) (forge : Forge) (pdfBuffer : str)
    (ocspResponses : list (option str)) (certs : list certificate)
    (nums : list num) :
  assignedNumbers pdfBuffer ocspResponses certs = Ret nums ->
  (Z.of_nat (length nums) <= maxExact)%Z ->
  (forall N, HasMarker pdfBuffer N -> (N + Z.of_nat (length nums) <= maxExact)%Z) ->
  exists M,
    (forall N, HasMarker pdfBuffer N -> (N <= M)%Z)
    /\ (HasMarker pdfBuffer M \/ (M = 0%Z /\ forall N, ~ HasMarker pdfBuffer N))
    /\ nums <> []
    /\ nums = map (fun i => Num (M + 1 + Z.of_nat i)) (seq 0 (length nums))
    /\ NoDup nums
    /\ (forall N, HasMarker pdfBuffer N -> ~ In (Num N) nums).
Proof.
  unfold assignedNumbers.
  destruct (buildDSS pdfBuffer ocspResponses certs) as [[dssNum b]|e] eqn:Eb;
    cbn [obind]; [|discriminate].
  intros [= <-]. cbn [snd]. rewrite length_map. intros Hk Hb.
  destruct (buildDSS_numbered _ _ _ Eb) as (n0 & En & [Hn _] & Hne).
  assert (Hpos : 1 <= length (dssObjects b)).
  { destruct (dssObjects b); [congruence|simpl; lia]. }
  destruct (@getNextObjectNumber_spec _ pdfBuffer) as (M & EM & HM0 & Hmax & Hwit).
  { intros N HN. specialize (Hb N HN). lia. }
  rewrite En in EM.
  destruct (N.of_nat (length (matchAll false obj_re pdfBuffer)) <=? maxArguments)%N;
    [|discriminate].
  injection EM as ->.
  assert (HMk : (M + Z.of_nat (length (dssObjects b)) <= maxExact)%Z).
  { destruct Hwit as [HM|[-> _]]; [apply Hb; exact HM | lia]. }
  assert (E : map fst (dssObjects b)
              = map (fun i => Num (M + 1 + Z.of_nat i)) (seq 0 (length (dssObjects b)))).
  { rewrite Hn. apply map_ext_in. intros i Hi. apply in_seq in Hi.
    apply after_exact; lia. }
  exists M. split; [exact Hmax|]. split; [exact Hwit|]. split.
  { intros E0. apply map_eq_nil in E0. congruence. }
  split; [exact E|]. rewrite E. split; [apply NoDup_consecutive|].
  intros N HN Hin. apply in_map_iff in Hin as (i & Ei & _).
  injection Ei as Ei. specialize (Hmax N HN). lia.
Qed.

Lemma catalogPdf_numbers :
  @assignedNumbers Examples.nodeEngine
      Examples.toyForge Examples.catalogPdf [] [Examples.selfSigned]
  = Ret [Num 6; Num 7; Num 8].
Proof. vm_compute. reflexivity. Qed.

Lemma catalogPdf_markers (N : Z) :
  HasMarker Examples.catalogPdf N -> (N + 3 <= maxExact)%Z.
Proof.
  intros HN. apply (@markers_bounded_by_matches Examples.catalogPdf (maxExact - 3)) in HN.
  - lia.
  - vm_compute. reflexivity.
Qed.

Lemma assigned_numbers_follow_max_witness :
  exists M,
    (forall N, HasMarker Examples.catalogPdf N -> (N <= M)%Z)
    /\ (HasMarker Examples.catalogPdf M
        \/ (M = 0%Z /\ forall N, ~ HasMarker Examples.catalogPdf N))
    /\ [Num 6; Num 7; Num 8] <> []
    /\ [Num 6; Num 7; Num 8]
       = map (fun i => Num (M + 1 + Z.of_nat i)) (seq 0 3)
    /\ NoDup [Num 6; Num 7; Num 8]
    /\ (forall N, HasMarker Examples.catalogPdf N -> ~ In (Num N) [Num 6; Num 7; Num 8]).
Proof.
  apply (@assigned_numbers_follow_max Examples.nodeEngine
      Examples.toyForge Examples.catalogPdf []
           [Examples.selfSigned] [Num 6; Num 7; Num 8] catalogPdf_numbers).
  - vm_compute. discriminate.
  - exact catalogPdf_markers.
Defined.

End NumberingClaims.

(** ** The inline helpers of netlify/functions/sign-pdf.js *)

Module NetlifyFacts.
Import StringFacts NumberFacts NumberingFacts NumberingClaims DssFailureClaims.
Import LtvHelper.

(** Its first object number is computed as [getNextObjectNumber] computes
    it: reading a marker as a number gives the number of its digits. *)
Lemma nextObj_getNextObjectNumber {engine : Engine} (pdfText : str) :
  NetlifySign.nextObj pdfText = getNextObjectNumber pdfText.
Proof.
  unfold NetlifySign.nextObj, getNextObjectNumber, match_g.
  destruct (matchAll false obj_re pdfText) as [|f l] eqn:El; [reflexivity|].
  rewrite <- El.
  rewrite omap_numbers by (intros g Hg; apply (@matchAll_markers pdfText g Hg)).
  cbn [obind]. do 2 f_equal. rewrite map_map. apply map_ext_in.
  intros g Hg. apply number_of_match. apply (@matchAll_markers pdfText g Hg).
Qed.

Lemma Numbered_emitResponses (n0 : num) (resps : list str) :
  forall b, Numbered n0 b -> Numbered n0 (snd (NetlifySign.emitResponses b resps)).
Proof.
  induction resps as [|r t IH]; intros b Hb; [exact Hb|].
  cbn [NetlifySign.emitResponses].
  pose proof (proj1 (Numbered_emit (streamObject (length r) (toBase64 r)) Hb)) as H1.
  destruct (emit b (streamObject (length r) (toBase64 r))) as [n b1]. cbn [snd] in H1.
  specialize (IH b1 H1). destruct (NetlifySign.emitResponses b1 t) as [refs b2].
  exact IH.
Qed.

Lemma Numbered_netlify_emitCerts {forge : Forge} (n0 : num) (certs : list certificate) :
  forall b refs b', Numbered n0 b -> NetlifySign.emitCerts b certs = Ret (refs, b') ->
                    Numbered n0 b'.
Proof.
  induction certs as [|c t IH]; intros b refs b' Hb; cbn [NetlifySign.emitCerts].
  - intros [= _ <-]. exact Hb.
  - destruct (certificateToDer c) as [buf|e]; cbn [obind]; [|discriminate].
    pose proof (proj1 (Numbered_emit
                         (streamObject (length buf) (toBase64 buf)) Hb)) as H1.
    destruct (emit b (streamObject (length buf) (toBase64 buf))) as [n b1].
    cbn [snd] in H1.
    destruct (NetlifySign.emitCerts b1 t) as [[refs1 b2]|e] eqn:E; cbn [obind];
      [|discriminate].
    intros [= _ <-]. cbn [snd]. eapply IH; eauto.
Qed.

Lemma netlify_buildDSS_numbered {engine : Engine} {forge : Forge} (pdfText : str)
    (ocspResponses : list (option str)) (certs : list certificate) (b : builder) :
  NetlifySign.buildDSS pdfText ocspResponses certs = Ret b ->
  exists n0, NetlifySign.nextObj pdfText = Ret n0
             /\ Numbered n0 b /\ dssObjects b <> [].
Proof.
  unfold NetlifySign.buildDSS.
  destruct (NetlifySign.nextObj pdfText) as [n0|e]; cbn [obind]; [|discriminate].
  intros H. exists n0. split; [reflexivity|].
  pose proof (Numbered_start n0) as H0.
  assert (H1 : Numbered n0
                 (snd (match ocspResponses with
                       | [] => (@nil ascii, Builder n0 [])
                       | _ :: _ =>
                           let (refs, b1) :=
                             NetlifySign.emitResponses (Builder n0 [])
                               (dropNull ocspResponses) in
                           match refs with
                           | [] => ([], b1)
                           | _ :: _ =>
                               let (arrObj, b2) := emit b1 (arrayObject refs) in
                               (lit " /OCSPs " ++ ref arrObj, b2)
                           end
                       end))).
  { destruct ocspResponses as [|o l]; [exact H0|].
    pose proof (Numbered_emitResponses (dropNull (o :: l)) H0) as Hs.
    destruct (NetlifySign.emitResponses (Builder n0 []) (dropNull (o :: l)))
      as [refs b1].
    cbn [snd] in Hs. destruct refs as [|r refs]; [exact Hs|].
    pose proof (proj1 (Numbered_emit (arrayObject (r :: refs)) Hs)) as He.
    destruct (emit b1 (arrayObject (r :: refs))) as [n b2]. exact He. }
  destruct (match ocspResponses with
            | [] => (@nil ascii, Builder n0 [])
            | _ :: _ => _
            end) as [ocspArrayRef b1].
  cbn [snd] in H1.
  assert (H2 : forall certArrayRef b2,
             match certs with
             | [] => Ret (@nil ascii, b1)
             | _ :: _ =>
                 obind (NetlifySign.emitCerts b1 certs)
                   (fun rb => let (arrObj, b2) := emit (snd rb) (arrayObject (fst rb)) in
                              Ret (lit " /Certs " ++ ref arrObj, b2))
             end = Ret (certArrayRef, b2) -> Numbered n0 b2).
  { intros certArrayRef b2. destruct certs as [|c l].
    - intros [= _ <-]. exact H1.
    - destruct (NetlifySign.emitCerts b1 (c :: l)) as [[refs b3]|e] eqn:E;
        cbn [obind]; [|discriminate].
      pose proof (Numbered_netlify_emitCerts _ H1 E) as H3. cbn [fst snd].
      pose proof (proj1 (Numbered_emit (arrayObject refs) H3)) as He.
      destruct (emit b3 (arrayObject refs)) as [n b4]. cbn [snd] in He.
      intros [= _ <-]. exact He. }
  destruct (match certs with
            | [] => Ret (@nil ascii, b1)
            | _ :: _ => _
            end) as [[certArrayRef b2]|e]; cbn [obind] in H; [|discriminate].
  specialize (H2 certArrayRef b2 eq_refl).
  match type of H with
  | (let (_, _) := emit b2 ?text in _) = _ =>
      pose proof (Numbered_emit text H2) as [He Hl];
      destruct (emit b2 text) as [n b3]
  end.
  cbn [snd] in He, Hl. injection H as <-. split; [exact He|].
  intros E. rewrite E in Hl. discriminate.
Qed.

(** The same numbering holds of the inline [embedDSS] of the Netlify function
    too. *)
Lemma netlify_assigned_numbers_follow_max {engine : Engine}
    {forge : Forge} (pdfBuffer : str)
    (ocspResponses : list (option str)) (certs : list certificate)
    (nums : list num) :
  NetlifySign.assignedNumbers pdfBuffer ocspResponses certs = Ret nums ->
  (Z.of_nat (length nums) <= maxExact)%Z ->
  (forall N, HasMarker pdfBuffer N -> (N + Z.of_nat (length nums) <= maxExact)%Z) ->
  exists M,
    (forall N, HasMarker pdfBuffer N -> (N <= M)%Z)
    /\ (HasMarker pdfBuffer M \/ (M = 0%Z /\ forall N, ~ HasMarker pdfBuffer N))
    /\ nums <> []
    /\ nums = map (fun i => Num (M + 1 + Z.of_nat i)) (seq 0 (length nums))
    /\ NoDup nums
    /\ (forall N, HasMarker pdfBuffer N -> ~ In (Num N) nums).
Proof.
  unfold NetlifySign.assignedNumbers.
  destruct (NetlifySign.buildDSS pdfBuffer ocspResponses certs) as [b|e] eqn:Eb;
    cbn [obind]; [|discriminate].
  intros [= <-]. rewrite length_map. intros Hk Hb.
  destruct (netlify_buildDSS_numbered _ _ _ Eb) as (n0 & En & [Hn _] & Hne).
  assert (Hpos : 1 <= length (dssObjects b)).
  { destruct (dssObjects b); [congruence|simpl; lia]. }
  destruct (@getNextObjectNumber_spec _ pdfBuffer) as (M & EM & HM0 & Hmax & Hwit).
  { intros N HN. specialize (Hb N HN). lia. }
  rewrite <- nextObj_getNextObjectNumber, En in EM.
  destruct (N.of_nat (length (matchAll false obj_re pdfBuffer)) <=? maxArguments)%N;
    [|discriminate].
  injection EM as ->.
  assert (HMk : (M + Z.of_nat (length (dssObjects b)) <= maxExact)%Z).
  { destruct Hwit as [HM|[-> _]]; [apply Hb; exact HM | lia]. }
  assert (E : map fst (dssObjects b)
              = map (fun i => Num (M + 1 + Z.of_nat i)) (seq 0 (length (dssObjects b)))).
  { rewrite Hn. apply map_ext_in. intros i Hi. apply in_seq in Hi.
    apply after_exact; lia. }
  exists M. split; [exact Hmax|]. split; [exact Hwit|]. split.
  { intros E0. apply map_eq_nil in E0. congruence. }
  split; [exact E|]. rewrite E. split; [apply NoDup_consecutive|].
  intros N HN Hin. apply in_map_iff in Hin as (i & Ei & _).
  injection Ei as Ei. specialize (Hmax N HN). lia.
Qed.

Lemma netlify_round_fails {forge : Forge} {crypto : Crypto} {net : Network}
    (n : nat) (data url : str) (log : list call) :
  failed (answer log (netlifyTsaQuery data url)) ->
  exists e,
    NetlifySign.requestTimestamp_rounds (S n) data url log
    = (if str_eqb url TsaHelper.FREETSA
       then NetlifySign.requestTimestamp_rounds n data TsaHelper.DIGICERT
       else io_throw e) (log ++ [netlifyTsaQuery data url]).
Proof.
  intros H. cbn [NetlifySign.requestTimestamp_rounds].
  unfold io_catch at 1. unfold io_bind, axios_post. fold (netlifyTsaQuery data url).
  destruct (answer log (netlifyTsaQuery data url)) as [msg|status d]; simpl in H.
  - exists msg; reflexivity.
  - destruct ((200 <=? status) && (status <? 300))%Z;
      [|eexists; reflexivity].
    cbn [fst snd]. destruct (status =? 200)%Z eqn:E.
    + apply Z.eqb_eq in E. contradiction.
    + cbn [negb]. unfold io_throw at 1. eexists; reflexivity.
Qed.

Lemma netlify_round_succeeds {forge : Forge} {crypto : Crypto} {net : Network}
    (n : nat) (data url : str) (log : list call) :
  ~ failed (answer log (netlifyTsaQuery data url)) ->
  exists token,
    NetlifySign.requestTimestamp_rounds (S n) data url log
    = (Ret token, log ++ [netlifyTsaQuery data url]).
Proof.
  intros H. cbn [NetlifySign.requestTimestamp_rounds].
  unfold io_catch at 1. unfold io_bind, axios_post. fold (netlifyTsaQuery data url).
  destruct (answer log (netlifyTsaQuery data url)) as [msg|status d]; simpl in H.
  - tauto.
  - destruct (Z.eq_dec status 200) as [->|Hne]; [|tauto].
    cbn. unfold io_ret. eexists; reflexivity.
Qed.

(** The Netlify function retries in the same way: after a failed call to the primary
    server its timestamp step calls the alternate server once and nothing
    else, and when that fails too it keeps the signed buffer. *)
Lemma netlify_tsa_failure_retries_once_then_skips {forge : Forge} {crypto : Crypto}
    {net : Network} (signedPdf signature signatureHex : str) (log : list call) :
  NetlifySign.extractSignatureFromPDF signedPdf = Some (signature, signatureHex) ->
  failed (answer log (netlifyTsaQuery signature TsaHelper.FREETSA)) ->
  snd (NetlifySign.tsaStage signedPdf log)
  = log ++ [netlifyTsaQuery signature TsaHelper.FREETSA;
            netlifyTsaQuery signature TsaHelper.DIGICERT]
  /\ (failed (answer (log ++ [netlifyTsaQuery signature TsaHelper.FREETSA])
                     (netlifyTsaQuery signature TsaHelper.DIGICERT)) ->
      NetlifySign.tsaStage signedPdf log
      = (Ret signedPdf,
         log ++ [netlifyTsaQuery signature TsaHelper.FREETSA;
                 netlifyTsaQuery signature TsaHelper.DIGICERT])).
Proof.
  intros He H1.
  assert (L : forall l : list call,
             (l ++ [netlifyTsaQuery signature TsaHelper.FREETSA])
               ++ [netlifyTsaQuery signature TsaHelper.DIGICERT]
             = l ++ [netlifyTsaQuery signature TsaHelper.FREETSA;
                     netlifyTsaQuery signature TsaHelper.DIGICERT]).
  { intros l. rewrite <- app_assoc. reflexivity. }
  destruct (netlify_round_fails 1 signature TsaHelper.FREETSA log H1) as [e1 E1].
  change (NetlifySign.requestTimestamp_rounds 2) with NetlifySign.requestTimestamp in E1.
  change (str_eqb TsaHelper.FREETSA TsaHelper.FREETSA) with true in E1. cbv iota in E1.
  unfold NetlifySign.tsaStage, NetlifySign.addTimestampToPDF, io_catch, io_bind.
  rewrite He, E1.
  assert (D : failed (answer (log ++ [netlifyTsaQuery signature TsaHelper.FREETSA])
                        (netlifyTsaQuery signature TsaHelper.DIGICERT))
              \/ ~ failed (answer (log ++ [netlifyTsaQuery signature TsaHelper.FREETSA])
                             (netlifyTsaQuery signature TsaHelper.DIGICERT))).
  { destruct (answer _ (netlifyTsaQuery signature TsaHelper.DIGICERT))
      as [msg|status d]; simpl; auto.
    destruct (Z.eq_dec status 200); auto. }
  destruct D as [F2|F2].
  - destruct (netlify_round_fails 0 signature TsaHelper.DIGICERT _ F2) as [e2 E2].
    change (str_eqb TsaHelper.DIGICERT TsaHelper.FREETSA) with false in E2.
    cbv iota in E2. rewrite E2, L. unfold io_throw, io_ret. auto.
  - destruct (netlify_round_succeeds 0 signature TsaHelper.DIGICERT _ F2) as [t E2].
    rewrite E2, L. split; [|intros F; contradiction].
    unfold io_lift.
    match goal with
    | |- snd (match ?o with Ret _ => _ | Throw _ => _ end) = _ => destruct o; reflexivity
    end.
Qed.

End NetlifyFacts.

(** ** The timestamp step: which failure is followed by a second call *)

Module TsaRetryClaims.
Import StringFacts TsaClaims DssFailureClaims NetlifyFacts TsaHelper.

(** [addTimestampToPDF] never throws; the step of the server makes the calls
    that it makes. *)
Lemma server_tsaStage_calls {forge : Forge} {crypto : Crypto} {net : Network}
    (signedPdf : str) (log : list call) :
  snd (ServerLtv.tsaStage signedPdf log) = snd (addTimestampToPDF signedPdf FREETSA log).
Proof.
  unfold ServerLtv.tsaStage, io_catch, io_bind.
  destruct (addTimestampToPDF signedPdf FREETSA log) as [[[|x t]|err] l];
    reflexivity.
Qed.

Lemma netlify_signedPdf_extracted :
  NetlifySign.extractSignatureFromPDF Examples.signedPdf
  = Some (signature Examples.signedPdfSignature, lit "3082").
Proof. vm_compute. reflexivity. Qed.

(** C2, as the specification words it, does not hold of every timestamp
    request: with a primary server other than the default one, the failed
    call is the only call.  Here no host can be reached and the primary
    server is [http://tsa.example/tsr]: [requestTimestamp] throws after one
    call, in tsa-helper.js and in the Netlify function, and
    [addTimestampToPDF] returns the signed buffer after that one call. *)
Lemma tsa_other_primary_is_not_retried :
  failed (@answer Examples.deadNetwork []
            (@tsaQuery Examples.toyForge Examples.toyCrypto (lit "signature")
               (lit "http://tsa.example/tsr")))
  /\ @requestTimestamp Examples.toyForge Examples.toyCrypto Examples.deadNetwork
       (lit "signature") (lit "http://tsa.example/tsr") []
     = (Throw (lit "connect ECONNREFUSED"),
        [@tsaQuery Examples.toyForge Examples.toyCrypto (lit "signature")
           (lit "http://tsa.example/tsr")])
  /\ @NetlifySign.requestTimestamp Examples.toyForge Examples.toyCrypto
       Examples.deadNetwork (lit "signature") (lit "http://tsa.example/tsr") []
     = (Throw (lit "connect ECONNREFUSED"),
        [@netlifyTsaQuery Examples.toyForge Examples.toyCrypto (lit "signature")
           (lit "http://tsa.example/tsr")])
  /\ @addTimestampToPDF Examples.toyForge Examples.toyCrypto Examples.deadNetwork
       Examples.signedPdf (lit "http://tsa.example/tsr") []
     = (Ret Examples.signedPdf,
        [@tsaQuery Examples.toyForge Examples.toyCrypto
           (signature Examples.signedPdfSignature) (lit "http://tsa.example/tsr")]).
Proof. repeat split; vm_compute; reflexivity. Qed.

(** C2 (amended): when the call to the primary timestamp server fails (no
    response, a timeout, a status other than 200), what follows depends on
    the primary server.  When it is the default one,
    [http://freetsa.org/tsr], which is what the server and the Netlify
    function pass, the alternate server [http://timestamp.digicert.com] is
    called, once, and nothing else; when that call fails too, the timestamp
    step returns the signed buffer as it was, so nothing is added to its
    signature.  When the primary server is another one, no second call is
    made: [requestTimestamp] throws after the one call, and
    [addTimestampToPDF] of tsa-helper.js returns the signed buffer as it
    was, while the one of the Netlify function throws.  This holds of
    tsa-helper.js with the step of the server, and of the copy inside the
    Netlify function with its step. *)
Theorem tsa_failure_retries_only_from_default (forge : Forge) (crypto : Crypto)
    (net : Network) (signedPdf tsaUrl : str) (log : list call) :
  (forall e : extracted,
      extractSignatureFromPDF signedPdf = Some e ->
      failed (answer log (tsaQuery (signature e) tsaUrl)) ->
      (tsaUrl <> FREETSA ->
       (exists err,
           requestTimestamp (signature e) tsaUrl log
           = (Throw err, log ++ [tsaQuery (signature e) tsaUrl]))
       /\ addTimestampToPDF signedPdf tsaUrl log
          = (Ret signedPdf, log ++ [tsaQuery (signature e) tsaUrl]))
      /\ (tsaUrl = FREETSA ->
          snd (addTimestampToPDF signedPdf tsaUrl log)
          = log ++ [tsaQuery (signature e) FREETSA; tsaQuery (signature e) DIGICERT]
          /\ snd (ServerLtv.tsaStage signedPdf log)
             = log ++ [tsaQuery (signature e) FREETSA; tsaQuery (signature e) DIGICERT]
          /\ (failed (answer (log ++ [tsaQuery (signature e) FREETSA])
                             (tsaQuery (signature e) DIGICERT)) ->
              addTimestampToPDF signedPdf tsaUrl log
              = (Ret signedPdf,
                 log ++ [tsaQuery (signature e) FREETSA;
                         tsaQuery (signature e) DIGICERT])
              /\ ServerLtv.tsaStage signedPdf log
                 = (Ret signedPdf,
                    log ++ [tsaQuery (signature e) FREETSA;
                            tsaQuery (signature e) DIGICERT]))))
  /\ (forall signature signatureHex : str,
         NetlifySign.extractSignatureFromPDF signedPdf = Some (signature, signatureHex) ->
         failed (answer log (netlifyTsaQuery signature tsaUrl)) ->
         (tsaUrl <> FREETSA ->
          exists err,
            NetlifySign.requestTimestamp signature tsaUrl log
            = (Throw err, log ++ [netlifyTsaQuery signature tsaUrl])
            /\ NetlifySign.addTimestampToPDF signedPdf tsaUrl log
               = (Throw err, log ++ [netlifyTsaQuery signature tsaUrl]))
         /\ (tsaUrl = FREETSA ->
             snd (NetlifySign.tsaStage signedPdf log)
             = log ++ [netlifyTsaQuery signature FREETSA;
                       netlifyTsaQuery signature DIGICERT]
             /\ (failed (answer (log ++ [netlifyTsaQuery signature FREETSA])
                                (netlifyTsaQuery signature DIGICERT)) ->
                 NetlifySign.tsaStage signedPdf log
                 = (Ret signedPdf,
                    log ++ [netlifyTsaQuery signature FREETSA;
                            netlifyTsaQuery signature DIGICERT])))).
Proof.
  split.
  - intros e He H. split.
    + intros Hu. destruct (round_fails 1 (signature e) tsaUrl log H) as [err E].
      change (requestTimestamp_rounds 2) with requestTimestamp in E.
      destruct (str_eqb tsaUrl FREETSA) eqn:Eu.
      { apply str_eqb_eq in Eu. contradiction. }
      split; [exists err; exact E|].
      unfold addTimestampToPDF, io_catch, io_bind. rewrite He, E. reflexivity.
    + intros ->.
      destruct (default_tsa_retries_once_then_skips signedPdf log He H) as (A & B).
      split; [exact A|]. split; [rewrite server_tsaStage_calls; exact A|]. exact B.
  - intros signature signatureHex He H. split.
    + intros Hu.
      destruct (netlify_round_fails 1 signature tsaUrl log H) as [err E].
      change (NetlifySign.requestTimestamp_rounds 2)
        with NetlifySign.requestTimestamp in E.
      destruct (str_eqb tsaUrl FREETSA) eqn:Eu.
      { apply str_eqb_eq in Eu. contradiction. }
      exists err. split; [exact E|].
      unfold NetlifySign.addTimestampToPDF, io_bind. rewrite He, E. reflexivity.
    + intros ->.
      exact (netlify_tsa_failure_retries_once_then_skips signedPdf log He H).
Qed.

(** On a network where no host can be reached, the signed buffer comes back
    after the two calls, from tsa-helper.js and from the Netlify function. *)
Lemma tsa_failure_retries_only_from_default_witness :
  @addTimestampToPDF Examples.toyForge Examples.toyCrypto Examples.deadNetwork
    Examples.signedPdf FREETSA []
  = (Ret Examples.signedPdf,
     [@tsaQuery Examples.toyForge Examples.toyCrypto
        (signature Examples.signedPdfSignature) FREETSA;
      @tsaQuery Examples.toyForge Examples.toyCrypto
        (signature Examples.signedPdfSignature) DIGICERT])
  /\ @NetlifySign.tsaStage Examples.toyForge Examples.toyCrypto Examples.deadNetwork
       Examples.signedPdf []
     = (Ret Examples.signedPdf,
        [@netlifyTsaQuery Examples.toyForge Examples.toyCrypto
           (signature Examples.signedPdfSignature) FREETSA;
         @netlifyTsaQuery Examples.toyForge Examples.toyCrypto
           (signature Examples.signedPdfSignature) DIGICERT]).
Proof.
  destruct (@tsa_failure_retries_only_from_default Examples.toyForge
              Examples.toyCrypto Examples.deadNetwork Examples.signedPdf FREETSA [])
    as [H1 H2].
  split.
  - destruct (H1 Examples.signedPdfSignature signedPdf_extracted I) as [_ H].
    destruct (H eq_refl) as (_ & _ & H'). exact (proj1 (H' I)).
  - destruct (H2 _ _ netlify_signedPdf_extracted I) as [_ H].
    destruct (H eq_refl) as (_ & H'). exact (H' I).
Defined.

End TsaRetryClaims.

(** ** What a match captures *)

Module CaptureFacts.
Import RegexFacts SearchFacts LangFacts.

Lemma Captures_Matches (ci : bool) (r : regex) (m : str) (g : list str) :
  Captures ci r m g -> Matches ci r m.
Proof.
  induction 1;
    solve [ constructor; auto | apply MAltL; auto | apply MAltR; auto ].
Qed.

Lemma many_loop_captures (round : list str -> str -> list (list str * str))
    (P : str -> list str -> Prop) :
  (forall c s c' s', In (c', s') (round c s) ->
                     exists m g, s = m ++ s' /\ c' = c ++ g /\ P m g) ->
  forall fuel c s c' s',
    In (c', s') (many_loop round fuel c s) ->
    exists mgs, s = concat (map fst mgs) ++ s' /\ c' = c ++ concat (map snd mgs)
                /\ Forall (fun mg => P (fst mg) (snd mg) /\ fst mg <> []) mgs.
Proof.
  intros Hround; induction fuel as [|n IH]; intros c s c' s' Hin; simpl in Hin.
  - destruct Hin as [[= <- <-]|[]]. exists []; simpl. rewrite app_nil_r. auto.
  - apply in_app_or in Hin as [Hin|[[= <- <-]|[]]].
    + apply in_flat_map in Hin as ([c1 s1] & H1 & H2). simpl in H2.
      destruct (length s1 <? length s) eqn:E; [|destruct H2].
      apply Nat.ltb_lt in E. apply Hround in H1 as (m & g & -> & -> & Hm).
      apply IH in H2 as (mgs & -> & -> & Hmgs). exists ((m, g) :: mgs). simpl.
      rewrite !app_assoc. repeat split; auto. constructor; auto. split; auto.
      simpl. intros ->. simpl in E. lia.
    + exists []; simpl. rewrite app_nil_r. auto.
Qed.

Lemma Captures_many_concat (ci : bool) (r : regex) (mgs : list (str * list str)) :
  Forall (fun mg => Captures ci r (fst mg) (snd mg) /\ fst mg <> []) mgs ->
  Captures ci (Many r) (concat (map fst mgs)) (concat (map snd mgs)).
Proof.
  induction 1 as [|[m g] mgs [Hm Hne] _ IH]; simpl; [constructor|].
  apply CManyS; auto.
Qed.

(** Every success of the matcher consumed a text of the language and added
    the groups that this match closes. *)
Lemma run_captures (ci : bool) (r : regex) :
  forall c s c' s', In (c', s') (run ci r c s) ->
                    exists m g, s = m ++ s' /\ c' = c ++ g /\ Captures ci r m g.
Proof.
  induction r as [ |x|p|g lo hi p|r1 IH1 r2 IH2|r1 IH1 r2 IH2|r1 IH1|r1 IH1];
    intros c s c' s' Hin; simpl in Hin.
  - destruct Hin as [[= <- <-]|[]]. exists [], []. rewrite app_nil_r.
    repeat split; constructor.
  - destruct s as [|y t]; [destruct Hin|].
    destruct (char_eq ci x y) eqn:E; [|destruct Hin].
    destruct Hin as [[= <- <-]|[]]. exists [y], []. rewrite app_nil_r.
    repeat split; constructor; auto.
  - destruct s as [|y t]; [destruct Hin|].
    destruct (p y) eqn:E; [|destruct Hin].
    destruct Hin as [[= <- <-]|[]]. exists [y], []. rewrite app_nil_r.
    repeat split; constructor; auto.
  - apply in_map_iff in Hin as (s1 & [= <- <-] & Hin).
    apply rep_In in Hin as (m & -> & Hp & Hlo & Hhi).
    exists m, []. rewrite app_nil_r. repeat split; constructor; auto.
  - apply in_flat_map in Hin as ([c1 s1] & H1 & H2). simpl in H2.
    apply IH1 in H1 as (m1 & g1 & -> & -> & Hm1).
    apply IH2 in H2 as (m2 & g2 & -> & -> & Hm2).
    exists (m1 ++ m2), (g1 ++ g2). rewrite !app_assoc.
    repeat split; constructor; auto.
  - apply in_app_or in Hin as [Hin|Hin].
    + apply IH1 in Hin as (m & g & -> & -> & Hm). exists m, g.
      repeat split; auto. apply CAltL; auto.
    + apply IH2 in Hin as (m & g & -> & -> & Hm). exists m, g.
      repeat split; auto. apply CAltR; auto.
  - apply (many_loop_captures (run ci r1) (Captures ci r1)) in Hin
      as (mgs & -> & -> & Hmgs).
    + exists (concat (map fst mgs)), (concat (map snd mgs)).
      repeat split; auto. apply Captures_many_concat; auto.
    + intros; eapply IH1; eauto.
  - apply in_map_iff in Hin as ([c1 s1] & [= <- <-] & Hin).
    apply IH1 in Hin as (m & g & -> & -> & Hm). exists m, (g ++ [m]).
    cbn [fst snd]. rewrite firstn_length_diff, app_assoc.
    repeat split; auto. constructor; auto.
Qed.

(** The groups of what [search] finds are the groups that its match
    closes. *)
Lemma search_Captures (ci : bool) (r : regex) (s : str) (f : found) :
  search ci r s = Some f ->
  s = skipped f ++ matched f ++ rest f /\ Captures ci r (matched f) (groups f).
Proof.
  intros Hf. apply search_Some in Hf as (Es & _ & He & _). split; [exact Es|].
  unfold exec_here in He.
  destruct (run ci r [] (matched f ++ rest f)) as [|[c s'] l] eqn:E; [discriminate|].
  injection He as -> ->.
  assert (Hin : In (groups f, rest f) (run ci r [] (matched f ++ rest f)))
    by (rewrite E; left; reflexivity).
  apply run_captures in Hin as (m & g & Em & Eg & Hm). simpl in Eg. subst g.
  apply app_inv_tail in Em. subst m. exact Hm.
Qed.

Lemma Captures_Cat (ci : bool) (r1 r2 : regex) (m : str) (g : list str) :
  Captures ci (Cat r1 r2) m g ->
  exists m1 m2 g1 g2, m = m1 ++ m2 /\ g = g1 ++ g2
                      /\ Captures ci r1 m1 g1 /\ Captures ci r2 m2 g2.
Proof. intros H; inversion H; subst; eauto 8. Qed.

Lemma Captures_Cap (ci : bool) (r : regex) (m : str) (g : list str) :
  Captures ci (Cap r) m g -> exists g', g = g' ++ [m] /\ Captures ci r m g'.
Proof. intros H; inversion H; subst; eauto. Qed.

Lemma Captures_Rep (ci gr : bool) (lo : nat) (hi : option nat) (p : ascii -> bool)
    (m : str) (g : list str) :
  Captures ci (Rep gr lo hi p) m g -> g = [] /\ Matches ci (Rep gr lo hi p) m.
Proof. intros H; split; [inversion H; auto | eapply Captures_Matches; eauto]. Qed.

Lemma Captures_word (ci : bool) (w m : str) (g : list str) :
  Captures ci (word_of w) m g -> g = [] /\ Matches ci (word_of w) m.
Proof.
  intros H; split; [|eapply Captures_Matches; eauto].
  revert m g H; induction w as [|c w IH]; intros m g H; simpl in H.
  - inversion H; auto.
  - apply Captures_Cat in H as (m1 & m2 & g1 & g2 & -> & -> & H1 & H2).
    inversion H1; subst. apply IH in H2 as ->. reflexivity.
Qed.

Lemma Captures_Chr (ci : bool) (c : ascii) (m : str) (g : list str) :
  Captures ci (Chr c) m g -> g = [] /\ exists x, m = [x] /\ char_eq ci c x = true.
Proof. intros H; inversion H; subst; eauto. Qed.

End CaptureFacts.

(** ** Global replacement *)

Module ReplaceFacts.
Import RegexFacts SearchFacts LangFacts.

Lemma replace_g_none (ci : bool) (r : regex) (f : str -> list str -> str) (s : str) :
  search ci r s = None -> replace_g ci r f s = s.
Proof. unfold replace_g; simpl; intros ->; reflexivity. Qed.

(** A pattern that starts with a character only matches where the text has
    that character. *)
Lemma search_first_char (r : regex) (c : ascii) (s : str) :
  ~ In c s -> search false (Cat (Chr c) r) s = None.
Proof.
  intros Hc. destruct (search false (Cat (Chr c) r) s) as [f|] eqn:E; [|reflexivity].
  exfalso. apply search_Some in E as (Es & Hm & _).
  apply Matches_Cat in Hm as (m1 & m2 & Em & H1 & _).
  apply Matches_Chr in H1 as (x & -> & Hx). apply char_eq_cs in Hx as <-.
  apply Hc. rewrite Es, Em. apply in_or_app; right. left; reflexivity.
Qed.

(** Replacing matches that are not empty by texts that are not longer does
    not lengthen the text. *)
Lemma replace_from_length (ci : bool) (r : regex) (f : str -> list str -> str) :
  (forall m g, Matches ci r m -> m <> [] /\ length (f m g) <= length m) ->
  forall fuel s, length (replace_from fuel ci r f s) <= length s.
Proof.
  intros Hf; induction fuel as [|n IH]; intros s; simpl; [lia|].
  destruct (search ci r s) as [m|] eqn:E; [|lia].
  apply search_Some in E as (Es & Hm & _).
  destruct (Hf (matched m) (groups m) Hm) as [Hne Hle].
  destruct (matched m) as [|x t] eqn:Em; [congruence|].
  rewrite Es, !length_app. specialize (IH (rest m)). simpl in *. lia.
Qed.

End ReplaceFacts.

(** ** The fields of the descriptor *)

Module DescriptorFacts.
Import RegexFacts SearchFacts LangFacts CaptureFacts ReplaceFacts Detector.

Lemma no_backslash (s : str) :
  forallb (fun c => negb (code c =? 92)%N) s = true -> ~ In backslash s.
Proof.
  intros H Hin. rewrite forallb_forall in H. apply H in Hin.
  vm_compute in Hin. discriminate.
Qed.

Lemma decodePdfString_no_backslash (s : str) :
  ~ In backslash s -> decodePdfString s = s.
Proof.
  intros H. unfold decodePdfString. destruct s as [|x t]; [reflexivity|].
  unfold octal_re.
  assert (R : forall r f, replace_g false (Cat (Chr backslash) r) f (x :: t) = x :: t).
  { intros r f. apply replace_g_none, search_first_char, H. }
  rewrite !R. reflexivity.
Qed.

Lemma digit_not_backslash (ds : str) : allDigits ds -> ~ In backslash ds.
Proof.
  intros H Hin. unfold allDigits in H. rewrite Forall_forall in H.
  apply H in Hin. vm_compute in Hin. discriminate.
Qed.

(** A match of the pattern of the date: the key, white space, the opening
    of the literal and fourteen digits, which are its one group. *)
Lemma Captures_date (m : str) (g : list str) :
  Captures false date_re m g ->
  exists ws ds, m = lit "/M" ++ ws ++ lit "(D:" ++ ds /\ allSpace ws
                /\ allDigits ds /\ length ds = 14 /\ g = [ds].
Proof.
  unfold date_re, word. rewrite !cat_cons, cat_one. intros H.
  apply Captures_Cat in H as (k & m1 & g1 & g1' & -> & -> & Hk & H).
  apply Captures_Cat in H as (ws & m2 & g2 & g2' & -> & -> & Hw & H).
  apply Captures_Cat in H as (o & ds & g3 & g3' & -> & -> & Ho & H).
  apply Captures_Cap in H as (g4 & -> & H).
  apply Captures_word in Hk as [-> Hk], Ho as [-> Ho].
  apply Captures_Rep in Hw as [-> Hw], H as [-> H].
  apply Matches_word_cs in Hk, Ho. subst k o.
  apply Matches_star in Hw. apply Matches_Rep in H as (Hd & Hlo & Hhi).
  exists ws, ds. repeat split; auto. specialize (Hhi 14 eq_refl). lia.
Qed.

(** A match of the pattern of a string entry: the key, white space, and the
    literal between its parentheses, which is its one group. *)
Lemma Captures_literal (key : string) (m : str) (g : list str) :
  Captures false (literal_re key) m g ->
  exists ws body, m = lit key ++ ws ++ lit "(" ++ body ++ lit ")" /\ allSpace ws
                  /\ g = [body].
Proof.
  unfold literal_re, word. rewrite !cat_cons, cat_one. intros H.
  apply Captures_Cat in H as (k & m1 & g1 & g1' & -> & -> & Hk & H).
  apply Captures_Cat in H as (ws & m2 & g2 & g2' & -> & -> & Hw & H).
  apply Captures_Cat in H as (o & m3 & g3 & g3' & -> & -> & Ho & H).
  apply Captures_Cat in H as (body & c & g4 & g4' & -> & -> & Hb & Hc).
  apply Captures_word in Hk as [-> Hk], Ho as [-> Ho], Hc as [-> Hc].
  apply Captures_Rep in Hw as [-> Hw].
  apply Matches_word_cs in Hk, Ho, Hc. subst k o c.
  apply Matches_star in Hw.
  apply Captures_Cap in Hb as (g5 & -> & Hb).
  apply Captures_Cat in Hb as (b1 & b2 & g6 & g7 & -> & -> & Hb1 & Hb2).
  apply Captures_Rep in Hb1 as [-> _].
  assert (E7 : g7 = []).
  { clear - Hb2. remember (Many _) as r eqn:Er.
    induction Hb2; try discriminate; auto.
    injection Er as ->. rewrite (IHHb2_2 eq_refl), app_nil_r.
    clear - Hb2_1.
    apply Captures_Cat in Hb2_1 as (? & ? & ? & ? & _ & -> & Hx & Hy).
    apply Captures_Chr in Hx as [-> _].
    apply Captures_Cat in Hy as (? & ? & ? & ? & _ & -> & Hx & Hy).
    apply (@Captures_word false (lit ")")) in Hx as [-> _].
    apply Captures_Rep in Hy as [-> _].
    reflexivity. }
  subst g7. exists ws, (b1 ++ b2). repeat split; auto.
Qed.

End DescriptorFacts.

(** ** Where a string literal ends *)

Module LiteralFacts.
Import RegexFacts SearchFacts LangFacts CaptureFacts NumberFacts MarkerFacts Detector.

Lemma hd_flat_map {A B : Type} (f : A -> list B) (l : list A) (y : B) :
  hd_error (flat_map f l) = Some y -> exists x, In x l /\ hd_error (f x) = Some y.
Proof.
  induction l as [|x l IH]; simpl; [discriminate|].
  destruct (f x) as [|z t] eqn:E; simpl.
  - intros H. destruct (IH H) as (x' & Hin & Hx). eauto.
  - intros [= <-]. exists x. rewrite E. auto.
Qed.

Lemma span_fst_Forall (p : ascii -> bool) (s : str) :
  Forall (fun c => p c = true) (fst (span p s)).
Proof.
  induction s as [|c t IH]; simpl; [constructor|].
  destruct (p c) eqn:E; [|constructor].
  destruct (span p t) as [a b]. simpl in *. constructor; auto.
Qed.

Lemma span_snd_head (p : ascii -> bool) (s : str) (c : ascii) (t : str) :
  snd (span p s) = c :: t -> p c = false.
Proof.
  induction s as [|x s IH]; simpl; [discriminate|].
  destruct (p x) eqn:E.
  - destruct (span p s) as [a b]. simpl in *. exact IH.
  - intros [= <- <-]. exact E.
Qed.

Lemma not_rparen_run (s : str) : ~ In ")"%char (fst (span notRParen s)).
Proof.
  intros Hin. pose proof (span_fst_Forall notRParen s) as H.
  rewrite Forall_forall in H. apply H in Hin. discriminate.
Qed.

(** The first success of the matcher on the body of a literal takes the
    characters up to the first closing parenthesis: the rounds for an
    escaped parenthesis only come after it, as alternatives that are never
    needed. *)
Lemma hd_literal_tail (caps : list str) (s : str) c' s' :
  hd_error (run false literal_tail caps s) = Some (c', s') ->
  c' = caps ++ [fst (span notRParen s)].
Proof.
  destruct (snd (span notRParen s)) as [|x t] eqn:E.
  - (* no closing parenthesis at all: nothing matches *)
    intros H. exfalso.
    assert (Hin : In (c', s') (run false literal_tail caps s)).
    { destruct (run false literal_tail caps s); [discriminate|].
      injection H as ->. left; reflexivity. }
    apply run_sound in Hin as (m & Es & Hm).
    apply Matches_Cat in Hm as (b & cl & -> & _ & Hcl).
    apply (Matches_word_cs (lit ")")) in Hcl. subst cl.
    pose proof (span_fst_snd notRParen s) as S. rewrite E, app_nil_r in S.
    apply (@not_rparen_run s). rewrite <- S, Es.
    apply in_or_app; left. apply in_or_app; right. left; reflexivity.
  - pose proof (span_snd_head _ _ E) as Hx.
    assert (Ex : x = ")"%char).
    { unfold notRParen in Hx. apply negb_false_iff, N.eqb_eq in Hx.
      apply code_inj. exact Hx. }
    subst x.
    pose proof (span_fst_snd notRParen s) as S. rewrite E in S.
    destruct (takes_last notRParen s) as (l & El & Hl).
    unfold literal_tail. cbn [run].
    change (run false (star notRParen) caps s)
      with (map (fun s' : str => (caps, s')) (rev (takes notRParen s))).
    rewrite El, E, rev_app_distr. cbn [rev app map flat_map fst snd].
    change (many_loop _ (length (")"%char :: t)) caps (")"%char :: t))
      with [(caps, ")"%char :: t)].
    cbn [app map flat_map fst snd].
    remember (fst (span notRParen s)) as a eqn:Ea. clear Ea El Hl E.
    rewrite S, firstn_length_diff.
    change (run false (word ")") (caps ++ [a]) (")"%char :: t))
      with [(caps ++ [a], t)].
    cbn [app hd_error]. intros [= <- <-]. reflexivity.
Qed.

Lemma run_nocap_word (w : str) (c : list str) (s : str) c' s' :
  In (c', s') (run false (word_of w) c s) -> c' = c.
Proof.
  intros H. apply run_captures in H as (m & g & _ & -> & Hc).
  apply Captures_word in Hc as [-> _]. apply app_nil_r.
Qed.

(** What the pattern of a string entry captures holds no closing
    parenthesis. *)
Lemma exec_literal (key : string) (s : str) (g : list str) (s' : str) :
  exec_here false (literal_re key) s = Some (g, s') ->
  exists body, g = [body] /\ ~ In ")"%char body.
Proof.
  unfold exec_here, literal_re. rewrite !cat_cons. fold literal_tail.
  cbn [run]. intros H.
  apply hd_flat_map in H as ([c1 s1] & H1 & H). apply run_nocap_word in H1. subst c1.
  cbn [fst snd] in H.
  apply hd_flat_map in H as ([c2 s2] & H2 & H). cbn [fst snd] in H.
  apply in_map_iff in H2 as (? & [= <- <-] & _).
  apply hd_flat_map in H as ([c3 s3] & H3 & H). cbn [fst snd] in H.
  apply (run_nocap_word (lit "(")) in H3. subst c3.
  apply hd_literal_tail in H. subst g. simpl.
  eexists; split; [reflexivity | apply not_rparen_run].
Qed.

End LiteralFacts.

(** ** The stream objects that the detector reads *)

Module StreamFacts.
Import RegexFacts SearchFacts LangFacts StringFacts NumberFacts MarkerFacts.
Import CaptureFacts LiteralFacts DetectorFacts Detector.

(** *** The first success of the matcher *)





Lemma flat_map_map {A B C : Type} (g : A -> B) (f : B -> list C) (l : list A) :
  flat_map f (map g l) = flat_map (fun x => f (g x)) l.
Proof. induction l as [|a l IH]; simpl; [reflexivity|]. rewrite IH. reflexivity. Qed.

(** *** Patterns that read a text in one way only *)

(** A greedy repetition followed by a pattern that matches no text starting
    with a character of the class: only the longest run is followed by a
    match. *)
Lemma flat_map_longest_run (B : Type) (f : str -> list B) (p : ascii -> bool) :
  (forall x t, p x = true -> f (x :: t) = []) ->
  forall s lo,
    flat_map f (rev (skipn lo (takes p s)))
    = if lo <=? length (fst (span p s)) then f (snd (span p s)) else [].
Proof.
  intros Hrej. induction s as [|x t IH]; intros lo.
  - cbn [takes span fst snd length]. destruct lo as [|lo].
    + simpl. apply app_nil_r.
    + cbn [skipn]. rewrite skipn_nil. reflexivity.
  - cbn [takes span]. destruct (p x) eqn:E.
    + destruct lo as [|lo].
      * change (skipn 0 ((x :: t) :: takes p t)) with ((x :: t) :: skipn 0 (takes p t)).
        cbn [rev]. rewrite flat_map_app. cbn [flat_map].
        rewrite (Hrej x t E), !app_nil_r.
        rewrite (IH 0). destruct (span p t) as [a b]. reflexivity.
      * cbn [skipn]. rewrite (IH lo). destruct (span p t) as [a b]. reflexivity.
    + cbn [fst snd length]. destruct lo as [|lo].
      * simpl. apply app_nil_r.
      * cbn [skipn]. rewrite skipn_nil. reflexivity.
Qed.

Lemma run_greedy_then (ci : bool) (lo : nat) (p : ascii -> bool) (r2 : regex)
    (c : list str) (s : str) :
  (forall c' x t, p x = true -> run ci r2 c' (x :: t) = []) ->
  run ci (Cat (Rep true lo None p) r2) c s
  = if lo <=? length (fst (span p s)) then run ci r2 c (snd (span p s)) else [].
Proof.
  intros Hrej.
  change (run ci (Cat (Rep true lo None p) r2) c s)
    with (flat_map (fun cs => run ci r2 (fst cs) (snd cs))
            (map (fun s' => (c, s')) (rev (skipn lo (takes p s))))).
  rewrite flat_map_map. cbn [fst snd].
  apply (flat_map_longest_run (fun s' => run ci r2 c s') p (Hrej c) s lo).
Qed.

Lemma run_word (w : str) (c : list str) (s : str) :
  run false (word_of w) c s
  = if prefixb w s then [(c, skipn (length w) s)] else [].
Proof.
  revert s; induction w as [|a w IH]; intros s; [reflexivity|].
  cbn [word_of run]. destruct s as [|x t]; [reflexivity|].
  cbn [prefixb length skipn]. unfold char_eq.
  destruct (code a =? code x)%N; [|reflexivity].
  cbn [flat_map fst snd andb]. rewrite IH, app_nil_r. reflexivity.
Qed.





(** *** White space and the characters of the pattern *)

Lemma space_code (x : ascii) :
  isSpace x = true -> (code x <= 32 \/ code x = 160)%N.
Proof.
  unfold isSpace. intros H.
  apply orb_prop in H as [H|H]; [apply orb_prop in H as [H|H]|].
  - apply andb_prop in H as [_ H]. apply N.leb_le in H. lia.
  - apply N.eqb_eq in H. lia.
  - apply N.eqb_eq in H. lia.
Qed.

(** No word of the pattern starts with white space. *)
Lemma word_not_space (a : ascii) (w : str) (x : ascii) (t : str) :
  (32 < code a)%N -> code a <> 160%N -> isSpace x = true ->
  prefixb (a :: w) (x :: t) = false.
Proof.
  intros H1 H2 Hx. cbn [prefixb].
  replace (code a =? code x)%N with false; [reflexivity|].
  symmetry. apply N.eqb_neq. apply space_code in Hx. lia.
Qed.


Lemma newline_space : isSpace newline = true.
Proof. reflexivity. Qed.




(** *** The end of a stream: white space and [endstream] *)

Lemma run_close (c : list str) (s : str) :
  run false stream_close c s
  = if prefixb (lit "endstream") (snd (span isSpace s))
    then [(c, skipn 9 (snd (span isSpace s)))] else [].
Proof.
  unfold stream_close, star, word.
  rewrite run_greedy_then.
  - cbn [Nat.leb]. apply run_word.
  - intros c' x t Hx. rewrite run_word.
    change (lit "endstream") with ("e"%char :: lit "ndstream").
    rewrite (@word_not_space "e"%char (lit "ndstream") x t); auto.
    + vm_compute. reflexivity.
    + discriminate.
Qed.



Lemma close_nil_any (c c' : list str) (s : str) :
  run false stream_close c s = [] -> run false stream_close c' s = [].
Proof.
  rewrite !run_close.
  destruct (prefixb (lit "endstream") (snd (span isSpace s))); [discriminate|reflexivity].
Qed.

(** *** The lazy body: the shortest text before a closing [endstream] *)










(** *** What follows the word [stream]: white space up to its last line feed,
    then the body *)





(** *** The steps of a pattern without choice *)








(** *** The header of a stream object *)




(** *** A stream object at the head of a text *)






(** *** The leftmost match *)



(** *** The stream objects of a text are the successive matches *)





End StreamFacts.

(** ** The detector: what is established of [hasLTV] *)

Module LtvDetectionClaims.
Import RegexFacts SearchFacts LangFacts DetectorFacts StreamFacts Detector.




End LtvDetectionClaims.

(** ** The detector: the fields it reports *)

Module DetectorExtras.
Import RegexFacts SearchFacts LangFacts CaptureFacts ReplaceFacts DescriptorFacts.
Import LiteralFacts Detector.

(** X1: [decodePdfString] leaves a text without a backslash as it is. *)
Theorem decodePdfString_keeps_plain_text (s : str) :
  forallb (fun c => negb (code c =? 92)%N) s = true -> decodePdfString s = s.
Proof. intros H. apply decodePdfString_no_backslash, no_backslash, H. Qed.

Lemma decodePdfString_keeps_plain_text_witness :
  decodePdfString (lit "Budi Santoso") = lit "Budi Santoso".
Proof. apply decodePdfString_keeps_plain_text. reflexivity. Defined.

Lemma escape_shrinks (r : regex) (f : str -> list str -> str) (s : str) :
  (forall m g, length (f m g) <= 1) ->
  length (replace_g false (Cat (Chr backslash) r) f s) <= length s.
Proof.
  intros Hf. apply replace_from_length. intros m g Hm.
  apply Matches_Cat in Hm as (m1 & m2 & -> & H1 & _).
  apply Matches_Chr in H1 as (x & -> & _). split; [discriminate|].
  specialize (Hf ([x] ++ m2) g). simpl in *. lia.
Qed.

(** X3: [decodePdfString] never returns a text longer than the one it is
    given: every escape sequence is replaced by one character. *)
Theorem decodePdfString_never_longer (s : str) :
  length (decodePdfString s) <= length s.
Proof.
  unfold decodePdfString. destruct s as [|x t]; [simpl; lia|].
  unfold octal_re.
  repeat (etransitivity;
          [apply escape_shrinks;
           intros m g; unfold const, fromCharCode;
           try destruct (parseInt _ _); simpl; lia|]).
  reflexivity.
Qed.


Lemma describedPdf_checked :
  @checkPdfSignature Examples.noZlib Examples.describedPdf
  = Sig Examples.describedPdfResult.
Proof. vm_compute. reflexivity. Qed.


(** What [extract] returns for the pattern of a string entry is nothing, or
    the decoded text between the opening parenthesis of an entry of that
    key and the first closing parenthesis after it. *)
Lemma extract_literal (pdfText : str) (key : string) :
  extract pdfText (literal_re key) = []
  \/ exists pre ws body post,
       pdfText = pre ++ lit key ++ ws ++ lit "(" ++ body ++ lit ")" ++ post
       /\ allSpace ws /\ ~ In ")"%char body
       /\ extract pdfText (literal_re key) = decodePdfString body.
Proof.
  unfold extract.
  destruct (search false (literal_re key) pdfText) as [m|] eqn:E; [|left; reflexivity].
  right. pose proof (search_Captures _ _ _ E) as (Es & Hc).
  apply search_Some in E as (_ & _ & He & _).
  apply exec_literal in He as (body' & Eg' & Hb).
  apply Captures_literal in Hc as (ws & body & Em & Hws & Eg).
  rewrite Eg in Eg'. injection Eg' as <-.
  exists (skipped m), ws, body, (rest m). rewrite Eg. cbn [nth].
  split; [|split; [exact Hws | split; [exact Hb | reflexivity]]].
  rewrite Es, Em, <- !app_assoc. reflexivity.
Qed.

(** X5: The reason and the location that the detector reports are each empty,
    or the decoded text of a [/Reason (...)] or [/Location (...)] entry of
    the buffer up to the first closing parenthesis after the opening one:
    an escaped parenthesis ends the literal as well. *)
Theorem reason_and_location_are_decoded_entries {zlib : Zlib}
    (pdfBuffer : str) (d : descriptor) :
  checkPdfSignature pdfBuffer = Sig d ->
  (reason d = []
   \/ exists pre ws body post,
        pdfBuffer = pre ++ lit "/Reason" ++ ws ++ lit "(" ++ body ++ lit ")" ++ post
        /\ allSpace ws /\ ~ In ")"%char body /\ reason d = decodePdfString body)
  /\ (location d = []
      \/ exists pre ws body post,
           pdfBuffer = pre ++ lit "/Location" ++ ws ++ lit "(" ++ body ++ lit ")" ++ post
           /\ allSpace ws /\ ~ In ")"%char body
           /\ location d = decodePdfString body).
Proof.
  unfold checkPdfSignature.
  destruct (negb (test true sig_re pdfBuffer)); [discriminate|].
  intros [= <-]. cbn [reason location].
  split; [apply (extract_literal pdfBuffer "/Reason")
         | apply (extract_literal pdfBuffer "/Location")].
Qed.

Lemma reason_and_location_are_decoded_entries_witness :
  (reason Examples.describedPdfResult = []
   \/ exists pre ws body post,
        Examples.describedPdf
        = pre ++ lit "/Reason" ++ ws ++ lit "(" ++ body ++ lit ")" ++ post
        /\ allSpace ws /\ ~ In ")"%char body
        /\ reason Examples.describedPdfResult = decodePdfString body)
  /\ (location Examples.describedPdfResult = []
      \/ exists pre ws body post,
           Examples.describedPdf
           = pre ++ lit "/Location" ++ ws ++ lit "(" ++ body ++ lit ")" ++ post
           /\ allSpace ws /\ ~ In ")"%char body
           /\ location Examples.describedPdfResult = decodePdfString body).
Proof.
  exact (@reason_and_location_are_decoded_entries Examples.noZlib
           Examples.describedPdf Examples.describedPdfResult describedPdf_checked).
Defined.

Lemma fourteen (ds : str) :
  length ds = 14 ->
  exists y1 y2 y3 y4 mo1 mo2 d1 d2 h1 h2 mi1 mi2 s1 s2,
    ds = [y1; y2; y3; y4; mo1; mo2; d1; d2; h1; h2; mi1; mi2; s1; s2].
Proof.
  intros H.
  do 14 (destruct ds as [|? ds]; [discriminate|]).
  destruct ds; [|discriminate]. eauto 20.
Qed.

(** X6: The date that the detector reports is empty, or the fourteen digits
    after [(D:] of an [/M] entry of the text, rearranged from
    year-month-day-hour-minute-second to day/month/year hour:minute:second. *)
Theorem date_is_rearranged_timestamp {zlib : Zlib} (pdfBuffer : str) (d : descriptor) :
  checkPdfSignature pdfBuffer = Sig d ->
  date d = []
  \/ exists pre ws post y1 y2 y3 y4 mo1 mo2 d1 d2 h1 h2 mi1 mi2 s1 s2,
       pdfBuffer = pre ++ lit "/M" ++ ws ++ lit "(D:"
                   ++ [y1; y2; y3; y4; mo1; mo2; d1; d2; h1; h2; mi1; mi2; s1; s2]
                   ++ post
       /\ allSpace ws
       /\ allDigits [y1; y2; y3; y4; mo1; mo2; d1; d2; h1; h2; mi1; mi2; s1; s2]
       /\ date d = [d1; d2; "/"; mo1; mo2; "/"; y1; y2; y3; y4; " ";
                    h1; h2; ":"; mi1; mi2; ":"; s1; s2]%char.
Proof.
  unfold checkPdfSignature.
  destruct (negb (test true sig_re pdfBuffer)); [discriminate|].
  intros [= <-]. cbn [date]. unfold extract.
  destruct (search false date_re pdfBuffer) as [m|] eqn:E; [|left; reflexivity].
  right. apply search_Captures in E as (Es & Hc).
  apply Captures_date in Hc as (ws & ds & Em & Hws & Hds & Hlen & Eg).
  rewrite Eg. cbn [nth].
  rewrite (@decodePdfString_no_backslash ds (digit_not_backslash Hds)).
  destruct (fourteen ds Hlen)
    as (y1 & y2 & y3 & y4 & mo1 & mo2 & d1 & d2 & h1 & h2 & mi1 & mi2 & s1 & s2 & ->).
  exists (skipped m), ws, (rest m), y1, y2, y3, y4, mo1, mo2, d1, d2, h1, h2,
         mi1, mi2, s1, s2.
  split; [|split; [exact Hws | split; [exact Hds | reflexivity]]].
  rewrite Es, Em, <- !app_assoc. reflexivity.
Qed.

Lemma date_is_rearranged_timestamp_witness :
  date Examples.describedPdfResult = []
  \/ exists pre ws post y1 y2 y3 y4 mo1 mo2 d1 d2 h1 h2 mi1 mi2 s1 s2,
       Examples.describedPdf
       = pre ++ lit "/M" ++ ws ++ lit "(D:"
         ++ [y1; y2; y3; y4; mo1; mo2; d1; d2; h1; h2; mi1; mi2; s1; s2] ++ post
       /\ allSpace ws
       /\ allDigits [y1; y2; y3; y4; mo1; mo2; d1; d2; h1; h2; mi1; mi2; s1; s2]
       /\ date Examples.describedPdfResult
          = [d1; d2; "/"; mo1; mo2; "/"; y1; y2; y3; y4; " ";
             h1; h2; ":"; mi1; mi2; ":"; s1; s2]%char.
Proof.
  exact (@date_is_rearranged_timestamp Examples.noZlib Examples.describedPdf
           Examples.describedPdfResult describedPdf_checked).
Defined.

End DetectorExtras.

(** ** The timestamp helpers *)

Module TsaFacts.
Import RegexFacts SearchFacts LangFacts CaptureFacts StringFacts HoldsFacts.
Import NumberFacts TsaHelper.

Lemma split_first_None (pat s : str) :
  split_first pat s = None -> ~ Holds pat s.
Proof.
  induction s as [|c t IH]; simpl.
  - destruct (prefixb pat []) eqn:E; [discriminate|]. intros _ (a & b & Es).
    destruct a; [|discriminate]. simpl in Es.
    rewrite Es, prefixb_refl_app in E. discriminate.
  - destruct (prefixb pat (c :: t)) eqn:E; [discriminate|].
    destruct (split_first pat t) as [[a' b']|]; [discriminate|].
    intros _ (a & b & Es). destruct a as [|x a].
    + simpl in Es. rewrite Es, prefixb_refl_app in E. discriminate.
    + injection Es as -> ->. apply IH; [reflexivity|]. exists a, b. reflexivity.
Qed.

(** The occurrence that [split_first] finds is the first one. *)
Lemma split_first_leftmost (pat s a b : str) :
  split_first pat s = Some (a, b) ->
  forall a' b', s = a' ++ pat ++ b' -> length a <= length a'.
Proof.
  revert a b; induction s as [|c t IH]; intros a b; simpl.
  - destruct (prefixb pat []) eqn:E; [|discriminate].
    intros [= <- <-] a' b' _. simpl. lia.
  - destruct (prefixb pat (c :: t)) eqn:E.
    + intros [= <- <-] a' b' _. simpl. lia.
    + destruct (split_first pat t) as [[a0 b0]|]; [|discriminate].
      intros [= <- <-] a' b' Es. destruct a' as [|x a'].
      * simpl in Es. rewrite Es, prefixb_refl_app in E. discriminate.
      * injection Es as _ Es. simpl.
        specialize (IH a0 b0 eq_refl a' b' Es). lia.
Qed.

(** A pattern that starts with a word is only found in a text that holds
    the word. *)
Lemma search_word_Holds (w : str) (r : regex) (s : str) (f : found) :
  search false (Cat (word_of w) r) s = Some f -> Holds w s.
Proof.
  intros H. apply search_Some in H as (Es & Hm & _).
  apply Matches_Cat in Hm as (m1 & m2 & Em & H1 & _).
  apply Matches_word_cs in H1. subst m1.
  exists (skipped f), (m2 ++ rest f). rewrite Es, Em, <- app_assoc. reflexivity.
Qed.

Lemma findIndex_None {A : Type} (p : A -> bool) (l : list A) :
  (forall x, In x l -> p x = false) -> Asn1.findIndex p l = None.
Proof.
  induction l as [|x l IH]; simpl; intros H; [reflexivity|].
  rewrite (H x (or_introl eq_refl)), IH; auto.
Qed.

Lemma findIndex_first {A : Type} (p : A -> bool) (pre : list A) (x : A)
    (post : list A) :
  (forall y, In y pre -> p y = false) -> p x = true ->
  Asn1.findIndex p (pre ++ x :: post) = Some (length pre).
Proof.
  induction pre as [|y pre IH]; simpl; intros Hpre Hx.
  - rewrite Hx. reflexivity.
  - rewrite (Hpre y (or_introl eq_refl)), IH; auto.
Qed.

Lemma updateChild_at (c t : N) (pre : list asn1) (x : asn1) (post : list asn1)
    (f : asn1 -> outcome asn1) :
  Asn1.updateChild (Constr c t (pre ++ x :: post)) (length pre) f
  = obind (f x) (fun y => Ret (Constr c t (pre ++ y :: post))).
Proof.
  unfold Asn1.updateChild.
  rewrite nth_error_app2, Nat.sub_diag by lia. cbn [nth_error].
  rewrite firstn_app, Nat.sub_diag, firstn_all, app_nil_r. cbn [firstn].
  replace (skipn (S (length pre)) (pre ++ x :: post)) with post; [reflexivity|].
  rewrite skipn_app, skipn_all2 by lia.
  replace (S (length pre) - length pre) with 1 by lia. reflexivity.
Qed.

(** The bytes of a run of hex digits: one for every two digits. *)
Lemma fromHex_length (h : str) :
  forallb isHex h = true -> length (fromHex h) = length h / 2.
Proof.
  assert (G : forall n h, length h <= n -> forallb isHex h = true ->
                          length (fromHex h) = length h / 2).
  { induction n as [|n IH]; intros [|a [|b t]] Hn Hh; try reflexivity;
      simpl in Hn; try lia.
    cbn [forallb] in Hh. apply andb_prop in Hh as [Ha Hh].
    apply andb_prop in Hh as [Hb Ht]. unfold isHex in Ha, Hb.
    cbn [fromHex]. rewrite Ha, Hb.
    unfold isRadixDigit in Ha, Hb.
    destruct (digitVal a); [|discriminate]. destruct (digitVal b); [|discriminate].
    cbn [length]. rewrite IH by (auto; lia).
    change (S (S (length t))) with (1 * 2 + length t).
    rewrite Nat.div_add_l by lia. lia. }
  intros H. apply (G (length h)); auto.
Qed.

Lemma failed_dec {net : Network} (log : list call) (q : call) :
  failed (answer log q) \/ ~ failed (answer log q).
Proof.
  destruct (answer log q) as [msg|status d]; simpl; auto.
  destruct (Z.eq_dec status 200); auto.
Qed.

Lemma Captures_contents (m : str) (g : list str) :
  Captures false contents_re m g ->
  exists ws hex, m = lit "/Contents" ++ ws ++ lit "<" ++ hex ++ lit ">"
                 /\ allSpace ws /\ Forall (fun c => isHex c = true) hex
                 /\ hex <> [] /\ g = [hex].
Proof.
  unfold contents_re, word. rewrite !cat_cons, cat_one. intros H.
  apply Captures_Cat in H as (k & m1 & g1 & g1' & -> & -> & Hk & H).
  apply Captures_Cat in H as (ws & m2 & g2 & g2' & -> & -> & Hw & H).
  apply Captures_Cat in H as (o & m3 & g3 & g3' & -> & -> & Ho & H).
  apply Captures_Cat in H as (hex & cl & g4 & g4' & -> & -> & Hh & Hc).
  apply Captures_Cap in Hh as (g5 & -> & Hh).
  apply Captures_word in Hk as [-> Hk], Ho as [-> Ho], Hc as [-> Hc].
  apply Captures_Rep in Hw as [-> Hw], Hh as [-> Hh].
  apply Matches_word_cs in Hk, Ho, Hc. subst k o cl.
  apply Matches_star in Hw. apply Matches_plus in Hh as [Hh Hne].
  exists ws, hex. repeat split; auto.
Qed.

Lemma Captures_number (m : str) (g : list str) :
  Captures false (Cap (plus isDigit)) m g -> allDigits m /\ m <> [] /\ g = [m].
Proof.
  intros H. apply Captures_Cap in H as (g' & -> & H).
  apply Captures_Rep in H as [-> H]. apply Matches_plus in H as [H Hne].
  repeat split; auto.
Qed.

Lemma Captures_byteRange (m : str) (g : list str) :
  Captures false byteRange_re m g ->
  exists a b c d,
    g = [a; b; c; d]
    /\ (allDigits a /\ a <> []) /\ (allDigits b /\ b <> [])
    /\ (allDigits c /\ c <> []) /\ (allDigits d /\ d <> []).
Proof.
  unfold byteRange_re, word. rewrite !cat_cons, cat_one. intros H.
  apply Captures_Cat in H as (? & ? & ? & ? & _ & -> & Hk & H).
  apply Captures_Cat in H as (? & ? & ? & ? & _ & -> & H1 & H).
  apply Captures_Cat in H as (? & ? & ? & ? & _ & -> & H2 & H).
  apply Captures_Cat in H as (? & ? & ? & ? & _ & -> & H3 & H).
  apply Captures_Cat in H as (a & ? & ? & ? & _ & -> & Ha & H).
  apply Captures_Cat in H as (? & ? & ? & ? & _ & -> & H4 & H).
  apply Captures_Cat in H as (b & ? & ? & ? & _ & -> & Hb & H).
  apply Captures_Cat in H as (? & ? & ? & ? & _ & -> & H5 & H).
  apply Captures_Cat in H as (c & ? & ? & ? & _ & -> & Hc & H).
  apply Captures_Cat in H as (? & ? & ? & ? & _ & -> & H6 & H).
  apply Captures_Cat in H as (d & ? & ? & ? & _ & -> & Hd & H).
  apply Captures_Cat in H as (? & ? & ? & ? & _ & -> & H7 & H).
  apply Captures_word in Hk as [-> _], H2 as [-> _], H as [-> _].
  apply Captures_Rep in H1 as [-> _], H3 as [-> _], H4 as [-> _], H5 as [-> _],
                        H6 as [-> _], H7 as [-> _].
  apply Captures_number in Ha as (Ha & Hna & ->), Hb as (Hb & Hnb & ->),
                           Hc as (Hc & Hnc & ->), Hd as (Hd & Hnd & ->).
  exists a, b, c, d. simpl. auto 10.
Qed.

Lemma parseInt_number (ds : str) :
  allDigits ds -> ds <> [] -> parseInt ds None = Num (round53 (value10 ds)).
Proof.
  intros Hd Hne. rewrite <- (app_nil_r ds) at 1.
  apply parseInt_digits; auto. discriminate.
Qed.

End TsaFacts.

Module TsaExtras.
Import RegexFacts SearchFacts LangFacts CaptureFacts StringFacts HoldsFacts.
Import NumberFacts TsaFacts TsaClaims DssFailureClaims TsaHelper.

(** X9: tsa-helper.js: [replaceSignatureInPDF] changes nothing but the first
    placeholder [/Contents <old>] of the buffer, the one that no other comes
    before: what is before and after it stays, and the placeholder gets the
    hex of the new signature and zeros up to its width.  The buffer comes
    back as it is when the hex is too long for the placeholder or when the
    buffer does not hold the placeholder written that way. *)
Theorem replace_changes_only_the_placeholder
    (pdfBuffer oldSignatureHex newSignature : str) :
  (exists before after zeros,
     pdfBuffer = before ++ lit "/Contents <" ++ oldSignatureHex ++ lit ">" ++ after
     /\ (forall a b,
           pdfBuffer = a ++ lit "/Contents <" ++ oldSignatureHex ++ lit ">" ++ b ->
           length before <= length a)
     /\ replaceSignatureInPDF pdfBuffer oldSignatureHex newSignature
        = before ++ lit "/Contents <" ++ toHex newSignature ++ repeat "0"%char zeros
          ++ lit ">" ++ after
     /\ length (toHex newSignature) + zeros = length oldSignatureHex)
  \/ (replaceSignatureInPDF pdfBuffer oldSignatureHex newSignature = pdfBuffer
      /\ (length oldSignatureHex < length (toHex newSignature)
          \/ ~ Holds (lit "/Contents <" ++ oldSignatureHex ++ lit ">") pdfBuffer)).
Proof.
  unfold replaceSignatureInPDF.
  destruct (length oldSignatureHex <? length (toHex newSignature)) eqn:E.
  - right. apply Nat.ltb_lt in E. auto.
  - apply Nat.ltb_ge in E. unfold replace_str.
    destruct (split_first _ pdfBuffer) as [[a b]|] eqn:Es.
    + left. exists a, b, (length oldSignatureHex - length (toHex newSignature)).
      pose proof (@split_first_leftmost _ _ _ _ Es) as Hfirst.
      apply split_first_spec in Es. rewrite <- !app_assoc in Es.
      split; [exact Es|]. split.
      { intros a' b' E'. apply (Hfirst a' b'). rewrite <- !app_assoc. exact E'. }
      split; [|lia].
      unfold padEnd. rewrite <- !app_assoc. reflexivity.
    + right. split; [reflexivity|]. right. apply split_first_None. exact Es.
Qed.

(** X11: tsa-helper.js: [requestTimestamp] asks the server it is given once; a
    server that answers 200 is the only one asked and nothing is thrown; a
    failing server other than the default one is not followed by another
    call, and the error is thrown; the default server, failing, is followed
    by one call to the alternate server. *)
Theorem requestTimestamp_calls {forge : Forge} {crypto : Crypto} {net : Network}
    (data url : str) (log : list call) :
  (~ failed (answer log (tsaQuery data url)) ->
   exists token,
     requestTimestamp data url log = (Ret token, log ++ [tsaQuery data url]))
  /\ (failed (answer log (tsaQuery data url)) -> url <> FREETSA ->
      exists e,
        requestTimestamp data url log = (Throw e, log ++ [tsaQuery data url]))
  /\ (failed (answer log (tsaQuery data url)) -> url = FREETSA ->
      snd (requestTimestamp data url log)
      = log ++ [tsaQuery data FREETSA; tsaQuery data DIGICERT]).
Proof.
  unfold requestTimestamp. split; [|split].
  - intros H. apply round_succeeds. exact H.
  - intros H Hu. destruct (round_fails 1 data url log H) as [e He].
    destruct (str_eqb url FREETSA) eqn:Eu.
    + apply str_eqb_eq in Eu. contradiction.
    + eauto.
  - intros H ->. destruct (round_fails 1 data FREETSA log H) as [e He].
    rewrite He. change (str_eqb FREETSA FREETSA) with true. cbv iota.
    unfold io_catch.
    destruct (alternate_round 0 data (log ++ [tsaQuery data FREETSA]))
      as [[_ [e2 E2]]|[_ [t2 E2]]]; rewrite E2, <- app_assoc; reflexivity.
Qed.

(** X12: tsa-helper.js: a response with HTTP status 200 whose own status is a
    rejection (any number but 0) is not refused: [requestTimestamp] returns
    the whole response, as it does for a response it cannot parse, and the
    caller takes it for the token. *)
Theorem rejected_timestamp_is_returned_raw {forge : Forge} {crypto : Crypto}
    {net : Network} (data url : str) (log : list call) (body : str)
    (c t c1 t1 c2 t2 : N) (v : str) (more others : list asn1) :
  answer log (tsaQuery data url) = Response 200 body ->
  fromDer body = Ret (Constr c t (Constr c1 t1 (Prim c2 t2 v :: more) :: others)) ->
  derToInteger v <> 0%Z ->
  requestTimestamp data url log = (Ret body, log ++ [tsaQuery data url]).
Proof.
  intros Ha Hd Hv. unfold requestTimestamp. cbn [requestTimestamp_rounds].
  unfold io_catch at 1. unfold io_bind, axios_post. fold (tsaQuery data url).
  rewrite Ha. cbn. unfold io_ret, parseResponse. rewrite Hd. cbn [obind].
  destruct (derToInteger v =? 0)%Z eqn:E; [apply Z.eqb_eq in E; contradiction|].
  reflexivity.
Qed.

Lemma rejected_timestamp_is_returned_raw_witness :
  @requestTimestamp Examples.rejectingForge Examples.toyCrypto Examples.okNetwork
    (lit "signature") FREETSA []
  = (Ret (lit "reply"),
     [@tsaQuery Examples.rejectingForge Examples.toyCrypto (lit "signature") FREETSA]).
Proof.
  apply (@rejected_timestamp_is_returned_raw Examples.rejectingForge
           Examples.toyCrypto Examples.okNetwork (lit "signature") FREETSA []
           (lit "reply") 0 16 0 16 0 2 [chr 2] [] []);
    [reflexivity | reflexivity | discriminate].
Defined.

(** X13: tsa-helper.js, [embedTimestampInSignature]: the attribute goes into the
    first child of the SignerInfo that is context-specific with tag 1, after
    the attributes that child has, and a SignerInfo without such a child
    gets one at its end, holding the attribute; the other children stay as
    they are.  When that child is a primitive node the step fails. *)
Theorem timestamp_goes_into_unsigned_attributes (attr : asn1) (c t : N)
    (l pre post : list asn1) (u : asn1) :
  ((forall x, In x l -> isUnsignedAttrs x = false) ->
   addUnsignedAttr isUnsignedAttrs attr (Constr c t l)
   = Ret (Constr c t (l ++ [Constr Asn1.CONTEXT_SPECIFIC 1 [attr]])))
  /\ ((forall x, In x pre -> isUnsignedAttrs x = false) ->
      isUnsignedAttrs u = true ->
      addUnsignedAttr isUnsignedAttrs attr (Constr c t (pre ++ u :: post))
      = match u with
        | Constr cu tu attrs => Ret (Constr c t (pre ++ Constr cu tu (attrs ++ [attr]) :: post))
        | Prim _ _ _ => Throw (lit "push is not a function")
        end).
Proof.
  split.
  - intros H. unfold addUnsignedAttr. rewrite (findIndex_None _ _ H). reflexivity.
  - intros Hpre Hu. unfold addUnsignedAttr.
    rewrite (@findIndex_first _ _ pre u post Hpre Hu), updateChild_at.
    destruct u; reflexivity.
Qed.

(** X14: netlify/functions/sign-pdf.js looks for the UnsignedAttrs among the
    children of class 0 (universal) with tag 1, not among the
    context-specific ones: a SignerInfo without a universal child of tag 1
    always gets a new context-specific child with the attribute, also when
    it has such a child already. *)
Theorem netlify_never_reuses_unsigned_attributes (attr : asn1) (c t : N)
    (l : list asn1) :
  (forall x, In x l -> Asn1.tagClassOf x = Asn1.UNIVERSAL -> Asn1.typeOf x <> 1%N) ->
  addUnsignedAttr NetlifySign.isUnsignedAttrs attr (Constr c t l)
  = Ret (Constr c t (l ++ [Constr Asn1.CONTEXT_SPECIFIC 1 [attr]])).
Proof.
  intros H. unfold addUnsignedAttr. rewrite findIndex_None; [reflexivity|].
  intros x Hx. unfold NetlifySign.isUnsignedAttrs.
  destruct (Asn1.tagClassOf x =? 0)%N eqn:E1; [|reflexivity].
  destruct (Asn1.typeOf x =? 1)%N eqn:E2; [|reflexivity].
  apply N.eqb_eq in E1, E2. exfalso. exact (H x Hx E1 E2).
Qed.

Lemma netlify_never_reuses_unsigned_attributes_witness :
  addUnsignedAttr NetlifySign.isUnsignedAttrs (Prim 0 4 (lit "new")) (Constr 0 16
    [Prim 0 2 [chr 1]; Constr Asn1.CONTEXT_SPECIFIC 1 [Prim 0 4 (lit "old")]])
  = Ret (Constr 0 16
           [Prim 0 2 [chr 1]; Constr Asn1.CONTEXT_SPECIFIC 1 [Prim 0 4 (lit "old")];
            Constr Asn1.CONTEXT_SPECIFIC 1 [Prim 0 4 (lit "new")]]).
Proof.
  apply (@netlify_never_reuses_unsigned_attributes (Prim 0 4 (lit "new")) 0 16
           [Prim 0 2 [chr 1]; Constr Asn1.CONTEXT_SPECIFIC 1 [Prim 0 4 (lit "old")]]).
  intros x [<-|[<-|[]]]; simpl; intros; discriminate.
Defined.

(** X15: A buffer without a [/ByteRange] or without a [/Contents] entry is not
    timestamped, and no server is asked: [addTimestampToPDF] of
    tsa-helper.js and the timestamp steps of the server and of the Netlify
    function return it as it is, with no call made. *)
Theorem unsigned_buffer_is_not_timestamped {forge : Forge} {crypto : Crypto}
    {net : Network} (pdfBuffer tsaUrl : str) (log : list call) :
  ~ Holds (lit "/ByteRange") pdfBuffer \/ ~ Holds (lit "/Contents") pdfBuffer ->
  addTimestampToPDF pdfBuffer tsaUrl log = (Ret pdfBuffer, log)
  /\ ServerLtv.tsaStage pdfBuffer log = (Ret pdfBuffer, log)
  /\ NetlifySign.tsaStage pdfBuffer log = (Ret pdfBuffer, log).
Proof.
  intros H.
  assert (E : search false byteRange_re pdfBuffer = None
              \/ search false contents_re pdfBuffer = None).
  { destruct H as [H|H]; [left|right].
    - destruct (search false byteRange_re pdfBuffer) eqn:E; [|reflexivity].
      exfalso. apply H. unfold byteRange_re, word in E. rewrite cat_cons in E.
      exact (@search_word_Holds _ _ _ _ E).
    - destruct (search false contents_re pdfBuffer) eqn:E; [|reflexivity].
      exfalso. apply H. unfold contents_re, word in E. rewrite cat_cons in E.
      exact (@search_word_Holds _ _ _ _ E). }
  assert (E1 : extractSignatureFromPDF pdfBuffer = None).
  { unfold extractSignatureFromPDF. destruct E as [-> | ->]; [reflexivity|].
    destruct (search false byteRange_re pdfBuffer); reflexivity. }
  assert (E2 : NetlifySign.extractSignatureFromPDF pdfBuffer = None).
  { unfold NetlifySign.extractSignatureFromPDF. destruct E as [-> | ->]; [reflexivity|].
    destruct (search false byteRange_re pdfBuffer); reflexivity. }
  assert (A : addTimestampToPDF pdfBuffer tsaUrl log = (Ret pdfBuffer, log)).
  { unfold addTimestampToPDF. rewrite E1. reflexivity. }
  split; [exact A|]. split.
  - unfold ServerLtv.tsaStage, io_catch, io_bind.
    unfold addTimestampToPDF. rewrite E1. cbn.
    destruct pdfBuffer; reflexivity.
  - unfold NetlifySign.tsaStage, NetlifySign.addTimestampToPDF. rewrite E2.
    reflexivity.
Qed.

Lemma plain_text_has_no_entries :
  ~ Holds (lit "/ByteRange") (lit "%PDF-1.7 plain")
  \/ ~ Holds (lit "/Contents") (lit "%PDF-1.7 plain").
Proof.
  left. apply TsaFacts.split_first_None. reflexivity.
Qed.

Lemma unsigned_buffer_is_not_timestamped_witness :
  @addTimestampToPDF Examples.toyForge Examples.toyCrypto Examples.okNetwork
    (lit "%PDF-1.7 plain") FREETSA [] = (Ret (lit "%PDF-1.7 plain"), [])
  /\ @ServerLtv.tsaStage Examples.toyForge Examples.toyCrypto Examples.okNetwork
       (lit "%PDF-1.7 plain") [] = (Ret (lit "%PDF-1.7 plain"), [])
  /\ @NetlifySign.tsaStage Examples.toyForge Examples.toyCrypto Examples.okNetwork
       (lit "%PDF-1.7 plain") [] = (Ret (lit "%PDF-1.7 plain"), []).
Proof.
  exact (@unsigned_buffer_is_not_timestamped Examples.toyForge Examples.toyCrypto
           Examples.okNetwork (lit "%PDF-1.7 plain") FREETSA []
           plain_text_has_no_entries).
Defined.

End TsaExtras.

Module ExtractionExtras.
Import RegexFacts SearchFacts LangFacts CaptureFacts StringFacts HoldsFacts.
Import NumberFacts TsaFacts TsaHelper.

(** X8: tsa-helper.js: what [extractSignatureFromPDF] returns is read off a
    [/Contents <...>] entry of the buffer: its hex digits, of which there
    is at least one, and the bytes they write, one for every two digits;
    the byte range is four numbers, none of them NaN. *)
Theorem extracted_signature_is_the_contents_entry (pdfBuffer : str) (e : extracted) :
  extractSignatureFromPDF pdfBuffer = Some e ->
  (exists pre ws post,
     pdfBuffer = pre ++ lit "/Contents" ++ ws ++ lit "<" ++ signatureHex e
                 ++ lit ">" ++ post
     /\ allSpace ws)
  /\ signatureHex e <> []
  /\ forallb isHex (signatureHex e) = true
  /\ signature e = fromHex (signatureHex e)
  /\ length (signature e) = length (signatureHex e) / 2
  /\ exists a b c d, byteRange e = [Num a; Num b; Num c; Num d].
Proof.
  unfold extractSignatureFromPDF.
  destruct (search false byteRange_re pdfBuffer) as [br|] eqn:Eb; [|discriminate].
  destruct (search false contents_re pdfBuffer) as [ct|] eqn:Ec; [|discriminate].
  intros [= <-]. cbn [signature signatureHex byteRange].
  apply search_Captures in Eb as (_ & Hb), Ec as (Es & Hc).
  apply Captures_contents in Hc as (ws & hex & Em & Hws & Hhex & Hne & Eg).
  apply Captures_byteRange in Hb
    as (a & b & c & d & Egb & [Ha Hna] & [Hb Hnb] & [Hc Hnc] & [Hd Hnd]).
  rewrite Eg, Egb. cbn [nth map].
  assert (Hh : forallb isHex hex = true).
  { apply forallb_forall. rewrite Forall_forall in Hhex. exact Hhex. }
  split; [|split; [exact Hne | split; [exact Hh | split; [reflexivity | split]]]].
  - exists (skipped ct), ws, (rest ct). split; [|exact Hws].
    rewrite Es, Em, <- !app_assoc. reflexivity.
  - apply fromHex_length, Hh.
  - rewrite !parseInt_number by assumption. eauto.
Qed.

Lemma signedPdf_is_extracted :
  extractSignatureFromPDF Examples.signedPdf = Some Examples.signedPdfSignature.
Proof. vm_compute. reflexivity. Qed.

Lemma extracted_signature_is_the_contents_entry_witness :
  (exists pre ws post,
     Examples.signedPdf
     = pre ++ lit "/Contents" ++ ws ++ lit "<"
       ++ signatureHex Examples.signedPdfSignature ++ lit ">" ++ post
     /\ allSpace ws)
  /\ signatureHex Examples.signedPdfSignature <> []
  /\ forallb isHex (signatureHex Examples.signedPdfSignature) = true
  /\ signature Examples.signedPdfSignature
     = fromHex (signatureHex Examples.signedPdfSignature)
  /\ length (signature Examples.signedPdfSignature)
     = length (signatureHex Examples.signedPdfSignature) / 2
  /\ exists a b c d,
       byteRange Examples.signedPdfSignature = [Num a; Num b; Num c; Num d].
Proof.
  exact (@extracted_signature_is_the_contents_entry Examples.signedPdf
           Examples.signedPdfSignature signedPdf_is_extracted).
Defined.

End ExtractionExtras.

(** ** The objects of the Document Security Store *)

Module DssFacts.
Import RegexFacts SearchFacts LangFacts StringFacts HoldsFacts DssFailureClaims.
Import LtvHelper.

Lemma emit_length (b : builder) (text : num -> str) :
  length (dssObjects (snd (emit b text))) = S (length (dssObjects b)).
Proof. unfold emit. cbn [snd dssObjects]. rewrite length_app, Nat.add_1_r. reflexivity. Qed.

Lemma emitStreams_length (contents : list str) :
  forall b, length (dssObjects (snd (emitStreams b contents)))
            = length (dssObjects b) + length contents.
Proof.
  induction contents as [|c t IH]; intros b; cbn [emitStreams].
  - cbn [snd length]. lia.
  - pose proof (emit_length b (streamObject (length c) c)) as H1.
    destruct (emit b (streamObject (length c) c)) as [n b1]. cbn [snd] in H1.
    specialize (IH b1). destruct (emitStreams b1 t) as [refs b2].
    cbn [snd length] in *. lia.
Qed.

Lemma emitCerts_length {forge : Forge} (certs : list certificate) :
  forall b refs b', emitCerts b certs = Ret (refs, b') ->
                    length (dssObjects b') = length (dssObjects b) + length certs.
Proof.
  induction certs as [|c t IH]; intros b refs b'; cbn [emitCerts].
  - intros [= _ <-]. cbn [length]. lia.
  - destruct (certificateToDer c) as [der|e]; cbn [obind]; [|discriminate].
    pose proof (emit_length b (streamObject (length (toBase64 der)) (toBase64 der)))
      as H1.
    destruct (emit b (streamObject (length (toBase64 der)) (toBase64 der))) as [n b1].
    cbn [snd] in H1.
    destruct (emitCerts b1 t) as [[refs1 b2]|e] eqn:E; cbn [obind]; [|discriminate].
    intros [= _ <-]. cbn [snd]. apply IH in E. cbn [length]. lia.
Qed.

(** What one pass of [embedDSS] builds: a stream for every OCSP response
    that is not null and their array, a stream for every certificate and
    their array, and last the DSS dictionary, which has the number that
    the Catalog is given. *)
Lemma buildDSS_shape {engine : Engine} {forge : Forge} (pdfText : str)
    (ocspResponses : list (option str)) (certs : list certificate)
    (dssNum : num) (b : builder) :
  buildDSS pdfText ocspResponses certs = Ret (dssNum, b) ->
  exists objs content,
    dssObjects b
    = objs ++ [(dssNum, dictObject (lit "/Type /DSS" ++ content) dssNum)]
    /\ length objs
       = match dropNull ocspResponses with [] => 0 | l => S (length l) end
         + match certs with [] => 0 | l => S (length l) end.
Proof.
  unfold buildDSS.
  destruct (getNextObjectNumber pdfText) as [n0|e]; cbn [obind]; [|discriminate].
  intros H.
  assert (H1 : length (dssObjects
                 (snd (match dropNull ocspResponses with
                       | [] => (@None num, Builder n0 [])
                       | o :: l =>
                           let (ocspArray, b1) :=
                             emitStreams (Builder n0 []) (map toBase64 (o :: l)) in
                           let (n, b2) := emit b1 (arrayObject ocspArray) in
                           (Some n, b2)
                       end)))
               = match dropNull ocspResponses with [] => 0 | l => S (length l) end).
  { destruct (dropNull ocspResponses) as [|o l]; [reflexivity|].
    pose proof (emitStreams_length (map toBase64 (o :: l)) (Builder n0 [])) as Hs.
    destruct (emitStreams (Builder n0 []) (map toBase64 (o :: l))) as [arr b1].
    cbn [snd] in Hs.
    pose proof (emit_length b1 (arrayObject arr)) as He.
    destruct (emit b1 (arrayObject arr)) as [n b2]. cbn [snd] in *.
    rewrite He, Hs, length_map. reflexivity. }
  destruct (match dropNull ocspResponses with
            | [] => (@None num, Builder n0 [])
            | o :: l => _
            end) as [ocspObjNum b1].
  cbn [snd] in H1.
  assert (H2 : forall certObjNum b2,
             match certs with
             | [] => Ret (@None num, b1)
             | _ :: _ =>
                 obind (emitCerts b1 certs)
                   (fun rb => let (n, b2) := emit (snd rb) (arrayObject (fst rb)) in
                              Ret (Some n, b2))
             end = Ret (certObjNum, b2) ->
             length (dssObjects b2)
             = length (dssObjects b1)
               + match certs with [] => 0 | l => S (length l) end).
  { intros certObjNum b2. destruct certs as [|c l].
    - intros [= _ <-]. lia.
    - destruct (emitCerts b1 (c :: l)) as [[refs b3]|e] eqn:E; cbn [obind];
        [|discriminate].
      pose proof (emitCerts_length _ _ E) as H3. cbn [fst snd].
      pose proof (emit_length b3 (arrayObject refs)) as He.
      destruct (emit b3 (arrayObject refs)) as [n b4]. cbn [snd] in He.
      intros [= _ <-]. lia. }
  destruct (match certs with
            | [] => Ret (@None num, b1)
            | _ :: _ => _
            end) as [[certObjNum b2]|e]; cbn [obind] in H; [|discriminate].
  specialize (H2 certObjNum b2 eq_refl).
  assert (C : exists content,
             (let dssDictContent := lit "/Type /DSS" in
              let dssDictContent0 :=
                match ocspObjNum with
                | Some n => if truthy n then dssDictContent ++ lit " /OCSPs " ++ ref n
                            else dssDictContent
                | None => dssDictContent
                end in
              match certObjNum with
              | Some n => if truthy n then dssDictContent0 ++ lit " /Certs " ++ ref n
                          else dssDictContent0
              | None => dssDictContent0
              end) = lit "/Type /DSS" ++ content).
  { cbv zeta.
    destruct ocspObjNum as [n|]; [destruct (truthy n)|];
      (destruct certObjNum as [m|]; [destruct (truthy m)|]);
      rewrite <- ?app_assoc; eexists; try reflexivity;
      symmetry; apply app_nil_r. }
  destruct C as [content C]. cbv zeta in C, H. rewrite C in H.
  unfold emit in H. injection H as <- <-. cbn [dssObjects].
  exists (dssObjects b2), content. split; [reflexivity|]. lia.
Qed.

Lemma Holds_join_last (sep x : str) (l : list str) :
  Holds x (join sep (l ++ [x])).
Proof.
  induction l as [|y l IH]; simpl.
  - exists [], []. rewrite app_nil_r. reflexivity.
  - destruct (l ++ [x]) as [|z t] eqn:E; [destruct l; discriminate|].
    destruct IH as (a & b & Ej). exists (y ++ sep ++ a), b.
    rewrite Ej, <- !app_assoc. reflexivity.
Qed.

Lemma Holds_app_r (x a s : str) : Holds x s -> Holds x (a ++ s).
Proof. intros (p & q & ->). exists (a ++ p), q. rewrite <- app_assoc. reflexivity. Qed.

Lemma Holds_app_l (x s a : str) : Holds x s -> Holds x (s ++ a).
Proof.
  intros (p & q & ->). exists p, (q ++ a). rewrite <- !app_assoc. reflexivity.
Qed.

Lemma Holds_trans (x y s : str) : Holds x y -> Holds y s -> Holds x s.
Proof.
  intros (p & q & ->) (p' & q' & ->). exists (p' ++ p), (q ++ q').
  rewrite <- !app_assoc. reflexivity.
Qed.

(** A text that holds [/Type /DSS] makes the detector report LTV. *)
Lemma detectLTV_type_dss {zlib : Zlib} (s : str) :
  Holds (lit "/Type /DSS") s -> Detector.detectLTV s = true.
Proof.
  intros (a & b & ->). unfold Detector.detectLTV.
  destruct (test true Detector.dss_ref_re _); [reflexivity|].
  assert (T : test true Detector.type_dss_re (a ++ lit "/Type /DSS" ++ b) = true).
  { apply test_Occurs. exists a, (lit "/Type /DSS"), b. split; [reflexivity|].
    apply (Matches_entry (lit "/Type") (lit "/DSS")).
    exists (lit "/Type"), (lit " "), (lit "/DSS").
    repeat split; repeat constructor. }
  rewrite T. reflexivity.
Qed.

End DssFacts.

(** ** The LTV helpers *)

Module LtvExtras.
Import RegexFacts SearchFacts LangFacts StringFacts HoldsFacts DssFailureClaims.
Import LtvBranchClaims NumberingFacts NetlifyFacts DssFacts LtvHelper.

Lemma findOCSPUrl_http {forge : Forge} (items : list asn1) (url : str) :
  findOCSPUrl items = Ret (Some url) -> prefixb (lit "http") url = true.
Proof.
  induction items as [|item more IH]; cbn [findOCSPUrl]; [discriminate|].
  destruct item as [c t [|x v]|c t [|[c1 t1 oid|c1 t1 l] others]]; auto; try discriminate.
  destruct others as [|[c2 t2 u|c2 t2 l] others]; auto.
  destruct (str_eqb (derToOid oid) OCSP_OID); cbn [andb]; auto.
  destruct (prefixb (lit "http") u) eqn:E; auto.
  intros [= <-]. exact E.
Qed.

(** X17: ltv-helper.js: the URL that [getOCSPUrl] returns is the one of the OCSP
    access method of the AIA extension of the certificate, and starts with
    [http]. *)
Theorem ocsp_url_comes_from_the_aia_extension {forge : Forge}
    (cert : certificate) (url : str) :
  getOCSPUrl cert = Some url ->
  HasOcspAccess cert url /\ prefixb (lit "http") url = true.
Proof.
  intros H. split; [apply getOCSPUrl_Some; exact H|].
  unfold getOCSPUrl in H.
  destruct (find _ (match extensions cert with Some l => l | None => [] end))
    as [aia|]; cbn [ocatch] in H; [|discriminate].
  destruct (fromDer (ext_value aia)) as [[c t v|c t items]|e]; cbn in H;
    try discriminate.
  destruct (findOCSPUrl items) as [[u|]|e] eqn:Eu; cbn in H; try discriminate.
  injection H as <-. apply (findOCSPUrl_http _ Eu).
Qed.

Lemma aiaLeaf_url :
  @getOCSPUrl Examples.ocspForge Examples.aiaLeaf
  = Some (lit "http://ocsp.example.test").
Proof. vm_compute. reflexivity. Qed.

Lemma ocsp_url_comes_from_the_aia_extension_witness :
  @HasOcspAccess Examples.ocspForge Examples.aiaLeaf (lit "http://ocsp.example.test")
  /\ prefixb (lit "http") (lit "http://ocsp.example.test") = true.
Proof.
  exact (@ocsp_url_comes_from_the_aia_extension Examples.ocspForge Examples.aiaLeaf
           (lit "http://ocsp.example.test") aiaLeaf_url).
Defined.


(** X20: ltv-helper.js: when [embedDSS] changes the buffer, the detector reports
    LTV for what it returns. *)
Theorem embedded_dss_is_detected {engine : Engine}
    {forge : Forge} {zlib : Zlib} (pdfBuffer : str)
    (ocspResponses : list (option str)) (certs : list certificate) :
  embedDSS pdfBuffer ocspResponses certs <> pdfBuffer ->
  Detector.detectLTV (embedDSS pdfBuffer ocspResponses certs) = true
  /\ forall d, Detector.checkPdfSignature (embedDSS pdfBuffer ocspResponses certs)
               = Detector.Sig d -> Detector.hasLTV d = true.
Proof.
  intros Hne.
  assert (D : Detector.detectLTV (embedDSS pdfBuffer ocspResponses certs) = true).
  { destruct (embedDSS_all_or_nothing pdfBuffer ocspResponses certs)
      as [E|(dssNum & b & patched & i & Eb & _ & _ & ->)]; [contradiction|].
    apply buildDSS_shape in Eb as (objs & content & Eo & _).
    apply detectLTV_type_dss, Holds_app_r, Holds_app_l.
    rewrite Eo, map_app. cbn [map snd].
    eapply Holds_trans; [|apply Holds_join_last].
    unfold dictObject.
    exists (numToString dssNum ++ lit " 0 obj" ++ [chr 10] ++ lit "<< "),
           (content ++ lit " >>" ++ [chr 10] ++ lit "endobj" ++ [chr 10]).
    rewrite <- !app_assoc. reflexivity. }
  split; [exact D|].
  intros d. unfold Detector.checkPdfSignature.
  destruct (negb (test true Detector.sig_re _)); [discriminate|].
  intros [= <-]. exact D.
Qed.

Lemma catalogPdf_is_changed :
  @embedDSS Examples.nodeEngine
      Examples.toyForge Examples.catalogPdf [] [Examples.selfSigned]
  <> Examples.catalogPdf.
Proof. vm_compute. discriminate. Qed.

Lemma embedded_dss_is_detected_witness :
  @Detector.detectLTV Examples.noZlib
    (@embedDSS Examples.nodeEngine
        Examples.toyForge Examples.catalogPdf [] [Examples.selfSigned]) = true
  /\ forall d,
       @Detector.checkPdfSignature Examples.noZlib
         (@embedDSS Examples.nodeEngine
             Examples.toyForge Examples.catalogPdf [] [Examples.selfSigned])
       = Detector.Sig d -> Detector.hasLTV d = true.
Proof.
  exact (@embedded_dss_is_detected Examples.nodeEngine Examples.toyForge Examples.noZlib
           Examples.catalogPdf [] [Examples.selfSigned] catalogPdf_is_changed).
Defined.

(** X19: ltv-helper.js: one pass of [embedDSS] builds one object for every OCSP
    response that is not null and one for their array, one object for every
    certificate and one for their array, and the DSS dictionary. *)
Theorem dss_object_count {engine : Engine} {forge : Forge} (pdfBuffer : str)
    (ocspResponses : list (option str)) (certs : list certificate)
    (nums : list num) :
  assignedNumbers pdfBuffer ocspResponses certs = Ret nums ->
  length nums
  = match dropNull ocspResponses with [] => 0 | l => S (length l) end
    + match certs with [] => 0 | l => S (length l) end
    + 1.
Proof.
  unfold assignedNumbers.
  destruct (buildDSS pdfBuffer ocspResponses certs) as [[dssNum b]|e] eqn:E;
    cbn [obind]; [|discriminate].
  intros [= <-]. apply buildDSS_shape in E as (objs & content & Eo & Hl).
  cbn [snd]. rewrite Eo, length_map, length_app, Hl. reflexivity.
Qed.

Lemma dss_object_count_witness :
  length [Num 6; Num 7; Num 8]
  = match @dropNull str [] with [] => 0 | l => S (length l) end
    + match [Examples.selfSigned] with [] => 0 | l => S (length l) end
    + 1.
Proof.
  exact (@dss_object_count Examples.nodeEngine Examples.toyForge Examples.catalogPdf []
           [Examples.selfSigned] [Num 6; Num 7; Num 8]
           NumberingClaims.catalogPdf_numbers).
Defined.

(** X22: The server with the LTV step never sends an OCSP request.  Building
    the request throws, because [toDer] is given the name of the issuer,
    which is no ASN.1 node; [requestOCSP] catches that and returns [null];
    so the step embeds the certificates of the chain without an OCSP
    response, whatever the chain is and whatever OCSP URL its first
    certificate has, and with an empty chain it leaves the signed buffer
    as it is. *)
Theorem server_never_requests_ocsp {engine : Engine} {forge : Forge}
    {crypto : Crypto} {net : Network} (signedPdf : str) (p12 : pkcs12)
    (log : list call) :
  ServerLtv.ltvStage signedPdf p12 log
  = (Ret (match extractCertChain p12 with
          | [] => signedPdf
          | certChain => embedDSS signedPdf [] certChain
          end), log)
  /\ forall cert issuerCert, requestOCSP cert issuerCert log = (Ret None, log).
Proof.
  split; [|intros; apply requestOCSP_null].
  unfold ServerLtv.ltvStage, ServerLtv.ltvStageWith, io_catch, io_bind, io_ret.
  destruct (extractCertChain p12) as [|cert more]; [reflexivity|].
  destruct (ServerLtv.isSelfSigned cert); [reflexivity|].
  destruct more as [|issuerCert more]; [reflexivity|].
  rewrite requestOCSP_null. reflexivity.
Qed.

(** X23: netlify/functions/sign-pdf.js: for a first certificate that is not
    signed by itself, with the certificate of its issuer in the chain and
    an OCSP URL, the LTV step gives the signed buffer back as it is and
    makes no call.  Building the request throws before anything is posted,
    the [requestOCSP] of the Netlify function does not catch it, and the
    [catch] of the step skips [embedDSS]: the certificates are not embedded
    either, where the server embeds them. *)
Theorem netlify_embeds_nothing_for_a_certificate_with_ocsp_url {engine : Engine}
    {forge : Forge} {crypto : Crypto} {net : Network}
    (signedPdf p12Buffer password : str) (log : list call)
    (cert issuerCert : certificate) (others : list certificate)
    (ocspUrl : NetlifySign.urlValue) :
  NetlifySign.extractCertChain p12Buffer password
  = Ret (cert :: issuerCert :: others) ->
  NetlifySign.isSelfSigned cert = false ->
  NetlifySign.getOCSPUrl cert = Some ocspUrl ->
  ocspUrl <> NetlifySign.UrlText [] ->
  NetlifySign.ltvStage signedPdf p12Buffer password log = (Ret signedPdf, log)
  /\ exists e, NetlifySign.requestOCSP cert issuerCert log = (Throw e, log).
Proof.
  intros Hc Hs Hu Hn.
  assert (R : NetlifySign.requestOCSP cert issuerCert log
              = (Throw (lit "Cannot read properties of undefined (reading 'length')"),
                 log)).
  { rewrite netlify_requestOCSP_outcome, Hu.
    destruct ocspUrl as [[|c url]|l]; [congruence|reflexivity|reflexivity]. }
  split; [|eexists; exact R].
  unfold NetlifySign.ltvStage, NetlifySign.ltvStageWith, io_catch, io_bind, io_lift, io_ret.
  rewrite Hc, Hs, R. reflexivity.
Qed.

Lemma netlify_aiaLeaf_url :
  @NetlifySign.getOCSPUrl Examples.ocspForge Examples.aiaLeaf
  = Some (NetlifySign.UrlText (lit "http://ocsp.example.test")).
Proof. vm_compute. reflexivity. Qed.

Lemma netlify_embeds_nothing_for_a_certificate_with_ocsp_url_witness :
  @NetlifySign.ltvStage Examples.nodeEngine Examples.ocspForge Examples.toyCrypto
    Examples.okNetwork Examples.catalogPdf (lit "p12") (lit "secret") []
  = (Ret Examples.catalogPdf, [])
  /\ @ServerLtv.ltvStage Examples.nodeEngine Examples.ocspForge Examples.toyCrypto
       Examples.okNetwork Examples.catalogPdf Examples.chainWithOcsp []
     = (Ret (@embedDSS Examples.nodeEngine Examples.ocspForge Examples.catalogPdf []
               [Examples.aiaLeaf; Examples.issued]), []).
Proof.
  split; [|reflexivity].
  apply (@netlify_embeds_nothing_for_a_certificate_with_ocsp_url Examples.nodeEngine
           Examples.ocspForge Examples.toyCrypto Examples.okNetwork
           Examples.catalogPdf (lit "p12") (lit "secret") [] Examples.aiaLeaf
           Examples.issued [] (NetlifySign.UrlText (lit "http://ocsp.example.test"))
           eq_refl eq_refl netlify_aiaLeaf_url).
  discriminate.
Defined.

(** X24: The server with the LTV step compares the common names of subject and
    issuer as they come, so a certificate that has neither is taken for
    self-signed: no OCSP request is made for it, whatever its extensions
    and its chain, and the chain is embedded. *)
Theorem certificate_without_common_names_is_taken_for_self_signed {engine : Engine}
    {forge : Forge}
    {crypto : Crypto} {net : Network} (signedPdf : str) (p12 : pkcs12)
    (log : list call) (cert : certificate) (more : list certificate) :
  extractCertChain p12 = cert :: more ->
  getField (subject cert) "CN" = None ->
  getField (issuer cert) "CN" = None ->
  ServerLtv.isSelfSigned cert = true
  /\ ServerLtv.ltvStage signedPdf p12 log
     = (Ret (embedDSS signedPdf [] (cert :: more)), log).
Proof.
  intros Hc Hs Hi.
  assert (S : ServerLtv.isSelfSigned cert = true).
  { unfold ServerLtv.isSelfSigned. rewrite Hs, Hi. reflexivity. }
  split; [exact S|].
  unfold ServerLtv.ltvStage, ServerLtv.ltvStageWith, io_catch, io_bind, io_ret. rewrite Hc, S. reflexivity.
Qed.

Lemma certificate_without_common_names_is_taken_for_self_signed_witness :
  ServerLtv.isSelfSigned Examples.anonymous = true
  /\ @ServerLtv.ltvStage Examples.nodeEngine
      Examples.ocspForge Examples.toyCrypto Examples.okNetwork
       Examples.catalogPdf Examples.anonymousChain []
     = (Ret (@embedDSS Examples.nodeEngine Examples.ocspForge Examples.catalogPdf []
               [Examples.anonymous; Examples.issued]), []).
Proof.
  exact (@certificate_without_common_names_is_taken_for_self_signed
           Examples.nodeEngine Examples.ocspForge Examples.toyCrypto Examples.okNetwork
           Examples.catalogPdf Examples.anonymousChain [] Examples.anonymous
           [Examples.issued] eq_refl eq_refl eq_refl).
Defined.

(** X21: The two copies of the computation of the next object number, the one of
    ltv-helper.js, which reads the digits of each marker, and the one of the
    Netlify function, which reads the marker itself, do the same on every
    text: a marker read as a number is the number of its digits.  Both
    return a number when the markers of the text are no more than one call
    takes as arguments, and both throw the RangeError of
    [Math.max(...numbers)] when they are more. *)
Theorem next_object_number_copies_agree {engine : Engine} (pdfText : str) :
  NetlifySign.nextObj pdfText = getNextObjectNumber pdfText
  /\ ((N.of_nat (length (matchAll false obj_re pdfText)) <= maxArguments)%N ->
      exists n, getNextObjectNumber pdfText = Ret n)
  /\ ((maxArguments < N.of_nat (length (matchAll false obj_re pdfText)))%N ->
      getNextObjectNumber pdfText = Throw (lit "Maximum call stack size exceeded")).
Proof.
  split; [apply nextObj_getNextObjectNumber|].
  unfold getNextObjectNumber, match_g.
  destruct (matchAll false obj_re pdfText) as [|f l] eqn:El.
  - split; [eauto|]. cbn [length N.of_nat]. intros H. lia.
  - rewrite <- El.
    rewrite omap_numbers by (intros g Hg; apply (@matchAll_markers pdfText g Hg)).
    cbn [obind]. unfold maxOfSpread. rewrite length_map.
    destruct (N.leb_spec (N.of_nat (length (matchAll false obj_re pdfText)))
                maxArguments) as [H|H].
    + split; [cbn [obind]; eauto | intros H'; lia].
    + split; [intros H'; lia | reflexivity].
Qed.

(** With the two markers of this text both give 6; an engine that takes one
    argument at most throws. *)
Lemma next_object_number_copies_agree_witness :
  @NetlifySign.nextObj Examples.nodeEngine Examples.catalogPdf = Ret (Num 6)
  /\ @getNextObjectNumber {| maxArguments := 1 |} Examples.catalogPdf
     = Throw (lit "Maximum call stack size exceeded").
Proof.
  split.
  - rewrite (proj1 (@next_object_number_copies_agree Examples.nodeEngine
                      Examples.catalogPdf)).
    vm_compute. reflexivity.
  - apply (proj2 (proj2 (@next_object_number_copies_agree {| maxArguments := 1 |}
                           Examples.catalogPdf))).
    vm_compute. reflexivity.
Defined.

End LtvExtras.

Module NetlifyDssExtras.
Import RegexFacts SearchFacts LangFacts StringFacts HoldsFacts DssFailureClaims.
Import DssFacts LtvHelper.

Lemma lastIndexOf_last (pat s : str) (i : nat) :
  pat <> [] -> lastIndexOf pat s = Some i -> ~ Holds pat (skipn (S i) s).
Proof.
  intros Hp. revert i; induction s as [|c t IH]; intros i; simpl.
  - destruct pat; [congruence|discriminate].
  - destruct (lastIndexOf pat t) as [j|] eqn:E.
    + intros [= <-]. apply IH. reflexivity.
    + destruct (prefixb pat (c :: t)); [|discriminate].
      intros [= <-]. simpl. apply lastIndexOf_None. exact E.
Qed.

Lemma netlify_buildDSS_last {engine : Engine} {forge : Forge} (pdfText : str)
    (ocspResponses : list (option str)) (certs : list certificate) (b : builder) :
  NetlifySign.buildDSS pdfText ocspResponses certs = Ret b ->
  exists objs n content,
    dssObjects b = objs ++ [(n, dictObject (lit "/Type /DSS" ++ content) n)].
Proof.
  unfold NetlifySign.buildDSS.
  destruct (NetlifySign.nextObj pdfText) as [n0|e0]; cbn [obind]; [|discriminate].
  cbv zeta.
  destruct (match ocspResponses with
            | [] => _
            | _ :: _ => _
            end) as [ocspArrayRef b1].
  destruct (match certs with
            | [] => _
            | _ :: _ => _
            end) as [[certArrayRef b2]|e]; cbn [obind]; [|discriminate].
  unfold emit. intros [= <-]. cbn [dssObjects].
  exists (dssObjects b2), (objectNumber b2), (ocspArrayRef ++ certArrayRef).
  reflexivity.
Qed.

(** X25: netlify/functions/sign-pdf.js: its [embedDSS] only inserts: every byte
    of the buffer is kept, in order, and the objects go in front of the
    last [xref]; the Catalog is left as it was, so nothing in the document
    refers to the DSS dictionary, which the detector finds all the same.  A
    buffer without [xref] comes back as it is. *)
Theorem netlify_embedDSS_only_inserts {engine : Engine} {forge : Forge} {zlib : Zlib}
    (pdfBuffer : str) (ocspResponses : list (option str))
    (certs : list certificate) (out : str) :
  NetlifySign.embedDSS pdfBuffer ocspResponses certs = Ret out ->
  (out = pdfBuffer /\ ~ Holds (lit "xref") pdfBuffer)
  \/ exists before after objects,
       pdfBuffer = before ++ lit "xref" ++ after
       /\ ~ Holds (lit "xref") (lit "ref" ++ after)
       /\ out = before ++ objects ++ lit "xref" ++ after
       /\ Holds (lit "/Type /DSS") objects
       /\ Detector.detectLTV out = true.
Proof.
  unfold NetlifySign.embedDSS.
  destruct (NetlifySign.buildDSS pdfBuffer ocspResponses certs) as [b|e] eqn:Eb;
    cbn [obind]; [|discriminate].
  destruct (lastIndexOf (lit "xref") pdfBuffer) as [i|] eqn:Ei.
  - intros [= <-]. right.
    pose proof (lastIndexOf_Some _ _ Ei) as [_ Hp]. apply prefixb_app in Hp.
    assert (Hl : ~ Holds (lit "xref") (skipn (S i) pdfBuffer))
      by (apply lastIndexOf_last; [discriminate | exact Ei]).
    set (after := skipn (length (lit "xref")) (skipn i pdfBuffer)) in *.
    assert (Es : skipn (S i) pdfBuffer = lit "ref" ++ after).
    { change (S i) with (1 + i). rewrite <- skipn_skipn, Hp. reflexivity. }
    apply netlify_buildDSS_last in Eb as (objs & n & content & Eo).
    assert (Ho : Holds (lit "/Type /DSS")
                   (join [chr 10] (map snd (dssObjects b)) ++ [chr 10])).
    { apply Holds_app_l. rewrite Eo, map_app. cbn [map snd].
      eapply Holds_trans; [|apply Holds_join_last].
      unfold dictObject.
      exists (numToString n ++ lit " 0 obj" ++ [chr 10] ++ lit "<< "),
             (content ++ lit " >>" ++ [chr 10] ++ lit "endobj" ++ [chr 10]).
      rewrite <- !app_assoc. reflexivity. }
    assert (Eout : firstn i pdfBuffer ++ join [chr 10] (map snd (dssObjects b))
                   ++ [chr 10] ++ skipn i pdfBuffer
                   = firstn i pdfBuffer
                     ++ (join [chr 10] (map snd (dssObjects b)) ++ [chr 10])
                     ++ lit "xref" ++ after).
    { rewrite Hp, <- !app_assoc. reflexivity. }
    exists (firstn i pdfBuffer), after,
           (join [chr 10] (map snd (dssObjects b)) ++ [chr 10]).
    split; [rewrite <- Hp; symmetry; apply firstn_skipn|].
    split; [rewrite <- Es; exact Hl|].
    split; [exact Eout|].
    split; [exact Ho|].
    match goal with
    | |- Detector.detectLTV ?x = true =>
        replace x with (firstn i pdfBuffer
                        ++ (join [chr 10] (map snd (dssObjects b)) ++ [chr 10])
                        ++ lit "xref" ++ after) by (symmetry; exact Eout)
    end.
    apply detectLTV_type_dss, Holds_app_r, Holds_app_l, Ho.
  - intros [= <-]. left. split; [reflexivity|]. apply lastIndexOf_None. exact Ei.
Qed.

Lemma netlify_catalogPdf_embedded :
  @NetlifySign.embedDSS Examples.nodeEngine
      Examples.toyForge Examples.catalogPdf [] [Examples.selfSigned]
  = Ret Examples.netlifyEmbedded.
Proof. vm_compute. reflexivity. Qed.

Lemma netlify_embedDSS_only_inserts_witness :
  (Examples.netlifyEmbedded = Examples.catalogPdf
   /\ ~ Holds (lit "xref") Examples.catalogPdf)
  \/ exists before after objects,
       Examples.catalogPdf = before ++ lit "xref" ++ after
       /\ ~ Holds (lit "xref") (lit "ref" ++ after)
       /\ Examples.netlifyEmbedded = before ++ objects ++ lit "xref" ++ after
       /\ Holds (lit "/Type /DSS") objects
       /\ @Detector.detectLTV Examples.noZlib Examples.netlifyEmbedded = true.
Proof.
  exact (@netlify_embedDSS_only_inserts Examples.nodeEngine
      Examples.toyForge Examples.noZlib
           Examples.catalogPdf [] [Examples.selfSigned] Examples.netlifyEmbedded
           netlify_catalogPdf_embedded).
Defined.

End NetlifyDssExtras.

(** ** The endpoints *)

Module EndpointFacts.
Import StringFacts TsaFacts TsaClaims DssFailureClaims LtvBranchClaims.
Import TsaHelper.

(** [requestTimestamp] makes one call or two. *)
Lemma requestTimestamp_log {forge : Forge} {crypto : Crypto} {net : Network}
    (data url : str) (log : list call) :
  exists l, snd (requestTimestamp data url log) = log ++ l /\ length l <= 2.
Proof.
  unfold requestTimestamp.
  destruct (failed_dec log (tsaQuery data url)) as [H|H].
  - destruct (round_fails 1 data url log H) as [e He]. rewrite He.
    destruct (str_eqb url FREETSA).
    + unfold io_catch.
      destruct (alternate_round 0 data (log ++ [tsaQuery data url]))
        as [[_ [e2 E2]]|[_ [t2 E2]]]; rewrite E2, <- app_assoc;
        eexists; (split; [reflexivity | simpl; lia]).
    + eexists; split; [reflexivity | simpl; lia].
  - destruct (round_succeeds 1 data url log H) as [t Ht]. rewrite Ht.
    eexists; split; [reflexivity | simpl; lia].
Qed.

Lemma addTimestampToPDF_log {forge : Forge} {crypto : Crypto} {net : Network}
    (signedPdf tsaUrl : str) (log : list call) :
  exists out l,
    addTimestampToPDF signedPdf tsaUrl log = (Ret out, log ++ l)
    /\ length l <= 2 /\ length out = length signedPdf.
Proof.
  unfold addTimestampToPDF, io_catch, io_bind, io_throw, io_ret.
  destruct (extractSignatureFromPDF signedPdf) as [e|].
  2:{ exists signedPdf, []. rewrite app_nil_r. simpl. auto. }
  destruct (requestTimestamp_log (signature e) tsaUrl log) as (l & El & Hl).
  destruct (requestTimestamp (signature e) tsaUrl log) as [[t|err] log'];
    cbn [snd] in El; subst log'.
  - do 2 eexists. split; [reflexivity|]. split; [exact Hl|].
    apply tsa_helper_replace_keeps_length.
  - do 2 eexists. split; [reflexivity|]. auto.
Qed.



End EndpointFacts.

Module EndpointExtras.
Import StringFacts EndpointFacts.

(** X26: backend/server.js, the signing endpoint: what it sends is a file that
    [sign] returned, for a placeholder added to the flattened PDF, or to
    the uploaded one when flattening failed, with a certificate that parsed
    with the password; or else a JSON body with the one field [error] and
    status 400 or 500. *)
Theorem sign_route_sends_a_signed_file_or_an_error {forge : Forge} {pdflib : PdfLib}
    (pdfFile p12File : option str) (password reason location : str) :
  match Server.signPdfRoute pdfFile p12File password reason location with
  | Download file =>
      exists pdf p12Buffer flattened placeholder,
        pdfFile = Some pdf /\ p12File = Some p12Buffer
        /\ isTrue (prop "success" (Server.parseP12Certificate p12Buffer password)) = true
        /\ (loadAndSave pdf None = Ret flattened
            \/ (flattened = pdf /\ exists e, loadAndSave pdf None = Throw e))
        /\ plainAddPlaceholder flattened
             (Detector.orElse reason (lit "Document approval"))
             (Detector.orElse location (lit "Digital Signature")) 16384
           = Ret placeholder
        /\ sign placeholder p12Buffer password = Ret file
  | Json status body =>
      (status = 400 \/ status = 500) /\ keys body = ["error"%string]
  end.
Proof.
  unfold Server.signPdfRoute.
  destruct pdfFile as [pdf|]; [|simpl; auto].
  destruct p12File as [p12Buffer|]; [|simpl; auto].
  unfold Server.signPdfBody.
  destruct (isTrue (prop "success" (Server.parseP12Certificate p12Buffer password)))
    eqn:Es; cbn [negb]; [|simpl; auto].
  set (flattened := ocatch (obind (loadAndSave pdf None) Ret) (fun _ => pdf)).
  assert (Hf : loadAndSave pdf None = Ret flattened
               \/ (flattened = pdf /\ exists e, loadAndSave pdf None = Throw e)).
  { unfold flattened. destruct (loadAndSave pdf None) as [f|e]; simpl; eauto. }
  destruct (plainAddPlaceholder flattened _ _ 16384) as [placeholder|e] eqn:Ep;
    cbn [obind]; [|simpl; auto].
  destruct (sign placeholder p12Buffer password) as [file|e] eqn:Eg;
    cbn [obind]; [|simpl; auto].
  exists pdf, p12Buffer, flattened, placeholder. auto 8.
Qed.


(** X16: tsa-helper.js: whatever forge and the network do, [addTimestampToPDF]
    throws nothing, makes at most two calls, and returns a buffer as long
    as the signed one. *)
Theorem timestamping_keeps_the_length {forge : Forge} {crypto : Crypto}
    {net : Network} (signedPdf tsaUrl : str) (log : list call) :
  exists out calls,
    TsaHelper.addTimestampToPDF signedPdf tsaUrl log = (Ret out, log ++ calls)
    /\ length calls <= 2 /\ length out = length signedPdf.
Proof. apply addTimestampToPDF_log. Qed.





End EndpointExtras.

(** ** Writing a signature into the placeholder and reading it back *)

Module RoundTripFacts.
Import RegexFacts SearchFacts LangFacts CaptureFacts StringFacts HoldsFacts.
Import NumberFacts TsaFacts TsaHelper.

(** A text [m] whose one [x] is its first character, found in front of an
    [x], ends before it. *)
Lemma no_straddle (x : ascii) (pre S a m b : str) :
  pre ++ x :: S = a ++ m ++ b -> length a < length pre ->
  ~ In x (tl m) -> exists c, pre = a ++ m ++ c.
Proof.
  intros E Hlen Hx.
  apply app_eq_app in E as [l [[E1 E2]|[E1 E2]]].
  - (* pre = a ++ l *)
    symmetry in E2. apply app_eq_app in E2 as [l' [[E3 E4]|[E3 E4]]].
    + (* l = m ++ l' *) exists l'. rewrite E1, E3. reflexivity.
    + (* m = l ++ l' *)
      destruct l' as [|y l'].
      * exists []. rewrite E1, E3, !app_nil_r. reflexivity.
      * injection E4 as <- _. exfalso. apply Hx. rewrite E3.
        destruct l as [|z l].
        { subst pre. rewrite app_nil_r in Hlen. lia. }
        simpl. apply in_or_app. right. left. reflexivity.
  - (* a = pre ++ l *)
    subst a. rewrite length_app in Hlen. lia.
Qed.

Lemma space_not_slash (c : ascii) : isSpace c = true -> c <> "/"%char.
Proof. intros H ->. discriminate. Qed.

Lemma hex_not_slash (c : ascii) : isHex c = true -> c <> "/"%char.
Proof. intros H ->. discriminate. Qed.

Lemma not_In_app {A : Type} (x : A) (l1 l2 : list A) :
  ~ In x l1 -> ~ In x l2 -> ~ In x (l1 ++ l2).
Proof. intros H1 H2 H. apply in_app_or in H as [H|H]; auto. Qed.

Lemma not_In_Forall (p : ascii -> bool) (x : ascii) (l : str) :
  p x = false -> Forall (fun c => p c = true) l -> ~ In x l.
Proof.
  intros Hx Hl Hin. rewrite Forall_forall in Hl. apply Hl in Hin. congruence.
Qed.

(** The text of an entry [/Contents <...>] has its one slash in front. *)
Lemma entry_one_slash (ws hex : str) :
  allSpace ws -> Forall (fun c => isHex c = true) hex ->
  ~ In "/"%char (tl (lit "/Contents" ++ ws ++ lit "<" ++ hex ++ lit ">")).
Proof.
  intros Hw Hh. change (tl (lit "/Contents" ++ ws ++ lit "<" ++ hex ++ lit ">"))
    with (lit "Contents" ++ ws ++ lit "<" ++ hex ++ lit ">").
  repeat apply not_In_app.
  - intros H. repeat (destruct H as [H|H]; [discriminate|]). exact H.
  - apply (not_In_Forall isSpace); [reflexivity | exact Hw].
  - intros [H|[]]; discriminate.
  - apply (not_In_Forall isHex); [reflexivity | exact Hh].
  - intros [H|[]]; discriminate.
Qed.

(** Two texts that are each a run of a class followed by a character that
    is not of the class: the runs are the same. *)
Lemma run_unique (p : ascii -> bool) (l1 l2 r1 r2 : str) (c1 c2 : ascii) :
  Forall (fun c => p c = true) l1 -> Forall (fun c => p c = true) l2 ->
  p c1 = false -> p c2 = false ->
  l1 ++ c1 :: r1 = l2 ++ c2 :: r2 -> l1 = l2 /\ c1 :: r1 = c2 :: r2.
Proof.
  intros H1 H2 Hc1 Hc2 E.
  assert (S1 : span p (l1 ++ c1 :: r1) = (l1, c1 :: r1)).
  { apply span_app; auto. intros c t [= <- _]. exact Hc1. }
  assert (S2 : span p (l2 ++ c2 :: r2) = (l2, c2 :: r2)).
  { apply span_app; auto. intros c t [= <- _]. exact Hc2. }
  rewrite E, S2 in S1. split; congruence.
Qed.

Lemma Matches_contents (hex : str) :
  Forall (fun c => isHex c = true) hex -> hex <> [] ->
  Matches false contents_re (lit "/Contents <" ++ hex ++ lit ">").
Proof.
  intros Hh Hne. unfold contents_re, word. rewrite !cat_cons, cat_one.
  change (lit "/Contents <" ++ hex ++ lit ">")
    with (lit "/Contents" ++ lit " " ++ lit "<" ++ hex ++ lit ">").
  apply Matches_Cat; do 2 eexists; split; [reflexivity|split].
  { apply Matches_word_cs; reflexivity. }
  apply Matches_Cat; do 2 eexists; split; [reflexivity|split].
  { apply Matches_star. repeat constructor. }
  apply Matches_Cat; do 2 eexists; split; [reflexivity|split].
  { apply Matches_word_cs; reflexivity. }
  apply Matches_Cat; do 2 eexists; split; [reflexivity|split].
  { apply Matches_Cap, Matches_plus. auto. }
  apply Matches_word_cs; reflexivity.
Qed.

(** In a buffer whose first [/Contents] is the one of an entry written with
    one space, the pattern of the entry finds that entry and its digits. *)
Lemma contents_found_here (pre hex post : str) :
  ~ Holds (lit "/Contents") pre ->
  Forall (fun c => isHex c = true) hex -> hex <> [] ->
  exists f,
    search false contents_re (pre ++ lit "/Contents <" ++ hex ++ lit ">" ++ post)
    = Some f
    /\ groups f = [hex].
Proof.
  intros Hpre Hh Hne.
  pose proof (Matches_contents Hh Hne) as HM.
  destruct (search_finds pre post HM) as [f Ef].
  replace (pre ++ (lit "/Contents <" ++ hex ++ lit ">") ++ post)
    with (pre ++ lit "/Contents <" ++ hex ++ lit ">" ++ post) in Ef
    by (rewrite <- !app_assoc; reflexivity).
  exists f. split; [exact Ef|].
  pose proof (search_Captures _ _ _ Ef) as (Es & Hc).
  apply search_Some in Ef as (_ & _ & _ & Hleft).
  apply Captures_contents in Hc as (ws & hx & Em & Hws & Hhx & Hnx & Eg).
  rewrite Eg. f_equal.
  assert (A : skipped f = pre).
  { pose proof Es as E. apply app_eq_app in E as [l [[E1 E2]|[E1 E2]]].
    - (* pre = skipped f ++ l *)
      destruct l as [|y l]; [rewrite app_nil_r in E1; auto|].
      exfalso. apply Hpre.
      destruct (@no_straddle "/"%char pre
                  (lit "Contents <" ++ hex ++ lit ">" ++ post)
                  (skipped f) (matched f) (rest f)) as [c Ec].
      + exact Es.
      + rewrite E1, length_app. simpl. lia.
      + rewrite Em. apply entry_one_slash; auto.
      + exists (skipped f), (ws ++ lit "<" ++ hx ++ lit ">" ++ c).
        rewrite Ec, Em, <- !app_assoc. reflexivity.
    - (* skipped f = pre ++ l *)
      destruct l as [|y l]; [rewrite app_nil_r in E1; auto|].
      exfalso. specialize (Hleft pre (y :: l) E1 ltac:(discriminate)).
      rewrite <- E2 in Hleft.
      change (lit "/Contents <" ++ hex ++ lit ">" ++ post)
        with ((lit "/Contents <" ++ hex) ++ lit ">" ++ post) in Hleft.
      rewrite <- app_assoc in Hleft.
      replace (lit "/Contents <" ++ hex ++ lit ">" ++ post)
        with ((lit "/Contents <" ++ hex ++ lit ">") ++ post) in Hleft
        by (rewrite <- !app_assoc; reflexivity).
      exact (@exec_here_None false contents_re _ post Hleft HM). }
  rewrite A in Es. apply app_inv_head in Es. rewrite Em in Es.
  change (lit "/Contents <" ++ hex ++ lit ">" ++ post)
    with (lit "/Contents" ++ lit " " ++ "<"%char :: hex ++ ">"%char :: post) in Es.
  rewrite <- !app_assoc in Es. apply app_inv_head in Es.
  change (lit "<" ++ hx ++ lit ">" ++ rest f)
    with ("<"%char :: hx ++ ">"%char :: rest f) in Es.
  symmetry in Es.
  apply (@run_unique isSpace) in Es as [_ Es]; auto; [|repeat constructor].
  injection Es as Es.
  apply (@run_unique isHex) in Es as [Es _]; auto.
Qed.

(** In such a buffer the first placeholder of these digits is that entry. *)
Lemma placeholder_found_here (pre hex post : str) :
  ~ Holds (lit "/Contents") pre ->
  Forall (fun c => isHex c = true) hex ->
  split_first (lit "/Contents <" ++ hex ++ lit ">")
              (pre ++ lit "/Contents <" ++ hex ++ lit ">" ++ post)
  = Some (pre, post).
Proof.
  intros Hpre Hh. induction pre as [|c t IH].
  - cbn [app]. replace (lit "/Contents <" ++ hex ++ lit ">" ++ post)
      with ((lit "/Contents <" ++ hex ++ lit ">") ++ post)
      by (rewrite <- !app_assoc; reflexivity).
    destruct ((lit "/Contents <" ++ hex ++ lit ">") ++ post) as [|y s] eqn:E;
      [discriminate|].
    cbn [split_first]. rewrite <- E, prefixb_refl_app.
    rewrite skipn_app, Nat.sub_diag, skipn_all. reflexivity.
  - cbn [app split_first].
    destruct (prefixb _ (c :: t ++ lit "/Contents <" ++ hex ++ lit ">" ++ post))
      eqn:Ep.
    + exfalso. apply Hpre. apply prefixb_app in Ep.
      destruct (@no_straddle "/"%char (c :: t)
                  (lit "Contents <" ++ hex ++ lit ">" ++ post) []
                  (lit "/Contents <" ++ hex ++ lit ">")
                  (skipn (length (lit "/Contents <" ++ hex ++ lit ">"))
                         (c :: t ++ lit "/Contents <" ++ hex ++ lit ">" ++ post)))
        as [d Ed].
      * cbn [app]. exact Ep.
      * simpl. lia.
      * apply (@entry_one_slash (lit " ") hex); auto. repeat constructor.
      * exists [], (lit " <" ++ hex ++ lit ">" ++ d). rewrite Ed.
        rewrite <- !app_assoc. reflexivity.
    + rewrite IH; [reflexivity|].
      intros (a & b & E). apply Hpre. exists (c :: a), b. rewrite E. reflexivity.
Qed.

Lemma hexDigit_isHex (n : N) : (n < 16)%N -> isHex (hexDigit n) = true.
Proof.
  intros H.
  assert (C : forall k, k < 16 -> isHex (hexDigit (N.of_nat k)) = true).
  { intros k Hk. do 16 (destruct k as [|k]; [reflexivity|]). lia. }
  rewrite <- (N2Nat.id n). apply C. lia.
Qed.

Lemma toHex_isHex (b : str) : Forall (fun c => isHex c = true) (toHex b).
Proof.
  induction b as [|c t IH]; simpl; [constructor|].
  assert (Hc : (code c < 256)%N) by apply N_ascii_bounded.
  constructor; [|constructor; auto].
  - apply hexDigit_isHex. apply N.Div0.div_lt_upper_bound. exact Hc.
  - apply hexDigit_isHex. apply N.mod_lt. discriminate.
Qed.

Lemma fromHex_byte (c : ascii) (t : str) :
  fromHex (hexDigit (code c / 16) :: hexDigit (code c mod 16) :: t) = c :: fromHex t.
Proof.
  destruct c as [[] [] [] [] [] [] [] []]; reflexivity.
Qed.

(** The bytes of the hex of a buffer are the buffer. *)
Lemma fromHex_toHex_app (b t : str) : fromHex (toHex b ++ t) = b ++ fromHex t.
Proof.
  induction b as [|c b IH]; [reflexivity|].
  cbn [toHex app]. rewrite fromHex_byte, IH. reflexivity.
Qed.

Lemma fromHex_zeros (k : nat) :
  fromHex (repeat "0"%char k) = repeat (chr 0) (k / 2).
Proof.
  assert (G : forall n k, k <= n ->
                          fromHex (repeat "0"%char k) = repeat (chr 0) (k / 2)).
  { induction n as [|n IH]; intros [|[|j]] Hj; try reflexivity; try lia.
    change (repeat "0"%char (S (S j))) with ("0"%char :: "0"%char :: repeat "0"%char j).
    change (S (S j)) with (1 * 2 + j). rewrite Nat.div_add_l by lia.
    cbn [fromHex]. change (isRadixDigit 16 "0") with true.
    change (digitVal "0") with (Some 0%N). cbv iota.
    rewrite IH by lia. reflexivity. }
  apply (G k). lia.
Qed.

End RoundTripFacts.

Module RoundTripExtras.
Import RegexFacts SearchFacts LangFacts CaptureFacts StringFacts HoldsFacts.
Import NumberFacts TsaFacts RoundTripFacts TsaHelper.

Lemma search_in_prefix (r : regex) (pre x : str) :
  test false r pre = true -> exists f, search false r (pre ++ x) = Some f.
Proof.
  intros H. apply test_Occurs in H as (a & m & b & -> & Hm).
  destruct (search_finds a (b ++ x) Hm) as [f Ef]. exists f.
  rewrite <- Ef, <- !app_assoc. reflexivity.
Qed.

(** X10: tsa-helper.js: what [replaceSignatureInPDF] writes is what
    [extractSignatureFromPDF] reads back.  In a buffer whose byte range
    stands before its [/Contents <...>] entry, with no other [/Contents]
    before that entry, extraction reads the digits of the entry; and after
    replacing them by a new signature that fits, extraction reads the hex
    of the new signature with zeros up to the width of the entry, and as
    signature the new one followed by zero bytes. *)
Theorem replaced_signature_is_read_back (pre hex post newSignature : str) :
  test false byteRange_re pre = true ->
  ~ Holds (lit "/Contents") pre ->
  forallb isHex hex = true -> hex <> [] ->
  length (toHex newSignature) <= length hex ->
  (exists e0,
     extractSignatureFromPDF (pre ++ lit "/Contents <" ++ hex ++ lit ">" ++ post)
     = Some e0
     /\ signatureHex e0 = hex)
  /\ exists e,
       extractSignatureFromPDF
         (replaceSignatureInPDF (pre ++ lit "/Contents <" ++ hex ++ lit ">" ++ post)
                                hex newSignature)
       = Some e
       /\ signatureHex e
          = toHex newSignature
            ++ repeat "0"%char (length hex - length (toHex newSignature))
       /\ signature e
          = newSignature
            ++ repeat (chr 0) ((length hex - length (toHex newSignature)) / 2).
Proof.
  intros Hbr Hpre Hh Hne Hfit.
  assert (Hh' : Forall (fun c => isHex c = true) hex).
  { apply Forall_forall. apply forallb_forall. exact Hh. }
  split.
  - unfold extractSignatureFromPDF.
    destruct (search_in_prefix byteRange_re pre
                (lit "/Contents <" ++ hex ++ lit ">" ++ post) Hbr) as [br ->].
    destruct (contents_found_here post Hpre Hh' Hne) as (f & -> & Eg).
    eexists. split; [reflexivity|]. cbn [signatureHex]. rewrite Eg. reflexivity.
  - unfold replaceSignatureInPDF.
    replace (length hex <? length (toHex newSignature)) with false
      by (symmetry; apply Nat.ltb_ge; exact Hfit).
    unfold replace_str. rewrite (placeholder_found_here post Hpre Hh').
    unfold padEnd.
    set (padded := toHex newSignature
                   ++ repeat "0"%char (length hex - length (toHex newSignature))).
    assert (Hp : Forall (fun c => isHex c = true) padded).
    { apply Forall_app. split; [apply toHex_isHex|].
      apply Forall_forall. intros c Hc. apply repeat_spec in Hc. subst c. reflexivity. }
    assert (Hn : padded <> []).
    { intros E. apply (f_equal (@length ascii)) in E.
      unfold padded in E. rewrite length_app, repeat_length in E.
      assert (0 < length hex) by (destruct hex; [congruence | simpl; lia]).
      cbn [length] in E. lia. }
    unfold extractSignatureFromPDF.
    replace (pre ++ (lit "/Contents <" ++ padded ++ lit ">") ++ post)
      with (pre ++ lit "/Contents <" ++ padded ++ lit ">" ++ post)
      by (rewrite <- !app_assoc; reflexivity).
    destruct (search_in_prefix byteRange_re pre
                (lit "/Contents <" ++ padded ++ lit ">" ++ post) Hbr) as [br ->].
    destruct (contents_found_here post Hpre Hp Hn) as (f & -> & Eg).
    eexists. split; [reflexivity|]. cbn [signatureHex signature]. rewrite Eg.
    cbn [nth]. split; [reflexivity|].
    unfold padded. rewrite fromHex_toHex_app, fromHex_zeros. reflexivity.
Qed.

Lemma no_contents_before :
  ~ Holds (lit "/Contents") (lit "5 0 obj << /Type /Sig /ByteRange [0 10 20 30] ").
Proof. apply split_first_None. reflexivity. Qed.

Lemma replaced_signature_is_read_back_witness :
  (exists e0,
     extractSignatureFromPDF
       (lit "5 0 obj << /Type /Sig /ByteRange [0 10 20 30] "
        ++ lit "/Contents <" ++ lit "30820000" ++ lit ">" ++ lit " >> endobj")
     = Some e0
     /\ signatureHex e0 = lit "30820000")
  /\ exists e,
       extractSignatureFromPDF
         (replaceSignatureInPDF
            (lit "5 0 obj << /Type /Sig /ByteRange [0 10 20 30] "
             ++ lit "/Contents <" ++ lit "30820000" ++ lit ">" ++ lit " >> endobj")
            (lit "30820000") (lit "AB"))
       = Some e
       /\ signatureHex e
          = toHex (lit "AB")
            ++ repeat "0"%char (length (lit "30820000") - length (toHex (lit "AB")))
       /\ signature e
          = lit "AB"
            ++ repeat (chr 0)
                 ((length (lit "30820000") - length (toHex (lit "AB"))) / 2).
Proof.
  apply (@replaced_signature_is_read_back
           (lit "5 0 obj << /Type /Sig /ByteRange [0 10 20 30] ")
           (lit "30820000") (lit " >> endobj") (lit "AB")).
  - reflexivity.
  - exact no_contents_before.
  - reflexivity.
  - discriminate.
  - simpl. lia.
Defined.

End RoundTripExtras.

(** ** One escape sequence in a plain text *)

Module EscapeFacts.
Import RegexFacts SearchFacts LangFacts ReplaceFacts DescriptorFacts Detector.

Lemma exec_here_other_char (r : regex) (c x : ascii) (s : str) :
  x <> c -> exec_here false (Cat (Chr c) r) (x :: s) = None.
Proof.
  intros H. unfold exec_here. cbn [run]. unfold char_eq.
  destruct (code c =? code x)%N eqn:E; [|reflexivity].
  apply N.eqb_eq, code_inj in E. congruence.
Qed.

(** A pattern that starts with a character is first tried where the text
    has that character. *)
Lemma search_skip (r : regex) (c : ascii) (a s : str) :
  ~ In c a ->
  search false (Cat (Chr c) r) (a ++ s)
  = match search false (Cat (Chr c) r) s with
    | Some f => Some (Found (a ++ skipped f) (matched f) (groups f) (rest f))
    | None => None
    end.
Proof.
  intros Ha. induction a as [|x a IH]; cbn [app].
  - destruct (search false (Cat (Chr c) r) s) as [[]|]; reflexivity.
  - rewrite search_eq, exec_here_other_char
      by (intros ->; apply Ha; left; reflexivity).
    rewrite IH by (intros H; apply Ha; right; exact H).
    destruct (search false (Cat (Chr c) r) s) as [f|]; reflexivity.
Qed.

Lemma replace_from_none (fuel : nat) (ci : bool) (r : regex)
    (f : str -> list str -> str) (s : str) :
  search ci r s = None -> replace_from fuel ci r f s = s.
Proof. intros H. destruct fuel; simpl; [|rewrite H]; reflexivity. Qed.

(** The one match of the pattern in a text that has the character only
    there is replaced. *)
Lemma replace_at (r : regex) (f : str -> list str -> str) (c x : ascii)
    (a m b : str) (g : list str) :
  ~ In c a -> ~ In c b ->
  exec_here false (Cat (Chr c) r) ((x :: m) ++ b) = Some (g, b) ->
  replace_g false (Cat (Chr c) r) f (a ++ (x :: m) ++ b) = a ++ f (x :: m) g ++ b.
Proof.
  intros Ha Hb He. unfold replace_g. cbn [replace_from].
  rewrite search_skip by exact Ha. rewrite search_eq, He, firstn_length_diff.
  cbn [skipped matched groups rest]. rewrite app_nil_r.
  rewrite replace_from_none by (apply search_first_char; exact Hb). reflexivity.
Qed.

(** A text in which the pattern does not match where the character is, and
    which has the character only there, is left as it is. *)
Lemma replace_not_here (r : regex) (f : str -> list str -> str) (c : ascii)
    (a m b : str) :
  ~ In c a -> ~ In c (m ++ b) ->
  exec_here false (Cat (Chr c) r) (c :: m ++ b) = None ->
  replace_g false (Cat (Chr c) r) f (a ++ c :: m ++ b) = a ++ c :: m ++ b.
Proof.
  intros Ha Hb He. apply replace_g_none.
  rewrite search_skip by exact Ha. rewrite search_eq, He.
  rewrite (@search_first_char r c (m ++ b) Hb). reflexivity.
Qed.

Lemma decodePdfString_eq (s : str) :
  decodePdfString s
  = replace_g false (Cat (Chr backslash) (word "t")) (fun _ _ => [chr 9])
      (replace_g false (Cat (Chr backslash) (word "r")) (fun _ _ => [chr 13])
         (replace_g false (Cat (Chr backslash) (word "n")) (fun _ _ => [newline])
            (replace_g false (Cat (Chr backslash) (Chr backslash))
               (fun _ _ => [backslash])
               (replace_g false (Cat (Chr backslash) (word ")")) (const ")")
                  (replace_g false (Cat (Chr backslash) (word "(")) (const "(")
                     (replace_g false octal_re
                        (fun _ g => fromCharCode (parseInt (nth 0 g []) (Some 8%N)))
                        s)))))).
Proof. destruct s; reflexivity. Qed.

Lemma plain_app (a : str) (c : ascii) (b : str) :
  ~ In backslash a -> c <> backslash -> ~ In backslash b ->
  ~ In backslash (a ++ [c] ++ b).
Proof.
  intros Ha Hc Hb H. apply in_app_or in H as [H|[H|H]]; auto.
Qed.

Lemma plain_stays (r : regex) (f : str -> list str -> str) (s : str) :
  ~ In backslash s -> replace_g false (Cat (Chr backslash) r) f s = s.
Proof. intros H. apply replace_g_none, search_first_char, H. Qed.

Lemma in03_cases (c : ascii) :
  in03 c = true -> c = "0"%char \/ c = "1"%char \/ c = "2"%char \/ c = "3"%char.
Proof.
  destruct c as [[] [] [] [] [] [] [] []]; intros H; try discriminate; auto.
Qed.

Lemma in07_cases (c : ascii) :
  in07 c = true ->
  c = "0"%char \/ c = "1"%char \/ c = "2"%char \/ c = "3"%char
  \/ c = "4"%char \/ c = "5"%char \/ c = "6"%char \/ c = "7"%char.
Proof.
  destruct c as [[] [] [] [] [] [] [] []]; intros H; try discriminate; auto 10.
Qed.

Lemma takes_head (p : ascii -> bool) (s : str) : exists l, takes p s = s :: l.
Proof. destruct s; simpl; eauto. Qed.

(** The pattern of an octal escape at a backslash and three octal digits. *)
Lemma exec_octal (d1 d2 d3 : ascii) (b : str) :
  in03 d1 = true -> in07 d2 = true -> in07 d3 = true ->
  exec_here false octal_re ((backslash :: [d1; d2; d3]) ++ b)
  = Some ([[d1; d2; d3]], b).
Proof.
  intros H1 H2 H3. unfold exec_here, octal_re, times. cbn [app run].
  change (char_eq false backslash backslash) with true. cbv iota.
  cbn [flat_map app fst snd run]. rewrite H1. cbn [flat_map app fst snd map].
  unfold window. cbn [takes]. rewrite H2, H3.
  destruct (takes_head in07 b) as [l ->].
  cbn [skipn rev app map flat_map fst snd].
  change (firstn (3 - 2) (b :: l)) with [b].
  cbn [rev app map hd_error fst snd].
  change (d1 :: d2 :: d3 :: b) with ([d1; d2; d3] ++ b).
  rewrite firstn_length_diff. reflexivity.
Qed.

End EscapeFacts.

Module EscapeExtras.
Import RegexFacts SearchFacts LangFacts ReplaceFacts DescriptorFacts EscapeFacts.
Import Detector.

(** The steps of [decodePdfString] on a text whose one backslash starts an
    escape sequence: the patterns before the one of the sequence pass over
    it, that one replaces it, and the ones after it find no backslash. *)
Ltac lone_escape_by Ha Hb here :=
  rewrite decodePdfString_eq; unfold octal_re;
  match goal with
  | |- context [replace_g false _ _ (?a ++ (backslash :: ?m) ++ ?b)] =>
      let Hmb := fresh "Hmb" in
      assert (Hmb : ~ In backslash (m ++ b))
        by (let H := fresh "H" in
            intros H; apply in_app_or in H as [H|H];
            [repeat (destruct H as [H|H]; [discriminate|]); exact H
            | exact (Hb H)]);
      repeat (rewrite (@replace_not_here _ _ backslash a m b Ha Hmb)
                by (unfold exec_here; reflexivity));
      rewrite (@replace_at _ _ backslash backslash a m b _ Ha Hb) by here
  end;
  match goal with
  | |- _ = ?a ++ ?c :: ?b =>
      let c' := eval vm_compute in c in
      change (a ++ c :: b) with (a ++ [c'] ++ b);
      let R := fresh "R" in
      assert (R : forall r f,
                 replace_g false (Cat (Chr backslash) r) f (a ++ [c'] ++ b)
                 = a ++ [c'] ++ b)
        by (intros; apply plain_stays, plain_app;
            [exact Ha | discriminate | exact Hb]);
      match goal with
      | |- context [replace_g false _ _ (a ++ ?x ++ b)] => change x with [c']
      | |- a ++ ?x ++ b = _ => change x with [c']
      end;
      rewrite ?R; reflexivity
  end.

Ltac lone_escape Ha Hb := lone_escape_by Ha Hb ltac:(unfold exec_here; reflexivity).

(** X2: In a text whose only backslash is the one of an escape sequence,
    [decodePdfString] replaces the sequence by its character: a
    parenthesis, a newline, a carriage return, a tab, or for three octal
    digits the character with that code (the backslash itself apart, which
    would start an escape sequence of its own). *)
Theorem lone_escape_is_decoded (a b : str) :
  forallb (fun c => negb (code c =? 92)%N) a = true ->
  forallb (fun c => negb (code c =? 92)%N) b = true ->
  decodePdfString (a ++ backslash :: "("%char :: b) = a ++ "("%char :: b
  /\ decodePdfString (a ++ backslash :: ")"%char :: b) = a ++ ")"%char :: b
  /\ decodePdfString (a ++ backslash :: "n"%char :: b) = a ++ chr 10 :: b
  /\ decodePdfString (a ++ backslash :: "r"%char :: b) = a ++ chr 13 :: b
  /\ decodePdfString (a ++ backslash :: "t"%char :: b) = a ++ chr 9 :: b
  /\ forall d1 d2 d3,
       in03 d1 = true -> in07 d2 = true -> in07 d3 = true ->
       (64 * (code d1 - 48) + 8 * (code d2 - 48) + (code d3 - 48) <> 92)%N ->
       decodePdfString (a ++ backslash :: d1 :: d2 :: d3 :: b)
       = a ++ chr (64 * (code d1 - 48) + 8 * (code d2 - 48) + (code d3 - 48)) :: b.
Proof.
  intros Ha Hb. apply no_backslash in Ha, Hb.
  split; [|split; [|split; [|split; [|split]]]].
  - change (a ++ backslash :: "("%char :: b) with (a ++ [backslash; "("%char] ++ b).
    lone_escape Ha Hb.
  - change (a ++ backslash :: ")"%char :: b) with (a ++ [backslash; ")"%char] ++ b).
    lone_escape Ha Hb.
  - change (a ++ backslash :: "n"%char :: b) with (a ++ [backslash; "n"%char] ++ b).
    lone_escape Ha Hb.
  - change (a ++ backslash :: "r"%char :: b) with (a ++ [backslash; "r"%char] ++ b).
    lone_escape Ha Hb.
  - change (a ++ backslash :: "t"%char :: b) with (a ++ [backslash; "t"%char] ++ b).
    lone_escape Ha Hb.
  - intros d1 d2 d3 H1 H2 H3 Hv.
    change (a ++ backslash :: d1 :: d2 :: d3 :: b)
      with (a ++ [backslash; d1; d2; d3] ++ b).
    apply in03_cases in H1. apply in07_cases in H2, H3.
    destruct H1 as [->|[->|[->| ->]]];
      destruct H2 as [->|[->|[->|[->|[->|[->|[->| ->]]]]]]];
      destruct H3 as [->|[->|[->|[->|[->|[->|[->| ->]]]]]]];
      try (exfalso; apply Hv; reflexivity);
      lone_escape_by Ha Hb ltac:(apply exec_octal; reflexivity).
Qed.

Lemma lone_escape_is_decoded_witness :
  decodePdfString (lit "Persetujuan " ++ backslash :: "("%char :: lit "final")
  = lit "Persetujuan " ++ "("%char :: lit "final"
  /\ decodePdfString (lit "Persetujuan " ++ backslash :: ")"%char :: lit "final")
     = lit "Persetujuan " ++ ")"%char :: lit "final"
  /\ decodePdfString (lit "Persetujuan " ++ backslash :: "n"%char :: lit "final")
     = lit "Persetujuan " ++ chr 10 :: lit "final"
  /\ decodePdfString (lit "Persetujuan " ++ backslash :: "r"%char :: lit "final")
     = lit "Persetujuan " ++ chr 13 :: lit "final"
  /\ decodePdfString (lit "Persetujuan " ++ backslash :: "t"%char :: lit "final")
     = lit "Persetujuan " ++ chr 9 :: lit "final"
  /\ forall d1 d2 d3,
       in03 d1 = true -> in07 d2 = true -> in07 d3 = true ->
       (64 * (code d1 - 48) + 8 * (code d2 - 48) + (code d3 - 48) <> 92)%N ->
       decodePdfString (lit "Persetujuan " ++ backslash :: d1 :: d2 :: d3 :: lit "final")
       = lit "Persetujuan "
         ++ chr (64 * (code d1 - 48) + 8 * (code d2 - 48) + (code d3 - 48))
         :: lit "final".
Proof.
  apply (@lone_escape_is_decoded (lit "Persetujuan ") (lit "final")); reflexivity.
Defined.

End EscapeExtras.

Module UpdateExtras.
Import RegexFacts SearchFacts LangFacts DetectorFacts Detector.

Lemma Occurs_more (ci : bool) (r : regex) (before s after : str) :
  Occurs ci r s -> Occurs ci r (before ++ s ++ after).
Proof.
  intros (pre & m & post & -> & Hm). exists (before ++ pre), m, (post ++ after).
  rewrite <- !app_assoc. auto.
Qed.

(** X7: Bytes added in front of a buffer or after it, as an incremental update
    does, never hide what the detector found: a buffer reported as signed
    stays so, and stays reported with LTV when it holds a DSS reference, a
    [/Type /DSS] or a [/Type /VRI] entry. *)
Theorem detection_survives_added_bytes {zlib : Zlib} (before pdfBuffer after : str) :
  hasSig (checkPdfSignature pdfBuffer) = true ->
  hasSig (checkPdfSignature (before ++ pdfBuffer ++ after)) = true
  /\ (HasDssRef pdfBuffer \/ HasEntry "/Type" "/DSS" pdfBuffer
      \/ HasEntry "/Type" "/VRI" pdfBuffer ->
      ltv (checkPdfSignature (before ++ pdfBuffer ++ after)) = true).
Proof.
  rewrite !hasSig_test. intros H.
  assert (S : test true sig_re (before ++ pdfBuffer ++ after) = true).
  { apply test_Occurs, Occurs_more, test_Occurs, H. }
  split; [exact S|]. intros M. rewrite (ltv_detect _ S). apply detectLTV_iff.
  destruct M as [M|[M|M]].
  - left. apply Occurs_dss_ref, Occurs_more, Occurs_dss_ref, M.
  - right; left. apply (Occurs_entry "/Type" "/DSS"), Occurs_more.
    apply (Occurs_entry "/Type" "/DSS"), M.
  - right; right; right. apply (Occurs_entry "/Type" "/VRI"), Occurs_more.
    apply (Occurs_entry "/Type" "/VRI"), M.
Qed.

Lemma dssPdf_is_signed :
  hasSig (@checkPdfSignature Examples.noZlib Examples.dssPdf) = true.
Proof. vm_compute. reflexivity. Qed.

Lemma dssPdf_has_entry : HasEntry "/Type" "/DSS" Examples.dssPdf.
Proof.
  exists (lit "5 0 obj << /Type /Sig >> endobj 9 0 obj << "), (lit "/Type"),
         (lit " "), (lit "/DSS"), (lit " >> endobj").
  repeat split; repeat constructor.
Qed.

Lemma detection_survives_added_bytes_witness :
  hasSig (@checkPdfSignature Examples.noZlib
            (lit "%PDF-1.7 " ++ Examples.dssPdf ++ lit " %%EOF")) = true
  /\ ltv (@checkPdfSignature Examples.noZlib
            (lit "%PDF-1.7 " ++ Examples.dssPdf ++ lit " %%EOF")) = true.
Proof.
  destruct (@detection_survives_added_bytes Examples.noZlib (lit "%PDF-1.7 ")
              Examples.dssPdf (lit " %%EOF") dssPdf_is_signed) as [A B].
  split; [exact A|]. apply B. right; left. exact dssPdf_has_entry.
Defined.

End UpdateExtras.
